(** * serverless-api-cloudfront: the distribution-config pipeline of index.js

    A shallow embedding of [ServerlessApiCloudFrontPlugin] (index.js): the
    JavaScript values the plugin manipulates, the property operations of
    the language, the lodash helpers it calls, the fourteen [prepare*]
    rules, [prepareResources] and [createDeploymentArtifacts]; followed by
    the properties of the specification that are settled against them. *)

From Stdlib Require Import String Ascii List ZArith Bool Lia.
From Stdlib Require Import Decimal DecimalString.
Import ListNotations.
Local Open Scope list_scope.
Local Open Scope string_scope.

(* ===================================================================== *)
(** ** JavaScript data                                                    *)
(* ===================================================================== *)

(** The values that [yaml.safeLoad] and the serverless configuration
    produce, plus [undefined].  Numbers are kept as integers: the plugin
    never computes with them, it only tests their truthiness and prints
    them.  An object is its list of own properties in creation order. *)
Unset Elimination Schemes.
Inductive value : Type :=
| VUndef
| VNull
| VBool (b : bool)
| VNum (n : Z)
| VStr (s : string)
| VArr (elems : list value)
| VObj (props : list (string * value)).
Set Elimination Schemes.

(** What a JavaScript operation can end with when it does not return.  The
    plugin is a class body, hence strict-mode code: every failed property
    access or assignment is a [TypeError].  [OutOfModel] marks the few
    operations whose result is not a [value] (a named property stored on
    an array, an array with holes, a boxed primitive). *)
Inductive error : Type := TypeError | OutOfModel.

Inductive result (A : Type) : Type :=
| Ok (a : A)
| Err (e : error).
Arguments Ok {A} a.
Arguments Err {A} e.

Definition bind {A B : Type} (m : result A) (f : A -> result B) : result B :=
  match m with
  | Ok a => f a
  | Err e => Err e
  end.

Notation "x <- m ;; k" := (bind m (fun x => k))
  (at level 61, m at next level, right associativity).

(** *** Property lists *)

Fixpoint lookup (k : string) (ps : list (string * value)) : option value :=
  match ps with
  | [] => None
  | (k', v) :: rest => if String.eqb k k' then Some v else lookup k rest
  end.

(** [o[k] = v] on own properties: an existing key keeps its position, a
    new key goes last. *)
Fixpoint upsert (k : string) (v : value) (ps : list (string * value))
  : list (string * value) :=
  match ps with
  | [] => [(k, v)]
  | (k', v') :: rest =>
      if String.eqb k k' then (k', v) :: rest else (k', v') :: upsert k v rest
  end.

Fixpoint remove (k : string) (ps : list (string * value))
  : list (string * value) :=
  match ps with
  | [] => []
  | (k', v') :: rest =>
      if String.eqb k k' then remove k rest else (k', v') :: remove k rest
  end.

(** *** Array indices as property keys *)

Definition key_of_index (i : nat) : string :=
  NilZero.string_of_uint (Nat.to_uint i).

(** A key is an array index when it is the canonical decimal numeral of a
    natural number ("0", "7", "12"; not "", "07" or "+1"). *)
Definition index_of_key (k : string) : option nat :=
  match NilZero.uint_of_string k with
  | Some u =>
      let i := Nat.of_uint u in
      if String.eqb (key_of_index i) k then Some i else None
  | None => None
  end.

Definition is_index (k : string) : bool :=
  match index_of_key k with Some _ => true | None => false end.

Fixpoint replace_nth (i : nat) (x : value) (l : list value) : list value :=
  match l, i with
  | [], _ => []
  | _ :: rest, O => x :: rest
  | y :: rest, S i' => y :: replace_nth i' x rest
  end.

Definition char_at (i : nat) (s : string) : value :=
  match String.get i s with
  | Some c => VStr (String c EmptyString)
  | None => VUndef
  end.

(** *** Tests on values *)

Definition truthy (v : value) : bool :=
  match v with
  | VUndef | VNull => false
  | VBool b => b
  | VNum n => negb (Z.eqb n 0)
  | VStr s => negb (String.eqb s "")
  | VArr _ | VObj _ => true
  end.

Definition is_null (v : value) : bool :=
  match v with VNull => true | _ => false end.

Definition is_undefined (v : value) : bool :=
  match v with VUndef => true | _ => false end.

(** [Array.isArray] *)
Definition isArray (v : value) : bool :=
  match v with VArr _ => true | _ => false end.

(** [v === s] for a string literal [s] *)
Definition is_string (s : string) (v : value) : bool :=
  match v with VStr s' => String.eqb s' s | _ => false end.

(** [v === true] *)
Definition is_true (v : value) : bool :=
  match v with VBool true => true | _ => false end.

(** [a && b] and [a || b] on values *)
Definition js_and (a b : value) : value := if truthy a then b else a.
Definition js_or (a b : value) : value := if truthy a then a else b.

(** *** Property access *)

(** [o[k]] read.  Reading a property of [undefined] or [null] throws; a
    primitive has no data property besides the length and characters of a
    string.  Inherited members ([constructor], [map], ...) are not data and
    no key read by the plugin names one. *)
Definition get_prop (o : value) (k : string) : result value :=
  match o with
  | VUndef | VNull => Err TypeError
  | VBool _ | VNum _ => Ok VUndef
  | VStr s =>
      Ok (if String.eqb k "length" then VNum (Z.of_nat (String.length s))
          else match index_of_key k with
               | Some i => char_at i s
               | None => VUndef
               end)
  | VArr es =>
      Ok (if String.eqb k "length" then VNum (Z.of_nat (List.length es))
          else match index_of_key k with
               | Some i => nth i es VUndef
               | None => VUndef
               end)
  | VObj ps =>
      Ok (match lookup k ps with Some v => v | None => VUndef end)
  end.

(** [k in Object(o)] for data properties. *)
Definition has_property (o : value) (k : string) : bool :=
  match o with
  | VObj ps => match lookup k ps with Some _ => true | None => false end
  | VArr es =>
      String.eqb k "length" ||
      match index_of_key k with
      | Some i => Nat.ltb i (List.length es)
      | None => false
      end
  | VStr s =>
      String.eqb k "length" ||
      match index_of_key k with
      | Some i => Nat.ltb i (String.length s)
      | None => false
      end
  | _ => false
  end.

(** [o[k] = v] for a name [k] (the plugin assigns no index).  In strict
    mode the assignment throws on [undefined], [null] and on every
    primitive; on an array it would create a named property. *)
Definition set_prop (o : value) (k : string) (v : value) : result value :=
  match o with
  | VObj ps => Ok (VObj (upsert k v ps))
  | VArr _ => Err OutOfModel
  | _ => Err TypeError
  end.

(** [delete o[k]].  Throws on [undefined] and [null], and in strict mode on
    a property that cannot be deleted (the length of an array or string,
    the characters of a string); deleting what is not there succeeds. *)
Definition delete_prop (o : value) (k : string) : result value :=
  match o with
  | VUndef | VNull => Err TypeError
  | VBool _ | VNum _ => Ok o
  | VStr _ => if has_property o k then Err TypeError else Ok o
  | VArr _ =>
      if String.eqb k "length" then Err TypeError
      else if has_property o k then Err OutOfModel
      else Ok o
  | VObj ps => Ok (VObj (remove k ps))
  end.

(** Objects are references: when the object held at [o[k]] is mutated, the
    change is seen through [o].  In this tree model the mutated child is
    stored back at the position it was read from. *)
Definition put_prop (o : value) (k : string) (child : value) : value :=
  match o with
  | VObj ps => VObj (upsert k child ps)
  | VArr es =>
      match index_of_key k with
      | Some i => VArr (replace_nth i child es)
      | None => o
      end
  | _ => o
  end.

(** [o.p1.p2...pn] read, left to right. *)
Fixpoint get_path (o : value) (path : list string) : result value :=
  match path with
  | [] => Ok o
  | p :: rest => child <- get_prop o p ;; get_path child rest
  end.

(** [o.p1.p2...pn.k = v]: the base [o.p1...pn] is read, the property is
    assigned on it, and the mutation is visible from [o]. *)
Fixpoint assign_in (o : value) (path : list string) (k : string) (v : value)
  : result value :=
  match path with
  | [] => set_prop o k v
  | p :: rest =>
      child <- get_prop o p ;;
      child' <- assign_in child rest k v ;;
      Ok (put_prop o p child')
  end.

(** *** Conversion to string, as a template literal does it *)

Fixpoint toString (v : value) : string :=
  match v with
  | VUndef => "undefined"
  | VNull => "null"
  | VBool true => "true"
  | VBool false => "false"
  | VNum n => NilZero.string_of_int (Z.to_int n)
  | VStr s => s
  | VArr es =>
      (fix join (l : list value) : string :=
         match l with
         | [] => ""
         | e :: rest =>
             let piece := match e with
                          | VUndef | VNull => ""
                          | _ => toString e
                          end in
             match rest with
             | [] => piece
             | _ :: _ => piece ++ "," ++ join rest
             end
         end) es
  | VObj _ => "[object Object]"
  end.

(** *** Own enumerable properties, in enumeration order

    Used by [Object.entries] and by lodash's [toPairs]: integer keys come
    first in ascending order, then the other keys in creation order. *)

Fixpoint insert_indexed (i : nat) (e : string * value)
  (l : list (nat * (string * value))) : list (nat * (string * value)) :=
  match l with
  | [] => [(i, e)]
  | (j, e') :: rest =>
      if Nat.leb j i then (j, e') :: insert_indexed i e rest
      else (i, e) :: l
  end.

Fixpoint indexed_props (ps : list (string * value))
  : list (nat * (string * value)) :=
  match ps with
  | [] => []
  | (k, v) :: rest =>
      match index_of_key k with
      | Some i => insert_indexed i (k, v) (indexed_props rest)
      | None => indexed_props rest
      end
  end.

Definition named_props (ps : list (string * value)) : list (string * value) :=
  filter (fun kv => negb (is_index (fst kv))) ps.

Fixpoint number_from (i : nat) (l : list value) : list (string * value) :=
  match l with
  | [] => []
  | x :: rest => (key_of_index i, x) :: number_from (S i) rest
  end.

Fixpoint chars (s : string) : list value :=
  match s with
  | EmptyString => []
  | String c rest => VStr (String c EmptyString) :: chars rest
  end.

Definition entries (v : value) : list (string * value) :=
  match v with
  | VObj ps => (map snd (indexed_props ps) ++ named_props ps)%list
  | VArr es => number_from 0 es
  | VStr s => number_from 0 (chars s)
  | _ => []
  end.

(* ===================================================================== *)
(** ** The lodash functions used by the plugin                            *)
(* ===================================================================== *)

(** lodash is an external library; these definitions follow its 4.17
    implementation on plain data. *)
Module Lodash.

(** [stringToPath] on a path without brackets: the segments between the
    dots (no path of the plugin contains a bracket). *)
Fixpoint split_dots (s : string) : list string :=
  match s with
  | EmptyString => [EmptyString]
  | String c rest =>
      if Ascii.eqb c "." then EmptyString :: split_dots rest
      else match split_dots rest with
           | seg :: segs => String c seg :: segs
           | [] => [String c EmptyString]
           end
  end.

Definition stringToPath (s : string) : list string :=
  if String.eqb s "" then [] else split_dots s.

Fixpoint has_dot (s : string) : bool :=
  match s with
  | EmptyString => false
  | String c rest => Ascii.eqb c "." || has_dot rest
  end.

(** [isKey]: a string without a dot is a key; one with dots is a key
    only when the object has a property of exactly that name. *)
Definition isKey (path : string) (object : value) : bool :=
  negb (has_dot path) || has_property object path.

Definition castPath (path : string) (object : value) : list string :=
  if isKey path object then [path] else stringToPath path.

(** The loop of [baseGet]: it stops at the first [null] or [undefined]
    and then yields [undefined] unless the whole path was consumed. *)
Fixpoint walk (object : value) (path : list string) : value :=
  match path with
  | [] => object
  | k :: rest =>
      match object with
      | VUndef | VNull => VUndef
      | _ => match get_prop object k with
             | Ok v => walk v rest
             | Err _ => VUndef
             end
      end
  end.

Definition baseGet (object : value) (path : string) : value :=
  match castPath path object with
  | [] => VUndef
  | ks => walk object ks
  end.

(** [_.get(object, path, defaultValue)] *)
Definition get (object : value) (path : string) (defaultValue : value)
  : value :=
  let r := match object with
           | VUndef | VNull => VUndef
           | _ => baseGet object path
           end in
  if is_undefined r then defaultValue else r.

(** [_.head(array)]: [(array && array.length) ? array[0] : undefined] *)
Definition head (array : value) : value :=
  if truthy array then
    match get_prop array "length" with
    | Ok len =>
        if truthy len then
          match get_prop array "0" with Ok v => v | Err _ => VUndef end
        else VUndef
    | Err _ => VUndef
    end
  else VUndef.

(** [_.toPairs(object)] *)
Definition toPairs (object : value) : value :=
  VArr (map (fun kv => VArr [VStr (fst kv); snd kv]) (entries object)).

(** [_.zipObject(props, values)]; [values] is falsy or an array here. *)
Definition zipObject (props : list string) (values : value) : value :=
  let vals := match values with VArr es => es | _ => [] end in
  VObj (fold_left
          (fun acc ip => upsert (snd ip) (nth (fst ip) vals VUndef) acc)
          (combine (seq 0 (List.length props)) props) []).

(** [copyArray] of an array-like object *)
Definition copyArray (ps : list (string * value)) (len : nat) : list value :=
  map (fun i => match lookup (key_of_index i) ps with
                | Some v => v
                | None => VUndef
                end) (seq 0 len).

Definition array_like_length (ps : list (string * value)) : option nat :=
  match lookup "length" ps with
  | Some (VNum n) => if Z.leb 0 n then Some (Z.to_nat n) else None
  | _ => None
  end.

(** The value that [baseMerge] leaves at a key (or index) of the
    destination, given what the destination holds there ([None]: the
    key is not in the destination) and the source value.

    - a source [undefined] is skipped when the key exists;
    - a source plain object is merged key by key into the destination
      object, or into a fresh object when the destination holds none;
    - a source array is merged index by index into the destination
      array, or into a fresh array when the destination holds none;
    - any other source value is assigned. *)
Fixpoint mergeValue (srcValue : value) (objValue : option value)
  {struct srcValue} : result value :=
  match srcValue with
  | VUndef => Ok (match objValue with Some v => v | None => VUndef end)
  | VObj sps =>
      if existsb (fun kv => is_index (fst kv)) sps then Err OutOfModel
      else
        base <- match objValue with
                | Some (VObj ops) => Ok ops
                | Some (VArr _) => Err OutOfModel
                | _ => Ok []
                end ;;
        merged <-
          (fix each (sps : list (string * value))
                    (ops : list (string * value)) {struct sps}
             : result (list (string * value)) :=
             match sps with
             | [] => Ok ops
             | (key, sv) :: rest =>
                 newValue <- mergeValue sv (lookup key ops) ;;
                 each rest (upsert key newValue ops)
             end) sps base ;;
        Ok (VObj merged)
  | VArr ses =>
      let base := match objValue with
                  | Some (VArr oes) => oes
                  | Some (VObj ops) =>
                      match array_like_length ops with
                      | Some len => copyArray ops len
                      | None => []
                      end
                  | _ => []
                  end in
      merged <-
        (fix each (ses oes : list value) {struct ses}
           : result (list value) :=
           match ses with
           | [] => Ok oes
           | sv :: ses' =>
               match oes with
               | ov :: oes' =>
                   newValue <- mergeValue sv (Some ov) ;;
                   rest <- each ses' oes' ;;
                   Ok (newValue :: rest)
               | [] =>
                   newValue <- mergeValue sv None ;;
                   rest <- each ses' [] ;;
                   Ok (newValue :: rest)
               end
           end) ses base ;;
      Ok (VArr merged)
  | _ => Ok srcValue
  end.

(** The two loops of [mergeValue] under names of their own: over the
    properties of a source object, and over the elements of a source
    array. *)
Definition mergeProps
  : list (string * value) -> list (string * value) ->
    result (list (string * value)) :=
  fix each (sps : list (string * value))
           (ops : list (string * value)) {struct sps}
    : result (list (string * value)) :=
    match sps with
    | [] => Ok ops
    | (key, sv) :: rest =>
        newValue <- mergeValue sv (lookup key ops) ;;
        each rest (upsert key newValue ops)
    end.

Definition mergeElems : list value -> list value -> result (list value) :=
  fix each (ses oes : list value) {struct ses} : result (list value) :=
    match ses with
    | [] => Ok oes
    | sv :: ses' =>
        match oes with
        | ov :: oes' =>
            newValue <- mergeValue sv (Some ov) ;;
            rest <- each ses' oes' ;;
            Ok (newValue :: rest)
        | [] =>
            newValue <- mergeValue sv None ;;
            rest <- each ses' [] ;;
            Ok (newValue :: rest)
        end
    end.

(** [_.merge(object, source)]: the destination is [Object(object)], a
    falsy source is skipped. *)
Definition merge (object source : value) : result value :=
  match object with
  | VBool _ | VNum _ | VStr _ => Err OutOfModel
  | _ =>
      match source with
      | VObj _ => mergeValue source (Some object)
      | _ =>
          if truthy source then Err OutOfModel
          else Ok (match object with
                   | VUndef | VNull => VObj []
                   | _ => object
                   end)
      end
  end.

End Lodash.

(* ===================================================================== *)
(** ** The plugin                                                         *)
(* ===================================================================== *)

(** What an instance of [ServerlessApiCloudFrontPlugin] reads:
    - [serverless]: the data of [this.serverless] (the [service] object
      with its [custom] and [provider] sections);
    - [apiGatewayName]: what the naming collaborator
      [this.serverless.getProvider('aws').naming.getApiGatewayName()]
      returns;
    - [options]: [this.options], whose [stage] is the deployment stage. *)
Record plugin : Type := {
  serverless : value;
  apiGatewayName : value;
  options : value
}.

(** [resources.Resources.ApiDistribution.Properties.DistributionConfig] *)
Definition distributionConfigPath : list string :=
  ["Resources"; "ApiDistribution"; "Properties"; "DistributionConfig"].

(** The object reached by [path] was mutated into [x]: the change as it is
    seen from the root [o]. *)
Fixpoint put_path (o : value) (path : list string) (x : value) : value :=
  match path with
  | [] => x
  | p :: rest =>
      match get_prop o p with
      | Ok child => put_prop o p (put_path child rest x)
      | Err _ => o
      end
  end.

(** [a.map(f)] for a function [f] that does not throw: a [TypeError]
    unless [a] is an array. *)
Definition array_map (f : value -> value) (a : value) : result value :=
  match a with
  | VArr es => Ok (VArr (map f es))
  | _ => Err TypeError
  end.

Section Plugin.

Variable this : plugin.

Definition getConfig (field : string) (defaultValue : value) : value :=
  Lodash.get (serverless this)
             ("service.custom.apiCloudFront." ++ field) defaultValue.

Definition prepareLogging (distributionConfig : value) : result value :=
  let loggingBucket := getConfig "logging.bucket" VNull in
  if negb (is_null loggingBucket) then
    dc <- assign_in distributionConfig ["Logging"] "Bucket" loggingBucket ;;
    assign_in dc ["Logging"] "Prefix" (getConfig "logging.prefix" (VStr ""))
  else
    delete_prop distributionConfig "Logging".

Definition originDomainName (httpApi : value) : value :=
  VObj [("Fn::Join",
         VArr [VStr "";
               VArr [VObj [("Ref", js_or (js_and httpApi (VStr "HttpApi"))
                                         (VStr "ApiGatewayRestApi"))];
                     VStr ".execute-api.";
                     VObj [("Ref", VStr "AWS::Region")];
                     VStr ".amazonaws.com"]])].

Definition prepareDomain (distributionConfig : value) : result value :=
  let domain := getConfig "domain" VNull in
  let httpApi := getConfig "httpApi" (VBool false) in
  dc <- (if negb (is_null domain) then
           set_prop distributionConfig "Aliases"
                    (if isArray domain then domain else VArr [domain])
         else
           delete_prop distributionConfig "Aliases") ;;
  assign_in dc ["Origins"; "0"] "DomainName" (originDomainName httpApi).

Definition preparePriceClass (distributionConfig : value) : result value :=
  let priceClass := getConfig "priceClass" (VStr "PriceClass_All") in
  set_prop distributionConfig "PriceClass" priceClass.

(** The template literal [`/${this.options.stage}`] *)
Definition stagePath : result value :=
  stage <- get_prop (options this) "stage" ;;
  Ok (VStr ("/" ++ toString stage)).

(** [origin] is the object [distributionConfig.Origins[0]] itself, so the
    two assignments through it are stored back at that position. *)
Definition prepareOrigins (distributionConfig : value) : result value :=
  origins <- get_prop distributionConfig "Origins" ;;
  let origin := Lodash.head origins in
  let originCustomHeaders := getConfig "originCustomHeaders" (VArr []) in
  pairs <- array_map Lodash.toPairs originCustomHeaders ;;
  heads <- array_map Lodash.head pairs ;;
  headers <- array_map (Lodash.zipObject ["HeaderName"; "HeaderValue"])
                       heads ;;
  origin1 <- set_prop origin "OriginCustomHeaders" headers ;;
  path <- stagePath ;;
  origin2 <- set_prop origin1 "OriginPath" path ;;
  let dc := put_prop distributionConfig "Origins"
                     (put_prop origins "0" origin2) in
  let httpApi := getConfig "httpApi" (VBool false) in
  path' <- (if truthy httpApi then Ok (VStr "") else stagePath) ;;
  assign_in dc ["Origins"; "0"] "OriginPath" path'.

Definition prepareCookies (distributionConfig : value) : result value :=
  let forwardCookies := getConfig "cookies" (VStr "all") in
  dc <- assign_in distributionConfig
                  ["DefaultCacheBehavior"; "ForwardedValues"; "Cookies"]
                  "Forward"
                  (if isArray forwardCookies then VStr "whitelist"
                   else forwardCookies) ;;
  if isArray forwardCookies then
    assign_in dc ["DefaultCacheBehavior"; "ForwardedValues"; "Cookies"]
              "WhitelistedNames" forwardCookies
  else Ok dc.

Definition prepareHeaders (distributionConfig : value) : result value :=
  let forwardHeaders := getConfig "headers" (VStr "none") in
  if isArray forwardHeaders then
    assign_in distributionConfig ["DefaultCacheBehavior"; "ForwardedValues"]
              "Headers" forwardHeaders
  else
    assign_in distributionConfig ["DefaultCacheBehavior"; "ForwardedValues"]
              "Headers"
              (if is_string "none" forwardHeaders then VArr []
               else VArr [VStr "*"]).

Definition preparePolicies (distributionConfig : value) : result value :=
  let cachePolicyId := getConfig "cachePolicyId" VNull in
  dc <- (if truthy cachePolicyId then
           assign_in distributionConfig ["DefaultCacheBehavior"]
                     "CachePolicyId" cachePolicyId
         else Ok distributionConfig) ;;
  let originRequestPolicyId := getConfig "originRequestPolicyId" VNull in
  if truthy originRequestPolicyId then
    assign_in dc ["DefaultCacheBehavior"]
              "OriginRequestPolicyId" originRequestPolicyId
  else Ok dc.

Definition prepareTTL (distributionConfig : value) : result value :=
  let ttl := getConfig "ttl" VNull in
  if truthy ttl then
    ttl_default <- get_prop ttl "default" ;;
    dc1 <- assign_in distributionConfig ["DefaultCacheBehavior"]
                     "DefaultTTL" ttl_default ;;
    ttl_max <- get_prop ttl "max" ;;
    dc2 <- assign_in dc1 ["DefaultCacheBehavior"] "MaxTTL" ttl_max ;;
    ttl_min <- get_prop ttl "min" ;;
    assign_in dc2 ["DefaultCacheBehavior"] "MinTTL" ttl_min
  else Ok distributionConfig.

Definition prepareQueryString (distributionConfig : value) : result value :=
  let forwardQueryString := getConfig "querystring" (VStr "all") in
  if isArray forwardQueryString then
    dc <- assign_in distributionConfig
                    ["DefaultCacheBehavior"; "ForwardedValues"]
                    "QueryString" (VBool true) ;;
    assign_in dc ["DefaultCacheBehavior"; "ForwardedValues"]
              "QueryStringCacheKeys" forwardQueryString
  else
    assign_in distributionConfig ["DefaultCacheBehavior"; "ForwardedValues"]
              "QueryString"
              (if is_string "all" forwardQueryString then VBool true
               else VBool false).

Definition prepareComment (distributionConfig : value) : result value :=
  let name := apiGatewayName this in
  set_prop distributionConfig "Comment"
           (VStr ("Serverless Managed " ++ toString name)).

Definition prepareCertificate (distributionConfig : value) : result value :=
  let certificate := getConfig "certificate" VNull in
  if negb (is_null certificate) then
    assign_in distributionConfig ["ViewerCertificate"]
              "AcmCertificateArn" certificate
  else
    delete_prop distributionConfig "ViewerCertificate".

Definition prepareWaf (distributionConfig : value) : result value :=
  let waf := getConfig "waf" VNull in
  if negb (is_null waf) then
    set_prop distributionConfig "WebACLId" waf
  else
    delete_prop distributionConfig "WebACLId".

Definition prepareCompress (distributionConfig : value) : result value :=
  assign_in distributionConfig ["DefaultCacheBehavior"] "Compress"
            (if is_true (getConfig "compress" (VBool false)) then VBool true
             else VBool false).

Definition prepareMinimumProtocolVersion (distributionConfig : value)
  : result value :=
  let minimumProtocolVersion := getConfig "minimumProtocolVersion" VUndef in
  if truthy minimumProtocolVersion then
    assign_in distributionConfig ["ViewerCertificate"]
              "MinimumProtocolVersion" minimumProtocolVersion
  else Ok distributionConfig.

(** The fourteen rules in the order in which [prepareResources] calls
    them, on the object [distributionConfig]. *)
Definition applyRules (distributionConfig : value) : result value :=
  dc <- prepareLogging distributionConfig ;;
  dc <- prepareDomain dc ;;
  dc <- preparePriceClass dc ;;
  dc <- prepareOrigins dc ;;
  dc <- prepareCookies dc ;;
  dc <- prepareHeaders dc ;;
  dc <- prepareTTL dc ;;
  dc <- preparePolicies dc ;;
  dc <- prepareQueryString dc ;;
  dc <- prepareComment dc ;;
  dc <- prepareCertificate dc ;;
  dc <- prepareWaf dc ;;
  dc <- prepareCompress dc ;;
  prepareMinimumProtocolVersion dc.

(** [prepareResources] mutates [resources] in place; the model returns
    the mutated object. *)
Definition prepareResources (resources : value) : result value :=
  distributionConfig <- get_path resources distributionConfigPath ;;
  dc <- applyRules distributionConfig ;;
  Ok (put_path resources distributionConfigPath dc).

(** [Object.entries(tags).map(x => ({Key: x[0], Value: x[1]}))] *)
Definition tagList (tags : value) : value :=
  VArr (map (fun x => VObj [("Key", VStr (fst x)); ("Value", snd x)])
            (entries tags)).

(** [resources] is what [yaml.safeLoad] returned for resources.yml.  The
    result is the merged [compiledCloudFormationTemplate]. *)
Definition createDeploymentArtifacts (resources : value) : result value :=
  baseResources <- get_path (serverless this)
    ["service"; "provider"; "compiledCloudFormationTemplate"] ;;
  resources1 <- prepareResources resources ;;
  tags <- get_path (serverless this) ["service"; "provider"; "tags"] ;;
  resources2 <-
    (if truthy tags then
       assign_in resources1 ["Resources"; "ApiDistribution"; "Properties"]
                 "Tags" (tagList tags)
     else Ok resources1) ;;
  Lodash.merge baseResources resources2.

(** The rules of the code with [preparePolicies] called before
    [prepareTTL]: a step between [applyRules] and the pipeline of
    section 4.2, which lists Policies first. *)
Definition applyRules_policies_first (distributionConfig : value)
  : result value :=
  dc <- prepareLogging distributionConfig ;;
  dc <- prepareDomain dc ;;
  dc <- preparePriceClass dc ;;
  dc <- prepareOrigins dc ;;
  dc <- prepareCookies dc ;;
  dc <- prepareHeaders dc ;;
  dc <- preparePolicies dc ;;
  dc <- prepareTTL dc ;;
  dc <- prepareQueryString dc ;;
  dc <- prepareComment dc ;;
  dc <- prepareCertificate dc ;;
  dc <- prepareWaf dc ;;
  dc <- prepareCompress dc ;;
  prepareMinimumProtocolVersion dc.

End Plugin.

Arguments getConfig : simpl never.

(** *** What the rules compute from the configuration

    The values that [prepareOrigins] assigns, as expressions of the plugin
    instance alone. *)

(** [originCustomHeaders.map(_.toPairs).map(_.head).map(...)] *)
Definition customHeaders (this : plugin) : result value :=
  pairs <- array_map Lodash.toPairs
                     (getConfig this "originCustomHeaders" (VArr [])) ;;
  heads <- array_map Lodash.head pairs ;;
  array_map (Lodash.zipObject ["HeaderName"; "HeaderValue"]) heads.

(** [httpApi ? "" : `/${this.options.stage}`] *)
Definition originPath (this : plugin) : result value :=
  if truthy (getConfig this "httpApi" (VBool false)) then Ok (VStr "")
  else stagePath this.

(* ===================================================================== *)
(** ** Sample inputs                                                      *)
(* ===================================================================== *)

(** A base template of the shape the rules expect (every block they write
    into is there). *)
Definition sample_distributionConfig : value :=
  VObj [("Origins",
         VArr [VObj [("Id", VStr "ApiGateway");
                     ("DomainName", VStr "placeholder");
                     ("OriginPath", VStr "/dev");
                     ("CustomOriginConfig",
                      VObj [("HTTPPort", VStr "80");
                            ("HTTPSPort", VStr "443");
                            ("OriginProtocolPolicy", VStr "https-only")])]]);
        ("Enabled", VBool true);
        ("HttpVersion", VStr "http2");
        ("Comment", VStr "cdn for api gateway");
        ("Aliases", VArr [VStr "domain.tld"]);
        ("PriceClass", VStr "PriceClass_100");
        ("DefaultCacheBehavior",
         VObj [("AllowedMethods", VArr [VStr "GET"; VStr "HEAD"]);
               ("ForwardedValues",
                VObj [("QueryString", VBool false);
                      ("Headers", VArr [VStr "Accept"]);
                      ("Cookies", VObj [("Forward", VStr "none")])]);
               ("MinTTL", VStr "0");
               ("DefaultTTL", VStr "0");
               ("TargetOriginId", VStr "ApiGateway");
               ("ViewerProtocolPolicy", VStr "redirect-to-https");
               ("Compress", VBool true)]);
        ("ViewerCertificate",
         VObj [("AcmCertificateArn", VStr "arn");
               ("SslSupportMethod", VStr "sni-only")]);
        ("Logging",
         VObj [("IncludeCookies", VStr "false");
               ("Bucket", VStr "");
               ("Prefix", VStr "")]);
        ("WebACLId", VStr "waf")].

Definition sample_resources : value :=
  VObj [("Resources",
         VObj [("ApiDistribution",
                VObj [("Type", VStr "AWS::CloudFront::Distribution");
                      ("Properties",
                       VObj [("DistributionConfig",
                              sample_distributionConfig)])])]);
        ("Outputs",
         VObj [("ApiDistribution",
                VObj [("Value",
                       VObj [("Fn::GetAtt",
                              VArr [VStr "ApiDistribution";
                                    VStr "DomainName"])])])])].

(** A plugin instance whose [custom.apiCloudFront] section is [config]. *)
Definition sample_plugin (config : value) (name stage : string) : plugin :=
  {| serverless :=
       VObj [("service",
              VObj [("custom", VObj [("apiCloudFront", config)]);
                    ("provider",
                     VObj [("compiledCloudFormationTemplate",
                            VObj [("Resources", VObj [])])])])];
     apiGatewayName := VStr name;
     options := VObj [("stage", VStr stage)] |}.


(* ===================================================================== *)
(** ** Paths, footprints and frames                                       *)
(* ===================================================================== *)

(** Objects and arrays: the values that are references. *)
Definition container (v : value) : bool :=
  match v with VObj _ | VArr _ => true | _ => false end.

(** *** Paths that part ways *)

(** [diverge p q]: at the first position where [p] and [q] differ, both
    still have a key (neither is a prefix of the other). *)
Fixpoint diverge (p q : list string) : bool :=
  match p, q with
  | a :: p', b :: q' => if String.eqb a b then diverge p' q' else true
  | _, _ => false
  end.

(** [q] parts ways with every path of [fields]. *)
Definition untouched (fields : list (list string)) (q : list string) : bool :=
  forallb (fun p => diverge p q) fields.

(** The property [b] of the object itself is none of [fields]: only a
    field that is a single key can create or remove a property. *)
Definition key_untouched (fields : list (list string)) (b : string) : bool :=
  forallb (fun p => match p with
                    | [] => false
                    | [k] => negb (String.eqb k b)
                    | _ :: _ :: _ => true
                    end) fields.

Fixpoint is_prefix (a b : list string) : bool :=
  match a, b with
  | [], _ => true
  | x :: a', y :: b' => String.eqb x y && is_prefix a' b'
  | _ :: _, [] => false
  end.

(** Every path of [fine] extends a path of [coarse]. *)
Definition covers (coarse fine : list (list string)) : bool :=
  forallb (fun p => existsb (fun c => is_prefix c p) coarse) fine.

(** [frames R fields]: whenever [R] returns, nothing that is read along a
    path parting ways with all of [fields] has changed, no property
    outside [fields] was created or removed, and an object is still an
    object. *)
Definition frames (R : value -> result value) (fields : list (list string))
  : Prop :=
  forall dc dc', R dc = Ok dc' ->
    (forall q, untouched fields q = true -> get_path dc' q = get_path dc q) /\
    (forall b, key_untouched fields b = true ->
               has_property dc' b = has_property dc b) /\
    container dc' = container dc.

(** The fields of the distribution config that each rule names. *)
Definition fields_Logging := [["Logging"]].
Definition fields_Domain := [["Aliases"]; ["Origins"; "0"; "DomainName"]].
Definition fields_PriceClass := [["PriceClass"]].
Definition fields_Origins :=
  [["Origins"; "0"; "OriginCustomHeaders"]; ["Origins"; "0"; "OriginPath"]].
Definition fields_Cookies :=
  [["DefaultCacheBehavior"; "ForwardedValues"; "Cookies"; "Forward"];
   ["DefaultCacheBehavior"; "ForwardedValues"; "Cookies"; "WhitelistedNames"]].
Definition fields_Headers :=
  [["DefaultCacheBehavior"; "ForwardedValues"; "Headers"]].
Definition fields_Policies :=
  [["DefaultCacheBehavior"; "CachePolicyId"];
   ["DefaultCacheBehavior"; "OriginRequestPolicyId"]].
Definition fields_TTL :=
  [["DefaultCacheBehavior"; "DefaultTTL"];
   ["DefaultCacheBehavior"; "MaxTTL"];
   ["DefaultCacheBehavior"; "MinTTL"]].
Definition fields_QueryString :=
  [["DefaultCacheBehavior"; "ForwardedValues"; "QueryString"];
   ["DefaultCacheBehavior"; "ForwardedValues"; "QueryStringCacheKeys"]].
Definition fields_Comment := [["Comment"]].
Definition fields_Certificate := [["ViewerCertificate"]].
Definition fields_Waf := [["WebACLId"]].
Definition fields_Compress := [["DefaultCacheBehavior"; "Compress"]].
Definition fields_MinimumProtocolVersion :=
  [["ViewerCertificate"; "MinimumProtocolVersion"]].


(** The rules with the fields they name, in the order in which
    [prepareResources] calls them. *)
Definition rules (this : plugin)
  : list ((value -> result value) * list (list string)) :=
  [(prepareLogging this, fields_Logging);
   (prepareDomain this, fields_Domain);
   (preparePriceClass this, fields_PriceClass);
   (prepareOrigins this, fields_Origins);
   (prepareCookies this, fields_Cookies);
   (prepareHeaders this, fields_Headers);
   (prepareTTL this, fields_TTL);
   (preparePolicies this, fields_Policies);
   (prepareQueryString this, fields_QueryString);
   (prepareComment this, fields_Comment);
   (prepareCertificate this, fields_Certificate);
   (prepareWaf this, fields_Waf);
   (prepareCompress this, fields_Compress);
   (prepareMinimumProtocolVersion this, fields_MinimumProtocolVersion)].

(** Runs a list of rules one after the other. *)
Fixpoint run (l : list (value -> result value)) (dc : value) : result value :=
  match l with
  | [] => Ok dc
  | R :: rest => x <- R dc ;; run rest x
  end.

(** The fields named by the rules of [l]. *)
Definition fields_of (l : list ((value -> result value) * list (list string)))
  : list (list string) :=
  concat (map snd l).

(** The fields named by the rules that run before rule number [i]
    (counting from 0), and by those that run after it. *)
Definition fields_before (this : plugin) (i : nat) : list (list string) :=
  fields_of (firstn i (rules this)).

Definition fields_after (this : plugin) (i : nat) : list (list string) :=
  fields_of (skipn (S i) (rules this)).

(** The distribution config after [prepareResources] on the sample
    template, for the witnesses below. *)
Definition returned (r : result value) : value :=
  match r with Ok v => v | Err _ => VUndef end.

(** *** The optional blocks of the distribution config

    Each of [Logging], [Aliases], [ViewerCertificate] and [WebACLId] is
    either not a property of the distribution config at all, or carries
    what its rule puts there. *)
Definition set_value (v : value) : bool :=
  negb (is_null v) && negb (is_undefined v).

Definition logging_ok (dc : value) : Prop :=
  has_property dc "Logging" = false \/
  exists bucket prefix,
    get_path dc ["Logging"; "Bucket"] = Ok bucket /\
    set_value bucket = true /\
    get_path dc ["Logging"; "Prefix"] = Ok prefix /\
    is_undefined prefix = false.

Definition aliases_ok (dc : value) : Prop :=
  has_property dc "Aliases" = false \/
  exists names, get_path dc ["Aliases"] = Ok (VArr names).

Definition viewerCertificate_ok (dc : value) : Prop :=
  has_property dc "ViewerCertificate" = false \/
  exists arn,
    get_path dc ["ViewerCertificate"; "AcmCertificateArn"] = Ok arn /\
    set_value arn = true.

Definition webACLId_ok (dc : value) : Prop :=
  has_property dc "WebACLId" = false \/
  exists waf, get_path dc ["WebACLId"] = Ok waf /\ set_value waf = true.

Definition optional_blocks_ok (dc : value) : Prop :=
  logging_ok dc /\ aliases_ok dc /\ viewerCertificate_ok dc /\ webACLId_ok dc.

(** *** The fields that every run overwrites

    Each with the value it receives, an expression of the plugin instance
    (configuration, stage, API gateway name) in which the base template
    does not occur. *)
Definition overwritten (this : plugin) : list (list string * result value) :=
  let cookies := getConfig this "cookies" (VStr "all") in
  let headers := getConfig this "headers" (VStr "none") in
  let querystring := getConfig this "querystring" (VStr "all") in
  [(["PriceClass"], Ok (getConfig this "priceClass" (VStr "PriceClass_All")));
   (["Comment"],
    Ok (VStr ("Serverless Managed " ++ toString (apiGatewayName this))));
   (["Origins"; "0"; "DomainName"],
    Ok (originDomainName (getConfig this "httpApi" (VBool false))));
   (["Origins"; "0"; "OriginPath"], originPath this);
   (["Origins"; "0"; "OriginCustomHeaders"], customHeaders this);
   (["DefaultCacheBehavior"; "Compress"],
    Ok (VBool (is_true (getConfig this "compress" (VBool false)))));
   (["DefaultCacheBehavior"; "ForwardedValues"; "Cookies"; "Forward"],
    Ok (if isArray cookies then VStr "whitelist" else cookies));
   (["DefaultCacheBehavior"; "ForwardedValues"; "Headers"],
    Ok (if isArray headers then headers
        else if is_string "none" headers then VArr [] else VArr [VStr "*"]));
   (["DefaultCacheBehavior"; "ForwardedValues"; "QueryString"],
    Ok (VBool (isArray querystring || is_string "all" querystring)))].

(** *** The settings read by the rules

    Every configuration field that a rule reads, with the default the
    rule passes to [getConfig]. *)
Definition config_fields : list (string * value) :=
  [("logging.bucket", VNull);
   ("logging.prefix", VStr "");
   ("domain", VNull);
   ("httpApi", VBool false);
   ("priceClass", VStr "PriceClass_All");
   ("originCustomHeaders", VArr []);
   ("cookies", VStr "all");
   ("headers", VStr "none");
   ("cachePolicyId", VNull);
   ("originRequestPolicyId", VNull);
   ("ttl", VNull);
   ("querystring", VStr "all");
   ("certificate", VNull);
   ("waf", VNull);
   ("compress", VBool false);
   ("minimumProtocolVersion", VUndef)].

(** Two plugin instances in which the rules read the same settings. *)
Definition same_settings (this1 this2 : plugin) : Prop :=
  Forall (fun fd => getConfig this1 (fst fd) (snd fd) =
                    getConfig this2 (fst fd) (snd fd)) config_fields.

(** The optional settings whose rule passes the default [null], each with
    the block its rule deletes. *)
Definition null_default_settings : list (string * string) :=
  [("logging.bucket", "Logging");
   ("domain", "Aliases");
   ("certificate", "ViewerCertificate");
   ("waf", "WebACLId")].

(** *** Leaves of a template *)

(** The scalars of YAML: [null], booleans, numbers and strings. *)
Definition scalar (v : value) : bool :=
  match v with
  | VNull | VBool _ | VNum _ | VStr _ => true
  | VUndef | VArr _ | VObj _ => false
  end.

(** A compiled template that already holds aliases for the distribution. *)
Definition template_with_aliases : value :=
  VObj [("Resources",
         VObj [("ApiDistribution",
                VObj [("Properties",
                       VObj [("DistributionConfig",
                              VObj [("Aliases",
                                     VArr [VStr "old1.example.com";
                                           VStr "old2.example.com"])])])])])].

(** A plugin instance of the service named [service], deployed to
    [stage], with compiled template [template]; the API gateway is named
    as the framework names it when [provider.apiName] is not set:
    [stage-service]. *)
Definition plugin_on (template config : value) (service stage : string)
  : plugin :=
  {| serverless :=
       VObj [("service",
              VObj [("service", VStr service);
                    ("custom",
                     VObj [("apiCloudFront", config);
                           ("webpack", VObj [("packager", VStr "npm")])]);
                    ("provider",
                     VObj [("name", VStr "aws");
                           ("compiledCloudFormationTemplate", template)])])];
     apiGatewayName := VStr (stage ++ "-" ++ service);
     options := VObj [("stage", VStr stage); ("region", VStr "eu-west-1")] |}.

(* ===================================================================== *)
(** ** Templates as nested maps                                           *)
(* ===================================================================== *)

(** JavaScript has no structural equality; two templates are the same
    nested map when they hold the same values under the same keys,
    whatever the order in which the properties were created (the
    comparison of lodash's [isEqual]). *)
Inductive opt_rel {A : Type} (R : A -> A -> Prop)
  : option A -> option A -> Prop :=
| opt_rel_none : opt_rel R None None
| opt_rel_some (a b : A) : R a b -> opt_rel R (Some a) (Some b).

Unset Elimination Schemes.
Inductive veq : value -> value -> Prop :=
| veq_undef : veq VUndef VUndef
| veq_null : veq VNull VNull
| veq_bool (b : bool) : veq (VBool b) (VBool b)
| veq_num (n : Z) : veq (VNum n) (VNum n)
| veq_str (s : string) : veq (VStr s) (VStr s)
| veq_arr (es1 es2 : list value) :
    Forall2 veq es1 es2 -> veq (VArr es1) (VArr es2)
| veq_obj (ps1 ps2 : list (string * value)) :
    (forall k, opt_rel veq (lookup k ps1) (lookup k ps2)) ->
    veq (VObj ps1) (VObj ps2).
Set Elimination Schemes.

(** Two runs end alike: with the same error, or with the same nested
    map. *)
Inductive result_eq : result value -> result value -> Prop :=
| result_eq_ok (a b : value) : veq a b -> result_eq (Ok a) (Ok b)
| result_eq_err (e : error) : result_eq (Err e) (Err e).

(** A rule that takes equal maps to equal results. *)
Definition respects (R : value -> result value) : Prop :=
  forall a b, veq a b -> result_eq (R a) (R b).

(** A sequence of assignments [o[p][k] = v] into the same block [p]. *)
Fixpoint write_all (p : string) (ws : list (string * value)) (o : value)
  : result value :=
  match ws with
  | [] => Ok o
  | (k, v) :: rest => o' <- assign_in o [p] k v ;; write_all p rest o'
  end.

Fixpoint upsert_all (ws : list (string * value)) (ps : list (string * value))
  : list (string * value) :=
  match ws with
  | [] => ps
  | (k, v) :: rest => upsert_all rest (upsert k v ps)
  end.

(** The value that the last write to [k] in [ws] stores, if any. *)
Fixpoint last_write (k : string) (ws : list (string * value))
  : option value :=
  match ws with
  | [] => None
  | (k', v) :: rest =>
      match last_write k rest with
      | Some v' => Some v'
      | None => if String.eqb k k' then Some v else None
      end
  end.

(** The writes of [prepareTTL] and of [preparePolicies] into
    [DefaultCacheBehavior]. *)
Definition ttl_writes (this : plugin) : list (string * value) :=
  let ttl := getConfig this "ttl" VNull in
  if truthy ttl then
    [("DefaultTTL", returned (get_prop ttl "default"));
     ("MaxTTL", returned (get_prop ttl "max"));
     ("MinTTL", returned (get_prop ttl "min"))]
  else [].

Definition policy_writes (this : plugin) : list (string * value) :=
  let cachePolicyId := getConfig this "cachePolicyId" VNull in
  let originRequestPolicyId := getConfig this "originRequestPolicyId" VNull in
  ((if truthy cachePolicyId then [("CachePolicyId", cachePolicyId)] else [])
   ++ (if truthy originRequestPolicyId
       then [("OriginRequestPolicyId", originRequestPolicyId)] else []))%list.


(* ===================================================================== *)
(** ** Templates that fit the rules                                       *)
(* ===================================================================== *)

(** [o.p1...pn] is an object. *)
Definition is_object_at (o : value) (q : list string) : bool :=
  match get_path o q with
  | Ok (VObj _) => true
  | _ => false
  end.

(** [_.head(dc.Origins)] is an object: the template has a first origin. *)
Definition first_origin_is_object (dc : value) : bool :=
  match get_prop dc "Origins" with
  | Ok origins =>
      match Lodash.head origins with
      | VObj _ => true
      | _ => false
      end
  | Err _ => false
  end.

(** [keeps R fields]: whenever [R] returns, a path of which no field of
    [fields] is a prefix leads to an object after [R] exactly when it
    did before. *)
Definition keeps (R : value -> result value) (fields : list (list string))
  : Prop :=
  forall dc dc' q,
    R dc = Ok dc' ->
    existsb (fun f => is_prefix f q) fields = false ->
    is_object_at dc' q = is_object_at dc q.

(** The blocks into which the rules assign are objects of the
    distribution config [dc]: the cookies block (hence
    [DefaultCacheBehavior] and [ForwardedValues]), the first origin, and
    the [Logging] and [ViewerCertificate] blocks when the configuration
    makes their rules assign into them. *)
Definition template_fits (this : plugin) (dc : value) : bool :=
  is_object_at dc ["DefaultCacheBehavior"; "ForwardedValues"; "Cookies"]
  && first_origin_is_object dc
  && (is_null (getConfig this "logging.bucket" VNull)
      || is_object_at dc ["Logging"])
  && (is_null (getConfig this "certificate" VNull)
      || is_object_at dc ["ViewerCertificate"]).

(** [originCustomHeaders] is a list and [this.options] can be read. *)
Definition inputs_fit (this : plugin) : bool :=
  isArray (getConfig this "originCustomHeaders" (VArr []))
  && match get_prop (options this) "stage" with
     | Ok _ => true
     | Err _ => false
     end.

(** The rules before Origins, Origins itself, the rules from Cookies to
    Comment, and the last four. *)
Definition rules_before_origins (this : plugin) :=
  map fst (firstn 3 (rules this)).
Definition rules_cookies_to_comment (this : plugin) :=
  map fst (firstn 6 (skipn 4 (rules this))).
Definition rules_from_certificate (this : plugin) :=
  map fst (skipn 10 (rules this)).

(** [o.p1...pn] is no place to assign into: it is [undefined], [null] or
    another primitive, or reading it throws. *)
Definition no_block_at (o : value) (q : list string) : bool :=
  match get_path o q with
  | Ok v => negb (container v)
  | Err TypeError => true
  | Err OutOfModel => false
  end.

(* ===================================================================== *)
(** ** The summary printed after a deployment                             *)
(* ===================================================================== *)

(** A plugin of [this.serverless.pluginManager.getPlugins()], as
    [printSummary] reads it: the name of its constructor and its
    [gatheredData] ([undefined] when it has none). *)
Record installed : Type := {
  constructor_name : string;
  gatheredData : value
}.

(** The first element for which the predicate holds; the predicate may
    throw, and is not called past the match. *)
Fixpoint find_first (predicate : value -> result bool) (l : list value)
  : result (option value) :=
  match l with
  | [] => Ok None
  | x :: rest =>
      b <- predicate x ;;
      if b then Ok (Some x) else find_first predicate rest
  end.

(** [_.find(collection, predicate)] for a function [predicate]: over the
    elements of an array or the characters of a string, over the values
    of an object (one with a numeric [length] may be array-like and is
    left out of the model); [undefined] when nothing matches, and for
    [null], [undefined], numbers and booleans. *)
Definition find (collection : value) (predicate : value -> result bool)
  : result value :=
  elements <-
    match collection with
    | VArr es => Ok es
    | VStr s => Ok (chars s)
    | VObj ps =>
        match lookup "length" ps with
        | Some (VNum _) => Err OutOfModel
        | _ => Ok (map snd (entries collection))
        end
    | _ => Ok []
    end ;;
  found <- find_first predicate elements ;;
  Ok (match found with Some x => x | None => VUndef end).

(** What [this.serverless.cli.consoleLog] is called with. *)
Inductive message : Type :=
| yellow (text : string)      (* chalk.yellow(text) *)
| plain (text : string).

(** [printSummary]: the messages logged, in order.  Nothing can throw
    between the two calls of [consoleLog], so an error means that nothing
    was logged. *)
Definition printSummary (this : plugin) (plugins : list installed)
  : result (list message) :=
  match List.find (fun p => String.eqb (constructor_name p) "AwsInfo")
                  plugins with
  | None => Ok []
  | Some awsInfo =>
      if negb (truthy (gatheredData awsInfo)) then Ok []
      else
        outputs <- get_prop (gatheredData awsInfo) "outputs" ;;
        apiDistributionDomain <-
          find outputs
               (fun output =>
                  key <- get_prop output "OutputKey" ;;
                  Ok (is_string "ApiDistribution" key)) ;;
        if negb (truthy apiDistributionDomain) then Ok []
        else
          outputValue <- get_prop apiDistributionDomain "OutputValue" ;;
          if negb (truthy outputValue) then Ok []
          else
            let cnameDomain := getConfig this "domain" (VStr "-") in
            Ok [yellow "CloudFront domain name";
                plain ("  " ++ toString outputValue ++ " (CNAME: "
                       ++ toString cnameDomain ++ ")")]
  end.

(** An output of the stack under another key than [key]. *)
Definition other_output (key : string) (output : value) : bool :=
  match get_prop output "OutputKey" with
  | Ok k => negb (is_string key k)
  | Err _ => false
  end.

(** The gathered outputs hold no output of the distribution: there are
    none ([undefined], [null]), or they are a list of outputs under other
    keys. *)
Definition no_distribution_output (outputs : value) : bool :=
  match outputs with
  | VUndef | VNull => true
  | VArr es => forallb (other_output "ApiDistribution") es
  | _ => false
  end.

(* ===================================================================== *)
(** ** Plain data                                                         *)
(* ===================================================================== *)

(** An object of the program has each of its keys once; the association
    lists of the model could list one twice. *)
Fixpoint distinct (keys : list string) : bool :=
  match keys with
  | [] => true
  | k :: rest => negb (existsb (String.eqb k) rest) && distinct rest
  end.

Fixpoint distinct_keys (v : value) : bool :=
  match v with
  | VObj ps =>
      distinct (map fst ps) && forallb (fun kv => distinct_keys (snd kv)) ps
  | VArr es => forallb distinct_keys es
  | _ => true
  end.

(* ===================================================================== *)
(** ** The configuration map                                              *)
(* ===================================================================== *)

(** The configuration map of the specification is what the service
    definition holds under [custom.apiCloudFront]. *)
Definition configurationPath : list string :=
  ["service"; "custom"; "apiCloudFront"].

(** No own key of [o] is a dotted path (lodash's [get] reads a property
    named by the whole path before it splits the path at the dots). *)
Definition no_dotted_key (o : value) : bool :=
  match o with
  | VObj ps => forallb (fun kv => negb (Lodash.has_dot (fst kv))) ps
  | _ => true
  end.

(** [this.serverless] holds the configuration map [configMap]. *)
Definition configured (this : plugin) (configMap : value) : Prop :=
  no_dotted_key (serverless this) = true /\
  get_path (serverless this) configurationPath = Ok configMap.

(** The keys that name data of every value alike: neither an index nor
    [length]. *)
Definition plain_key (k : string) : bool :=
  negb (String.eqb k "length") && negb (is_index k).

(* ===================================================================== *)
(** ** The deep merge as a relation                                       *)
(* ===================================================================== *)

(** What the target holds at a key is no map and no array: nothing,
    [undefined], [null] or a scalar. *)
Definition holds_no_container (held : option value) : bool :=
  match held with
  | Some v => negb (container v)
  | None => true
  end.

(** [deep_merged sv held m]: merging the source value [sv] into a key at
    which the target holds [held] ([None]: the key is not there) leaves
    [m], at every depth.
    - [undefined] leaves what the target holds;
    - a scalar replaces it;
    - a map is merged key by key into the target's map, or into an empty
      map when the target holds no map: the keys that the source lacks
      keep their value, every key of the source holds the merge of the
      source's value into what was there;
    - an array is merged index by index into the target's array, or into
      an empty array when the target holds none: the first elements are
      merged, then the rest likewise, and the elements of the target
      beyond the length of the source stay.
    A map that meets an array and an array that meets a map are left
    open. *)
Fixpoint deep_merged (sv : value) (held : option value) (m : value)
  {struct sv} : Prop :=
  match sv with
  | VUndef => m = match held with Some v => v | None => VUndef end
  | VNull | VBool _ | VNum _ | VStr _ => m = sv
  | VObj sps =>
      match held with
      | Some (VArr _) => True
      | _ =>
          let ops := match held with Some (VObj ops) => ops | _ => [] end in
          exists mps,
            m = VObj mps /\
            (forall k, lookup k sps = None -> lookup k mps = lookup k ops) /\
            (fix each (l : list (string * value)) : Prop :=
               match l with
               | [] => True
               | (k, x) :: rest =>
                   (exists mk, lookup k mps = Some mk /\
                               deep_merged x (lookup k ops) mk) /\
                   each rest
               end) sps
      end
  | VArr ses =>
      match held with
      | Some (VObj _) => True
      | _ =>
          let oes := match held with Some (VArr oes) => oes | _ => [] end in
          exists es,
            m = VArr es /\
            (fix each (ses oes es : list value) {struct ses} : Prop :=
               match ses with
               | [] => es = oes
               | x :: ses' =>
                   match es with
                   | e :: es' =>
                       deep_merged x (hd_error oes) e /\
                       each ses' (tl oes) es'
                   | [] => False
                   end
               end) ses oes es
      end
  end.

(** The two loops of [deep_merged] under names of their own. *)
Definition deep_merged_props (mps ops : list (string * value))
  : list (string * value) -> Prop :=
  fix each (l : list (string * value)) : Prop :=
    match l with
    | [] => True
    | (k, x) :: rest =>
        (exists mk, lookup k mps = Some mk /\
                    deep_merged x (lookup k ops) mk) /\
        each rest
    end.

Definition deep_merged_elems : list value -> list value -> list value -> Prop :=
  fix each (ses oes es : list value) {struct ses} : Prop :=
    match ses with
    | [] => es = oes
    | x :: ses' =>
        match es with
        | e :: es' =>
            deep_merged x (hd_error oes) e /\ each ses' (tl oes) es'
        | [] => False
        end
    end.

(* ===================================================================== *)
(** ** Section 4 of the specification                                     *)
(* ===================================================================== *)

(** The ConfigAccessor of section 4.1 and the fourteen rules of section
    4.2, as the specification words them and in the order in which it
    lists them, on the same nested maps as the code.  The writes into
    the distribution config are the assignments and deletions of the
    model. *)
Module Spec.

(** The value at a path of keys of a nested map; [undefined] where a
    segment is absent. *)
Fixpoint at_path (m : value) (path : list string) : value :=
  match path with
  | [] => m
  | k :: rest =>
      match m with
      | VObj ps =>
          match lookup k ps with
          | Some v => at_path v rest
          | None => VUndef
          end
      | _ => VUndef
      end
  end.

(** 4.1: absent or undefined path segments yield the default. *)
Definition accessor (configMap : value) (path : list string)
           (default : value) : value :=
  let v := at_path configMap path in
  if is_undefined v then default else v.

(** A setting is present when the map holds a value for it; an explicit
    [null] counts as absent. *)
Definition present (v : value) : bool :=
  negb (is_undefined v) && negb (is_null v).

(** The configuration has the types that the rules of 4.2 expect of the
    settings they test (section 7 leaves the behaviour on other types
    open): [httpApi] is a boolean, [originCustomHeaders] a list of
    maps with at least one key, [ttl] a map, and the policy ids and the
    minimum protocol version are not empty, zero or [false]. *)
Definition well_typed (configMap : value) : bool :=
  match accessor configMap ["httpApi"] (VBool false) with
  | VBool _ => true
  | _ => false
  end
  && match accessor configMap ["originCustomHeaders"] (VArr []) with
     | VArr es =>
         forallb (fun e => match e with VObj (_ :: _) => true | _ => false end)
                 es
     | _ => false
     end
  && (let v := accessor configMap ["cachePolicyId"] VNull in
      negb (present v) || truthy v)
  && (let v := accessor configMap ["originRequestPolicyId"] VNull in
      negb (present v) || truthy v)
  && match accessor configMap ["ttl"] VNull with
     | VNull | VObj _ => true
     | _ => false
     end
  && (let v := accessor configMap ["minimumProtocolVersion"] VUndef in
      negb (present v) || truthy v).

(** Rule 2: a reference expression pointing at the REST or HTTP API
    gateway resource. *)
Definition gateway_reference (resource : string) : value :=
  VObj [("Fn::Join",
         VArr [VStr "";
               VArr [VObj [("Ref", VStr resource)];
                     VStr ".execute-api.";
                     VObj [("Ref", VStr "AWS::Region")];
                     VStr ".amazonaws.com"]])].

(** Rule 4: each map is converted to a {HeaderName, HeaderValue} pair
    (first key/value only). *)
Definition header_pair (entry : value) : value :=
  match entries entry with
  | (k, v) :: _ => VObj [("HeaderName", VStr k); ("HeaderValue", v)]
  | [] => VObj []
  end.

Section Rules.

Variable configMap : value.
(** The stage of the invocation context and the name that the naming
    collaborator gives the API gateway. *)
Variable stage : string.
Variable gatewayName : string.

Definition setting (path : list string) (default : value) : value :=
  accessor configMap path default.

(** 1. Logging: if logging.bucket present, set bucket + logging.prefix
    (default: the empty string); else delete Logging entirely. *)
Definition Logging (dc : value) : result value :=
  let bucket := setting ["logging"; "bucket"] VNull in
  if present bucket then
    dc <- assign_in dc ["Logging"] "Bucket" bucket ;;
    assign_in dc ["Logging"] "Prefix"
              (setting ["logging"; "prefix"] (VStr ""))
  else delete_prop dc "Logging".

(** 2. Domain: if domain present, set Aliases to it wrapped in a list if
    scalar; else delete Aliases.  Independently, always (re)compute
    Origins[0].DomainName, selected by the httpApi boolean (default
    false). *)
Definition Domain (dc : value) : result value :=
  let domain := setting ["domain"] VNull in
  dc <- (if present domain then
           set_prop dc "Aliases"
                    (if isArray domain then domain else VArr [domain])
         else delete_prop dc "Aliases") ;;
  assign_in dc ["Origins"; "0"] "DomainName"
            (gateway_reference
               (if is_true (setting ["httpApi"] (VBool false))
                then "HttpApi" else "ApiGatewayRestApi")).

(** 3. PriceClass: set from priceClass (default PriceClass_All); always
    present. *)
Definition PriceClass (dc : value) : result value :=
  set_prop dc "PriceClass" (setting ["priceClass"] (VStr "PriceClass_All")).

(** 4. Origins: build OriginCustomHeaders from originCustomHeaders, a
    list of single-key maps, order preserved.  Set OriginPath to the
    empty string when httpApi is true, else to /{stage}. *)
Definition Origins (dc : value) : result value :=
  let headers :=
    match setting ["originCustomHeaders"] (VArr []) with
    | VArr es => VArr (map header_pair es)
    | _ => VArr []
    end in
  dc <- assign_in dc ["Origins"; "0"] "OriginCustomHeaders" headers ;;
  assign_in dc ["Origins"; "0"] "OriginPath"
            (VStr (if is_true (setting ["httpApi"] (VBool false))
                   then "" else "/" ++ stage)).

(** 5. Cookies: cookies (default all): if it is a list, Forward is
    whitelist and WhitelistedNames is that list; otherwise Forward is
    the scalar value verbatim. *)
Definition Cookies (dc : value) : result value :=
  let cookies := setting ["cookies"] (VStr "all") in
  let block := ["DefaultCacheBehavior"; "ForwardedValues"; "Cookies"] in
  if isArray cookies then
    dc <- assign_in dc block "Forward" (VStr "whitelist") ;;
    assign_in dc block "WhitelistedNames" cookies
  else assign_in dc block "Forward" cookies.

(** 6. Headers: headers (default none): a list is used verbatim; none
    gives the empty list; any other scalar gives the list of "*". *)
Definition Headers (dc : value) : result value :=
  let headers := setting ["headers"] (VStr "none") in
  assign_in dc ["DefaultCacheBehavior"; "ForwardedValues"] "Headers"
            (if isArray headers then headers
             else if is_string "none" headers then VArr []
                  else VArr [VStr "*"]).

(** 7. Policies: if cachePolicyId present, set it; if
    originRequestPolicyId present, set it.  Both independent, no
    default. *)
Definition Policies (dc : value) : result value :=
  let cachePolicyId := setting ["cachePolicyId"] VNull in
  let originRequestPolicyId := setting ["originRequestPolicyId"] VNull in
  dc <- (if present cachePolicyId then
           assign_in dc ["DefaultCacheBehavior"] "CachePolicyId"
                     cachePolicyId
         else Ok dc) ;;
  if present originRequestPolicyId then
    assign_in dc ["DefaultCacheBehavior"] "OriginRequestPolicyId"
              originRequestPolicyId
  else Ok dc.

(** 8. TTL: if the ttl object is present, set DefaultTTL/MaxTTL/MinTTL
    from its default/max/min fields; absent: leave the template's
    defaults untouched. *)
Definition TTL (dc : value) : result value :=
  let ttl := setting ["ttl"] VNull in
  match ttl with
  | VObj _ =>
      dc <- assign_in dc ["DefaultCacheBehavior"] "DefaultTTL"
                      (at_path ttl ["default"]) ;;
      dc <- assign_in dc ["DefaultCacheBehavior"] "MaxTTL"
                      (at_path ttl ["max"]) ;;
      assign_in dc ["DefaultCacheBehavior"] "MinTTL" (at_path ttl ["min"])
  | _ => Ok dc
  end.

(** 9. QueryString: querystring (default all): a list gives QueryString
    true and QueryStringCacheKeys that list; all gives QueryString true;
    any other scalar gives QueryString false. *)
Definition QueryString (dc : value) : result value :=
  let querystring := setting ["querystring"] (VStr "all") in
  let block := ["DefaultCacheBehavior"; "ForwardedValues"] in
  if isArray querystring then
    dc <- assign_in dc block "QueryString" (VBool true) ;;
    assign_in dc block "QueryStringCacheKeys" querystring
  else
    assign_in dc block "QueryString" (VBool (is_string "all" querystring)).

(** 10. Comment: always set to a fixed descriptive string incorporating
    the computed API gateway resource name. *)
Definition Comment (dc : value) : result value :=
  set_prop dc "Comment" (VStr ("Serverless Managed " ++ gatewayName)).

(** 11. Certificate: if certificate present, set
    ViewerCertificate.AcmCertificateArn; else delete ViewerCertificate
    entirely. *)
Definition Certificate (dc : value) : result value :=
  let certificate := setting ["certificate"] VNull in
  if present certificate then
    assign_in dc ["ViewerCertificate"] "AcmCertificateArn" certificate
  else delete_prop dc "ViewerCertificate".

(** 12. WAF: if waf present, set WebACLId; else delete it. *)
Definition WAF (dc : value) : result value :=
  let waf := setting ["waf"] VNull in
  if present waf then set_prop dc "WebACLId" waf
  else delete_prop dc "WebACLId".

(** 13. Compress: set boolean true only if the compress setting is
    exactly boolean true; any other value gives false. *)
Definition Compress (dc : value) : result value :=
  assign_in dc ["DefaultCacheBehavior"] "Compress"
            (VBool (is_true (setting ["compress"] (VBool false)))).

(** 14. MinimumProtocolVersion: if configured and ViewerCertificate
    still exists, set it; if certificate was absent, this field is
    silently dropped because its parent was deleted in rule 11. *)
Definition MinimumProtocolVersion (dc : value) : result value :=
  let version := setting ["minimumProtocolVersion"] VUndef in
  if present version && has_property dc "ViewerCertificate" then
    assign_in dc ["ViewerCertificate"] "MinimumProtocolVersion" version
  else Ok dc.

(** The rules, applied in this order. *)
Definition rules (dc : value) : result value :=
  dc <- Logging dc ;;
  dc <- Domain dc ;;
  dc <- PriceClass dc ;;
  dc <- Origins dc ;;
  dc <- Cookies dc ;;
  dc <- Headers dc ;;
  dc <- Policies dc ;;
  dc <- TTL dc ;;
  dc <- QueryString dc ;;
  dc <- Comment dc ;;
  dc <- Certificate dc ;;
  dc <- WAF dc ;;
  dc <- Compress dc ;;
  MinimumProtocolVersion dc.

(** The fourteen rules on the distribution config of the resources. *)
Definition pipeline (resources : value) : result value :=
  dc <- get_path resources distributionConfigPath ;;
  dc <- rules dc ;;
  Ok (put_path resources distributionConfigPath dc).

End Rules.

End Spec.
(* ===================================================================== *)
(** ** Property lists and property access: basic facts                    *)
(* ===================================================================== *)

Lemma bind_ok {A B : Type} (m : result A) (f : A -> result B) (b : B) :
  bind m f = Ok b -> exists a, m = Ok a /\ f a = Ok b.
Proof.
  destruct m as [a|e]; simpl; intros H; [eauto | discriminate].
Qed.

(** Splits a hypothesis [x <- m ;; k = Ok b] into its two steps. *)
Ltac bind_inv H :=
  let a := fresh "r" in
  let Ha := fresh "Hstep" in
  apply bind_ok in H; destruct H as [a [Ha H]].

Lemma lookup_upsert (b k : string) (v : value) (ps : list (string * value)) :
  lookup b (upsert k v ps) = if String.eqb b k then Some v else lookup b ps.
Proof.
  induction ps as [|[k' v'] rest IH]; simpl.
  - destruct (String.eqb_spec b k); reflexivity.
  - destruct (String.eqb_spec k k') as [->|Hk]; simpl.
    + destruct (String.eqb_spec b k'); reflexivity.
    + rewrite IH. destruct (String.eqb_spec b k') as [->|Hb]; [|reflexivity].
      destruct (String.eqb_spec k' k); [congruence | reflexivity].
Qed.

Lemma lookup_remove (b k : string) (ps : list (string * value)) :
  lookup b (remove k ps) = if String.eqb b k then None else lookup b ps.
Proof.
  induction ps as [|[k' v'] rest IH]; simpl.
  - destruct (String.eqb b k); reflexivity.
  - destruct (String.eqb_spec k k') as [->|Hk]; simpl.
    + rewrite IH. destruct (String.eqb_spec b k'); reflexivity.
    + rewrite IH. destruct (String.eqb_spec b k') as [->|Hb]; [|reflexivity].
      destruct (String.eqb_spec k' k); [congruence | reflexivity].
Qed.

Lemma index_of_key_inv (k : string) (i : nat) :
  index_of_key k = Some i -> key_of_index i = k.
Proof.
  unfold index_of_key. destruct (NilZero.uint_of_string k); [|discriminate].
  destruct (String.eqb_spec (key_of_index (Nat.of_uint u)) k); [|discriminate].
  intros [= <-]. assumption.
Qed.

Lemma index_of_key_inj (k k' : string) (i : nat) :
  index_of_key k = Some i -> index_of_key k' = Some i -> k = k'.
Proof.
  intros H H'. apply index_of_key_inv in H, H'. congruence.
Qed.

Lemma length_replace_nth (i : nat) (x : value) (l : list value) :
  List.length (replace_nth i x l) = List.length l.
Proof.
  revert i; induction l as [|y rest IH]; intros [|i]; simpl; auto.
Qed.

Lemma nth_replace_nth_same (i : nat) (x : value) (l : list value) :
  (i < List.length l)%nat -> nth i (replace_nth i x l) VUndef = x.
Proof.
  revert i; induction l as [|y rest IH]; intros [|i]; simpl; intros H;
    try lia; auto. apply IH; lia.
Qed.

Lemma nth_replace_nth_other (i j : nat) (x : value) (l : list value) :
  i <> j -> nth j (replace_nth i x l) VUndef = nth j l VUndef.
Proof.
  revert i j; induction l as [|y rest IH]; intros [|i] [|j] H; simpl;
    try reflexivity; try congruence. apply IH; congruence.
Qed.

(** A property read that yields an object or array found it as an own
    property of an object, or as an element of an array. *)
Lemma get_prop_container (o c : value) (p : string) :
  get_prop o p = Ok c -> container c = true ->
  (exists ps, o = VObj ps /\ lookup p ps = Some c) \/
  (exists es i, o = VArr es /\ String.eqb p "length" = false /\
                index_of_key p = Some i /\ (i < List.length es)%nat /\
                nth i es VUndef = c).
Proof.
  destruct o as [| |b|n|s|es|ps]; simpl; try discriminate.
  - intros [= <-]; discriminate.
  - intros [= <-]; discriminate.
  - intros [= <-]. destruct (String.eqb p "length"); [discriminate|].
    destruct (index_of_key p); [|discriminate].
    unfold char_at. destruct (String.get n s); discriminate.
  - intros [= <-] Hc. right.
    destruct (String.eqb p "length"); [discriminate|].
    destruct (index_of_key p) as [i|]; [|discriminate].
    exists es, i. repeat split; auto.
    destruct (Nat.lt_ge_cases i (List.length es)) as [Hlt|Hge]; auto.
    rewrite nth_overflow in Hc by assumption. discriminate.
  - intros [= <-] Hc. left. exists ps. split; auto.
    destruct (lookup p ps); [reflexivity | discriminate].
Qed.

Lemma get_put_same (o c c' : value) (p : string) :
  get_prop o p = Ok c -> container c = true ->
  get_prop (put_prop o p c') p = Ok c'.
Proof.
  intros Hg Hc.
  destruct (get_prop_container _ _ _ Hg Hc)
    as [[ps [-> Hl]] | [es [i [-> [Hlen [Hi [Hlt Hn]]]]]]]; simpl.
  - rewrite lookup_upsert, String.eqb_refl. reflexivity.
  - rewrite Hi. simpl. rewrite Hlen, Hi.
    rewrite nth_replace_nth_same by assumption. reflexivity.
Qed.

Lemma get_put_other (o c' : value) (p b : string) :
  String.eqb p b = false ->
  get_prop (put_prop o p c') b = get_prop o b.
Proof.
  intros Hpb. destruct o as [| |x|n|s|es|ps]; simpl; try reflexivity.
  - destruct (index_of_key p) as [i|] eqn:Hi; simpl; [|reflexivity].
    rewrite length_replace_nth.
    destruct (String.eqb b "length"); [reflexivity|].
    destruct (index_of_key b) as [j|] eqn:Hj; [|reflexivity].
    rewrite nth_replace_nth_other; [reflexivity|].
    intros <-. rewrite (index_of_key_inj _ _ _ Hi Hj) in Hpb.
    rewrite String.eqb_refl in Hpb. discriminate.
  - rewrite lookup_upsert, String.eqb_sym, Hpb. reflexivity.
Qed.

Lemma has_put (o c c' : value) (p b : string) :
  get_prop o p = Ok c -> container c = true ->
  has_property (put_prop o p c') b = has_property o b.
Proof.
  intros Hg Hc.
  destruct (get_prop_container _ _ _ Hg Hc)
    as [[ps [-> Hl]] | [es [i [-> [Hlen [Hi [Hlt Hn]]]]]]]; simpl.
  - rewrite lookup_upsert. destruct (String.eqb_spec b p) as [->|Hb].
    + rewrite Hl. reflexivity.
    + reflexivity.
  - rewrite Hi. simpl. rewrite length_replace_nth. reflexivity.
Qed.

Lemma container_put (o c c' : value) (p : string) :
  get_prop o p = Ok c -> container c = true ->
  container (put_prop o p c') = true.
Proof.
  intros Hg Hc.
  destruct (get_prop_container _ _ _ Hg Hc)
    as [[ps [-> Hl]] | [es [i [-> [Hlen [Hi [Hlt Hn]]]]]]]; simpl; auto.
  rewrite Hi. reflexivity.
Qed.

Lemma set_prop_ok (o o' : value) (k : string) (v : value) :
  set_prop o k v = Ok o' ->
  exists ps, o = VObj ps /\ o' = VObj (upsert k v ps).
Proof.
  destruct o; simpl; try discriminate. intros [= <-]. eauto.
Qed.

(** A successful assignment went into an object or array, and left one. *)
Lemma assign_in_container (path : list string) :
  forall (o o' : value) (k : string) (v : value),
    assign_in o path k v = Ok o' ->
    container o = true /\ container o' = true.
Proof.
  induction path as [|p rest IH]; simpl; intros o o' k v H.
  - apply set_prop_ok in H. destruct H as [ps [-> ->]]. auto.
  - bind_inv H. bind_inv H. injection H as <-.
    destruct (IH _ _ _ _ Hstep0) as [Hc Hc'].
    split.
    + destruct (get_prop_container _ _ _ Hstep Hc)
        as [[ps [-> _]] | [es [i [-> _]]]]; reflexivity.
    + eapply container_put; eauto.
Qed.

(** An assignment [o.path.k = v] changes nothing that is read along a
    path parting ways with [path ++ [k]], and creates or removes no
    property of [o] other than [k] itself. *)
Lemma assign_in_frame (path : list string) :
  forall (o o' : value) (k : string) (v : value) (q : list string),
    assign_in o path k v = Ok o' ->
    diverge (path ++ [k])%list q = true ->
    get_path o' q = get_path o q.
Proof.
  induction path as [|p rest IH]; simpl; intros o o' k v q H Hq.
  - apply set_prop_ok in H. destruct H as [ps [-> ->]].
    destruct q as [|b q']; [discriminate|]. simpl.
    rewrite lookup_upsert.
    destruct (String.eqb_spec k b) as [->|Hkb]; [discriminate|].
    destruct (String.eqb_spec b k); [congruence | reflexivity].
  - bind_inv H. bind_inv H. injection H as <-.
    destruct (assign_in_container _ _ _ _ _ Hstep0) as [Hc _].
    destruct q as [|b q']; [discriminate|]. simpl.
    destruct (String.eqb_spec p b) as [<-|Hpb].
    + rewrite (get_put_same _ _ _ _ Hstep Hc), Hstep. simpl.
      eapply IH; eauto.
    + rewrite get_put_other; [reflexivity|].
      apply String.eqb_neq; assumption.
Qed.

Lemma assign_in_has (path : list string) :
  forall (o o' : value) (k : string) (v : value) (b : string),
    assign_in o path k v = Ok o' ->
    key_untouched [(path ++ [k])%list] b = true ->
    has_property o' b = has_property o b.
Proof.
  destruct path as [|p rest]; simpl; intros o o' k v b H Hq.
  - apply set_prop_ok in H. destruct H as [ps [-> ->]]. simpl.
    rewrite lookup_upsert. rewrite andb_true_r in Hq.
    destruct (String.eqb_spec k b) as [->|Hkb]; [discriminate|].
    destruct (String.eqb_spec b k); [congruence | reflexivity].
  - bind_inv H. bind_inv H. injection H as <-.
    destruct (assign_in_container _ _ _ _ _ Hstep0) as [Hc _].
    eapply has_put; eauto.
Qed.

(** After [o.path.k = v], reading [o.path.k] gives [v]. *)
Lemma assign_in_get (path : list string) :
  forall (o o' : value) (k : string) (v : value),
    assign_in o path k v = Ok o' ->
    get_path o' (path ++ [k])%list = Ok v.
Proof.
  induction path as [|p rest IH]; simpl; intros o o' k v H.
  - apply set_prop_ok in H. destruct H as [ps [-> ->]]. simpl.
    rewrite lookup_upsert, String.eqb_refl. reflexivity.
  - bind_inv H. bind_inv H. injection H as <-.
    destruct (assign_in_container _ _ _ _ _ Hstep0) as [Hc _].
    rewrite (get_put_same _ _ _ _ Hstep Hc). simpl. eapply IH; eauto.
Qed.

Lemma delete_prop_frame (o o' : value) (k : string) (q : list string) :
  delete_prop o k = Ok o' ->
  diverge [k] q = true ->
  get_path o' q = get_path o q.
Proof.
  intros H Hq. destruct q as [|b q']; [discriminate|]. simpl in Hq.
  destruct (String.eqb_spec k b) as [->|Hkb]; [discriminate|].
  destruct o as [| |x|n|s|es|ps]; unfold delete_prop in H;
    try discriminate; try (injection H as <-; reflexivity).
  - destruct (has_property (VStr s) k); [discriminate|].
    injection H as <-; reflexivity.
  - destruct (String.eqb k "length"); [discriminate|].
    destruct (has_property (VArr es) k); [discriminate|].
    injection H as <-; reflexivity.
  - injection H as <-. simpl. rewrite lookup_remove.
    destruct (String.eqb_spec b k); [congruence | reflexivity].
Qed.

Lemma delete_prop_has (o o' : value) (k b : string) :
  delete_prop o k = Ok o' ->
  String.eqb k b = false ->
  has_property o' b = has_property o b.
Proof.
  intros H Hkb.
  destruct o as [| |x|n|s|es|ps]; unfold delete_prop in H;
    try discriminate; try (injection H as <-; reflexivity).
  - destruct (has_property (VStr s) k); [discriminate|].
    injection H as <-; reflexivity.
  - destruct (String.eqb k "length"); [discriminate|].
    destruct (has_property (VArr es) k); [discriminate|].
    injection H as <-; reflexivity.
  - injection H as <-. simpl. rewrite lookup_remove.
    rewrite String.eqb_sym, Hkb. reflexivity.
Qed.

(** After [delete o[k]] the key is gone. *)
Lemma delete_prop_gone (o o' : value) (k : string) :
  delete_prop o k = Ok o' -> has_property o' k = false.
Proof.
  intros H.
  destruct o as [| |x|n|s|es|ps]; unfold delete_prop in H;
    try discriminate; try (injection H as <-; reflexivity).
  - destruct (has_property (VStr s) k) eqn:E; [discriminate|].
    injection H as <-; assumption.
  - destruct (String.eqb k "length") eqn:E1; [discriminate|].
    destruct (has_property (VArr es) k) eqn:E; [discriminate|].
    injection H as <-; assumption.
  - injection H as <-. simpl. rewrite lookup_remove, String.eqb_refl.
    reflexivity.
Qed.

Lemma put_put (o a b : value) (p : string) :
  put_prop (put_prop o p a) p b = put_prop o p b.
Proof.
  destruct o as [| |x|n|s|es|ps]; simpl; try reflexivity.
  - destruct (index_of_key p) as [i|] eqn:Hi; simpl; rewrite Hi; [|reflexivity].
    f_equal. clear Hi. revert i.
    induction es as [|y rest IH]; intros [|i]; simpl; try reflexivity.
    rewrite IH. reflexivity.
  - f_equal. induction ps as [|[k' v'] rest IH]; simpl.
    + rewrite String.eqb_refl. reflexivity.
    + destruct (String.eqb p k') eqn:E; simpl; rewrite E; [reflexivity|].
      rewrite IH. reflexivity.
Qed.

(* ===================================================================== *)
(** ** What each rule writes                                              *)
(* ===================================================================== *)

Lemma diverge_of_prefix (a : list string) :
  forall b q, is_prefix a b = true -> diverge a q = true ->
              diverge b q = true.
Proof.
  induction a as [|x a' IH]; intros b q Hp Hd; [discriminate|].
  destruct b as [|y b']; [discriminate|]. simpl in Hp.
  apply andb_prop in Hp. destruct Hp as [Hxy Hp].
  apply String.eqb_eq in Hxy. subst y.
  destruct q as [|z q']; [discriminate|]. simpl in *.
  destruct (String.eqb x z); [eauto | reflexivity].
Qed.

Lemma untouched_covers (coarse fine : list (list string)) (q : list string) :
  covers coarse fine = true ->
  untouched coarse q = true -> untouched fine q = true.
Proof.
  unfold covers, untouched. rewrite !forallb_forall.
  intros Hc Hu p Hp. specialize (Hc p Hp).
  apply existsb_exists in Hc. destruct Hc as [c [Hin Hpre]].
  eapply diverge_of_prefix; eauto.
Qed.

Lemma key_untouched_covers (coarse fine : list (list string)) (b : string) :
  covers coarse fine = true ->
  key_untouched coarse b = true -> key_untouched fine b = true.
Proof.
  unfold covers, key_untouched. rewrite !forallb_forall.
  intros Hc Hu p Hp. specialize (Hc p Hp).
  apply existsb_exists in Hc. destruct Hc as [c [Hin Hpre]].
  specialize (Hu c Hin).
  destruct c as [|x [|y c']]; [discriminate| |].
  - destruct p as [|z [|w p']]; simpl in Hpre; try discriminate; auto.
    rewrite andb_true_r in Hpre. apply String.eqb_eq in Hpre. subst z.
    assumption.
  - destruct p as [|z [|w p']]; simpl in Hpre; try discriminate; auto.
    apply andb_prop in Hpre. destruct Hpre as [_ Hpre].
    simpl in Hpre. discriminate.
Qed.

Lemma delete_prop_container (o o' : value) (k : string) :
  delete_prop o k = Ok o' -> container o' = container o.
Proof.
  destruct o as [| |x|n|s|es|ps]; unfold delete_prop;
    try discriminate; try (intros [= <-]; reflexivity).
  - destruct (has_property (VStr s) k); [discriminate|].
    intros [= <-]; reflexivity.
  - destruct (String.eqb k "length"); [discriminate|].
    destruct (has_property (VArr es) k); [discriminate|].
    intros [= <-]; reflexivity.
Qed.

Lemma frames_assign (path : list string) (k : string) (v : value) :
  frames (fun dc => assign_in dc path k v) [(path ++ [k])%list].
Proof.
  intros dc dc' H. unfold untouched; simpl. repeat split.
  - intros q Hq. rewrite andb_true_r in Hq. eapply assign_in_frame; eauto.
  - intros q Hq. eapply assign_in_has; eauto.
  - destruct (assign_in_container _ _ _ _ _ H) as [-> ->]. reflexivity.
Qed.

Lemma frames_set (k : string) (v : value) :
  frames (fun dc => set_prop dc k v) [[k]].
Proof. exact (frames_assign [] k v). Qed.

Lemma frames_delete (k : string) :
  frames (fun dc => delete_prop dc k) [[k]].
Proof.
  intros dc dc' H. unfold untouched; simpl. repeat split.
  - intros q Hq. rewrite andb_true_r in Hq. eapply delete_prop_frame; eauto.
  - intros q Hq. rewrite andb_true_r in Hq. eapply delete_prop_has; eauto.
    destruct (String.eqb k q); [discriminate | reflexivity].
  - eapply delete_prop_container; eauto.
Qed.

Lemma frames_ok (fields : list (list string)) :
  frames (fun dc => Ok dc) fields.
Proof. intros dc dc' [= <-]. repeat split; reflexivity. Qed.

Lemma frames_bind (R1 R2 : value -> result value)
      (fields : list (list string)) :
  frames R1 fields -> frames R2 fields ->
  frames (fun dc => x <- R1 dc ;; R2 x) fields.
Proof.
  intros H1 H2 dc dc' H. bind_inv H.
  destruct (H1 _ _ Hstep) as [G1 [P1 C1]].
  destruct (H2 _ _ H) as [G2 [P2 C2]].
  repeat split.
  - intros q Hq. rewrite G2, G1; auto.
  - intros q Hq. rewrite P2, P1; auto.
  - congruence.
Qed.

Lemma frames_bind_const (m : result value)
      (R : value -> value -> result value) (fields : list (list string)) :
  (forall x, frames (R x) fields) ->
  frames (fun dc => x <- m ;; R x dc) fields.
Proof.
  intros HR dc dc' H. bind_inv H. exact (HR _ _ _ H).
Qed.

Lemma frames_covers (R : value -> result value)
      (coarse fine : list (list string)) :
  covers coarse fine = true -> frames R fine -> frames R coarse.
Proof.
  intros Hc HR dc dc' H. destruct (HR _ _ H) as [G [P C]].
  repeat split; auto; intros q Hq; [apply G | apply P];
    [eapply untouched_covers | eapply key_untouched_covers]; eauto.
Qed.

Lemma frames_if (c : bool) (R1 R2 : value -> result value)
      (fields : list (list string)) :
  frames R1 fields -> frames R2 fields ->
  frames (fun dc => if c then R1 dc else R2 dc) fields.
Proof. destruct c; auto. Qed.

(** Proves [frames R fields] for a rule made of assignments, deletions
    and tests of the configuration. *)
Ltac frames_tac :=
  lazymatch goal with
  | |- frames (fun dc => if _ then _ else _) _ =>
      apply frames_if; frames_tac
  | |- frames (fun dc => Ok dc) _ => apply frames_ok
  | |- frames Ok _ => apply frames_ok
  | |- frames (fun dc => bind _ _) _ =>
      first [ apply frames_bind_const; intro; frames_tac
            | apply frames_bind; frames_tac ]
  | |- frames (fun dc => assign_in dc ?p ?k ?v) ?f =>
      refine (frames_covers _ f _ _ (frames_assign p k v)); reflexivity
  | |- frames (fun dc => set_prop dc ?k ?v) ?f =>
      refine (frames_covers _ f _ _ (frames_set k v)); reflexivity
  | |- frames (fun dc => delete_prop dc ?k) ?f =>
      refine (frames_covers _ f _ _ (frames_delete k)); reflexivity
  end.

Section RuleFrames.

Variable this : plugin.

Lemma prepareLogging_frames : frames (prepareLogging this) fields_Logging.
Proof. unfold prepareLogging, fields_Logging; cbv zeta. frames_tac. Qed.

Lemma prepareDomain_frames : frames (prepareDomain this) fields_Domain.
Proof. unfold prepareDomain, fields_Domain; cbv zeta. frames_tac. Qed.

Lemma preparePriceClass_frames :
  frames (preparePriceClass this) fields_PriceClass.
Proof. unfold preparePriceClass, fields_PriceClass; cbv zeta. frames_tac. Qed.

Lemma prepareCookies_frames : frames (prepareCookies this) fields_Cookies.
Proof. unfold prepareCookies, fields_Cookies; cbv zeta. frames_tac. Qed.

Lemma prepareHeaders_frames : frames (prepareHeaders this) fields_Headers.
Proof. unfold prepareHeaders, fields_Headers; cbv zeta. frames_tac. Qed.

Lemma preparePolicies_frames :
  frames (preparePolicies this) fields_Policies.
Proof. unfold preparePolicies, fields_Policies; cbv zeta. frames_tac. Qed.

Lemma prepareTTL_frames : frames (prepareTTL this) fields_TTL.
Proof. unfold prepareTTL, fields_TTL; cbv zeta. frames_tac. Qed.

Lemma prepareQueryString_frames :
  frames (prepareQueryString this) fields_QueryString.
Proof.
  unfold prepareQueryString, fields_QueryString; cbv zeta. frames_tac.
Qed.

Lemma prepareComment_frames : frames (prepareComment this) fields_Comment.
Proof. unfold prepareComment, fields_Comment; cbv zeta. frames_tac. Qed.

Lemma prepareCertificate_frames :
  frames (prepareCertificate this) fields_Certificate.
Proof.
  unfold prepareCertificate, fields_Certificate; cbv zeta. frames_tac.
Qed.

Lemma prepareWaf_frames : frames (prepareWaf this) fields_Waf.
Proof. unfold prepareWaf, fields_Waf; cbv zeta. frames_tac. Qed.

Lemma prepareCompress_frames :
  frames (prepareCompress this) fields_Compress.
Proof. unfold prepareCompress, fields_Compress; cbv zeta. frames_tac. Qed.

Lemma prepareMinimumProtocolVersion_frames :
  frames (prepareMinimumProtocolVersion this)
         fields_MinimumProtocolVersion.
Proof.
  unfold prepareMinimumProtocolVersion, fields_MinimumProtocolVersion;
    cbv zeta. frames_tac.
Qed.

End RuleFrames.

(* ===================================================================== *)
(** ** The Origins rule                                                   *)
(* ===================================================================== *)

Lemma head_object (origins : value) (ops : list (string * value)) :
  Lodash.head origins = VObj ops -> get_prop origins "0" = Ok (VObj ops).
Proof.
  unfold Lodash.head. destruct (truthy origins); [|discriminate].
  destruct (get_prop origins "length") as [len|]; [|discriminate].
  destruct (truthy len); [|discriminate].
  destruct (get_prop origins "0"); [intros ->; reflexivity | discriminate].
Qed.

(** The writes of [prepareOrigins] through the alias [origin] are
    assignments to [distributionConfig.Origins[0]]. *)
Lemma prepareOrigins_assigns (this : plugin) (dc dc' : value) :
  prepareOrigins this dc = Ok dc' ->
  exists headers path path',
    customHeaders this = Ok headers /\
    stagePath this = Ok path /\
    originPath this = Ok path' /\
    (d1 <- assign_in dc ["Origins"; "0"] "OriginCustomHeaders" headers ;;
     d2 <- assign_in d1 ["Origins"; "0"] "OriginPath" path ;;
     assign_in d2 ["Origins"; "0"] "OriginPath" path') = Ok dc'.
Proof.
  unfold prepareOrigins. intros H.
  apply bind_ok in H. destruct H as [origins [Horigins H]]. cbv zeta in H.
  apply bind_ok in H. destruct H as [pairs [Hpairs H]].
  apply bind_ok in H. destruct H as [heads [Hheads H]].
  apply bind_ok in H. destruct H as [headers [Hheaders H]].
  apply bind_ok in H. destruct H as [origin1 [Horigin1 H]].
  apply bind_ok in H. destruct H as [path [Hpath H]].
  apply bind_ok in H. destruct H as [origin2 [Horigin2 H]].
  apply bind_ok in H. destruct H as [path' [Hpath' H]].
  exists headers, path, path'.
  assert (Hch : customHeaders this = Ok headers).
  { unfold customHeaders. rewrite Hpairs; simpl. rewrite Hheads; simpl.
    assumption. }
  repeat split; auto.
  destruct (set_prop_ok _ _ _ _ Horigin1) as [ops [Hhead ->]].
  apply head_object in Hhead.
  assert (Hco : container origins = true).
  { destruct (get_prop_container _ _ _ Hhead eq_refl)
      as [[ps [-> _]] | [es [i [-> _]]]]; reflexivity. }
  simpl assign_in at 1. rewrite Horigins; simpl. rewrite Hhead; simpl.
  rewrite (get_put_same _ _ _ _ Horigins Hco); simpl.
  rewrite (get_put_same _ _ _ _ Hhead eq_refl); simpl.
  rewrite !put_put. simpl in Horigin2. injection Horigin2 as <-.
  exact H.
Qed.

Lemma prepareOrigins_frames (this : plugin) :
  frames (prepareOrigins this) fields_Origins.
Proof.
  intros dc dc' H.
  destruct (prepareOrigins_assigns _ _ _ H)
    as [headers [path [path' [_ [_ [_ Hchain]]]]]].
  clear H. revert dc dc' Hchain.
  change (frames
            (fun dc =>
               d1 <- assign_in dc ["Origins"; "0"] "OriginCustomHeaders"
                               headers ;;
               d2 <- assign_in d1 ["Origins"; "0"] "OriginPath" path ;;
               assign_in d2 ["Origins"; "0"] "OriginPath" path')
            fields_Origins).
  unfold fields_Origins. frames_tac.
Qed.

Lemma prepareOrigins_path (this : plugin) (dc dc' : value) :
  prepareOrigins this dc = Ok dc' ->
  originPath this = get_path dc' ["Origins"; "0"; "OriginPath"].
Proof.
  intros H.
  destruct (prepareOrigins_assigns _ _ _ H)
    as [headers [path [path' [_ [_ [Hp Hchain]]]]]].
  bind_inv Hchain. bind_inv Hchain.
  rewrite Hp. symmetry.
  exact (assign_in_get ["Origins"; "0"] _ _ _ _ Hchain).
Qed.

Lemma prepareOrigins_headers (this : plugin) (dc dc' : value) :
  prepareOrigins this dc = Ok dc' ->
  customHeaders this = get_path dc' ["Origins"; "0"; "OriginCustomHeaders"].
Proof.
  intros H.
  destruct (prepareOrigins_assigns _ _ _ H)
    as [headers [path [path' [Hh [_ [_ Hchain]]]]]].
  bind_inv Hchain. bind_inv Hchain.
  rewrite Hh.
  rewrite (assign_in_frame ["Origins"; "0"] _ _ _ _
             ["Origins"; "0"; "OriginCustomHeaders"] Hchain eq_refl).
  rewrite (assign_in_frame ["Origins"; "0"] _ _ _ _
             ["Origins"; "0"; "OriginCustomHeaders"] Hstep0 eq_refl).
  symmetry. exact (assign_in_get ["Origins"; "0"] _ _ _ _ Hstep).
Qed.

(* ===================================================================== *)
(** ** The pipeline as a list of rules                                    *)
(* ===================================================================== *)

Lemma bind_ret {A : Type} (m : result A) : (x <- m ;; Ok x) = m.
Proof. destruct m; reflexivity. Qed.

Lemma bind_ext {A B : Type} (m : result A) (f g : A -> result B) :
  (forall x, f x = g x) -> bind m f = bind m g.
Proof. intros E. destruct m; simpl; auto. Qed.

Lemma applyRules_run (this : plugin) (dc : value) :
  applyRules this dc = run (map fst (rules this)) dc.
Proof.
  unfold applyRules, rules. simpl.
  repeat (apply bind_ext; intro).
  symmetry. apply bind_ret.
Qed.

Lemma run_app (l1 l2 : list (value -> result value)) (dc dc' : value) :
  run (l1 ++ l2)%list dc = Ok dc' ->
  exists mid, run l1 dc = Ok mid /\ run l2 mid = Ok dc'.
Proof.
  revert dc. induction l1 as [|R rest IH]; simpl; intros dc H.
  - eauto.
  - bind_inv H. destruct (IH _ H) as [mid [H1 H2]].
    exists mid. rewrite Hstep. simpl. auto.
Qed.

Lemma run_frames (l : list ((value -> result value) * list (list string))) :
  Forall (fun rf => frames (fst rf) (snd rf)) l ->
  frames (run (map fst l)) (fields_of l).
Proof.
  induction 1 as [|[R f] rest HR _ IH]; simpl.
  - apply frames_ok.
  - unfold fields_of; simpl. apply frames_bind.
    + intros dc dc' H. destruct (HR _ _ H) as [G [P C]].
      repeat split; auto; intros q Hq; [apply G | apply P];
        unfold untouched, key_untouched in *; rewrite forallb_app in Hq;
        apply andb_prop in Hq; tauto.
    + intros dc dc' H. destruct (IH _ _ H) as [G [P C]].
      repeat split; auto; intros q Hq; [apply G | apply P];
        unfold untouched, key_untouched in *; rewrite forallb_app in Hq;
        apply andb_prop in Hq; tauto.
Qed.

Lemma rules_frames (this : plugin) :
  Forall (fun rf => frames (fst rf) (snd rf)) (rules this).
Proof.
  unfold rules.
  repeat (apply Forall_cons;
          [ simpl;
            first [ apply prepareLogging_frames | apply prepareDomain_frames
                  | apply preparePriceClass_frames
                  | apply prepareOrigins_frames | apply prepareCookies_frames
                  | apply prepareHeaders_frames | apply prepareTTL_frames
                  | apply preparePolicies_frames
                  | apply prepareQueryString_frames
                  | apply prepareComment_frames
                  | apply prepareCertificate_frames | apply prepareWaf_frames
                  | apply prepareCompress_frames
                  | apply prepareMinimumProtocolVersion_frames ]
          | ]).
  apply Forall_nil.
Qed.

Lemma Forall_firstn {A : Type} (P : A -> Prop) (n : nat) (l : list A) :
  Forall P l -> Forall P (firstn n l).
Proof.
  intros H. revert n. induction H; intros [|n]; simpl; constructor; auto.
Qed.

Lemma Forall_skipn {A : Type} (P : A -> Prop) (n : nat) (l : list A) :
  Forall P l -> Forall P (skipn n l).
Proof.
  intros H. revert n. induction H; intros [|n]; simpl; auto.
Qed.

(** A run of the pipeline seen from rule number [i]: the rule [R] took
    some [a] to [b]; what parts ways with the fields of the earlier rules
    is in [a] as in the input, and what parts ways with the fields of the
    later rules is in the output as in [b]. *)
Lemma rule_at (this : plugin) (dc dc' : value) (i : nat)
      (R : value -> result value) (f : list (list string)) :
  applyRules this dc = Ok dc' ->
  nth_error (rules this) i = Some (R, f) ->
  exists a b,
    R a = Ok b /\
    (forall q, untouched (fields_before this i) q = true ->
               get_path a q = get_path dc q) /\
    (forall k, key_untouched (fields_before this i) k = true ->
               has_property a k = has_property dc k) /\
    container a = container dc /\
    (forall q, untouched (fields_after this i) q = true ->
               get_path dc' q = get_path b q) /\
    (forall k, key_untouched (fields_after this i) k = true ->
               has_property dc' k = has_property b k) /\
    container dc' = container b.
Proof.
  intros H Hnth. rewrite applyRules_run in H.
  rewrite <- (firstn_skipn i (rules this)) in H.
  rewrite map_app in H. apply run_app in H. destruct H as [a [Hpre Hsuf]].
  assert (Hsk : skipn i (rules this) = (R, f) :: skipn (S i) (rules this)).
  { clear - Hnth. revert i Hnth. generalize (rules this).
    induction l as [|x l IH]; intros [|i] Hn; simpl in *; try discriminate.
    - injection Hn as ->. reflexivity.
    - rewrite (IH _ Hn). destruct l; [destruct i; discriminate|].
      reflexivity. }
  rewrite Hsk in Hsuf. simpl in Hsuf. bind_inv Hsuf.
  exists a, r. split; [assumption|].
  destruct (run_frames _ (Forall_firstn _ i _ (rules_frames this)) _ _ Hpre)
    as [G1 [P1 C1]].
  destruct (run_frames _ (Forall_skipn _ (S i) _ (rules_frames this))
                       _ _ Hsuf) as [G2 [P2 C2]].
  repeat split; assumption.
Qed.

Lemma applyRules_frames (this : plugin) :
  frames (applyRules this) (fields_of (rules this)).
Proof.
  intros dc dc' H. rewrite applyRules_run in H.
  exact (run_frames _ (rules_frames this) _ _ H).
Qed.

(** A run of the rules starts from an object or array and ends in one. *)
Lemma applyRules_container (this : plugin) (dc dc' : value) :
  applyRules this dc = Ok dc' ->
  container dc = true /\ container dc' = true.
Proof.
  intros H.
  destruct (rule_at this dc dc' 2 _ _ H eq_refl)
    as [a [b [HR [_ [_ [Ca [_ [_ Cb]]]]]]]].
  unfold preparePriceClass in HR. apply set_prop_ok in HR.
  destruct HR as [ps [-> ->]]. simpl in *. auto.
Qed.

Lemma get_path_container (path : list string) :
  forall (o c : value),
    get_path o path = Ok c -> container c = true -> container o = true.
Proof.
  induction path as [|p rest IH]; simpl; intros o c H Hc.
  - injection H as ->. assumption.
  - bind_inv H. specialize (IH _ _ H Hc).
    destruct (get_prop_container _ _ _ Hstep IH)
      as [[ps [-> _]] | [es [i [-> _]]]]; reflexivity.
Qed.

(** Reading back where [put_path] stored. *)
Lemma get_put_path (path : list string) :
  forall (o c x : value),
    get_path o path = Ok c -> container c = true ->
    get_path (put_path o path x) path = Ok x.
Proof.
  induction path as [|p rest IH]; simpl; intros o c x H Hc.
  - reflexivity.
  - bind_inv H. rewrite Hstep.
    rewrite (get_put_same _ _ _ _ Hstep (get_path_container _ _ _ H Hc)).
    simpl. eauto.
Qed.

(** [prepareResources] seen from the distribution config. *)
Lemma prepareResources_inv (this : plugin) (resources resources' : value) :
  prepareResources this resources = Ok resources' ->
  exists dc dc',
    get_path resources distributionConfigPath = Ok dc /\
    applyRules this dc = Ok dc' /\
    get_path resources' distributionConfigPath = Ok dc'.
Proof.
  unfold prepareResources. intros H.
  apply bind_ok in H. destruct H as [dc [Hdc H]].
  apply bind_ok in H. destruct H as [dc' [Hrules H]].
  assert (E : resources' = put_path resources distributionConfigPath dc')
    by congruence.
  exists dc, dc'. repeat split; auto.
  destruct (applyRules_container _ _ _ Hrules) as [Hc _].
  rewrite E. eapply get_put_path; eauto.
Qed.

(* ===================================================================== *)
(** ** The configuration accessor                                         *)
(* ===================================================================== *)

(** [getConfig] substitutes the default exactly when the lookup result is
    [undefined]. *)
Lemma getConfig_default (this : plugin) (field : string) (d : value) :
  getConfig this field d =
  if is_undefined (getConfig this field VUndef) then d
  else getConfig this field VUndef.
Proof.
  unfold getConfig, Lodash.get; cbv zeta.
  match goal with
  | |- (if is_undefined ?r then _ else _) = _ => destruct r; reflexivity
  end.
Qed.

Lemma getConfig_absent (this : plugin) (field : string) (d : value) :
  getConfig this field VUndef = VUndef -> getConfig this field d = d.
Proof. intros H. rewrite getConfig_default, H. reflexivity. Qed.

Lemma getConfig_present (this : plugin) (field : string) (d v : value) :
  getConfig this field VUndef = v -> is_undefined v = false ->
  getConfig this field d = v.
Proof. intros H Hv. rewrite getConfig_default, H, Hv. reflexivity. Qed.

Lemma getConfig_defined (this : plugin) (field : string) (d : value) :
  is_undefined d = false -> is_undefined (getConfig this field d) = false.
Proof.
  intros Hd. rewrite getConfig_default.
  destruct (is_undefined (getConfig this field VUndef)) eqn:E; assumption.
Qed.

Lemma get_path_app (p q : list string) :
  forall o, get_path o (p ++ q)%list = (x <- get_path o p ;; get_path x q).
Proof.
  induction p as [|k p IH]; intros o; simpl; [reflexivity|].
  destruct (get_prop o k); simpl; [apply IH | reflexivity].
Qed.

(* ===================================================================== *)
(** ** [getConfig] and the configuration map                              *)
(* ===================================================================== *)

Lemma lookup_dotted (k : string) (ps : list (string * value)) :
  Lodash.has_dot k = true ->
  forallb (fun kv => negb (Lodash.has_dot (fst kv))) ps = true ->
  lookup k ps = None.
Proof.
  intros Hk. induction ps as [|[k' v] rest IH]; simpl; [reflexivity|].
  intros H. apply andb_prop in H. destruct H as [Hk' Hrest].
  destruct (String.eqb_spec k k') as [->|Hne]; [|auto].
  rewrite Hk in Hk'. discriminate.
Qed.

Lemma index_of_dotted (field : string) :
  index_of_key ("service.custom.apiCloudFront." ++ field) = None.
Proof.
  unfold index_of_key, NilZero.uint_of_string.
  cbn [append NilEmpty.uint_of_string].
  destruct (NilEmpty.uint_of_string field); reflexivity.
Qed.

Lemma has_property_dotted (o : value) (field : string) :
  no_dotted_key o = true ->
  has_property o ("service.custom.apiCloudFront." ++ field) = false.
Proof.
  intros H. destruct o as [| |b|n|s|es|ps]; try reflexivity;
    unfold has_property.
  - rewrite index_of_dotted. reflexivity.
  - rewrite index_of_dotted. reflexivity.
  - rewrite (lookup_dotted _ ps); [reflexivity| |exact H]. reflexivity.
Qed.

Lemma walk_get_path (p rest : list string) :
  forall o c, get_path o p = Ok c ->
              Lodash.walk o (p ++ rest)%list = Lodash.walk c rest.
Proof.
  induction p as [|k p IH]; intros o c H.
  - injection H as <-. reflexivity.
  - cbn [get_path] in H. bind_inv H. cbn [List.app Lodash.walk].
    rewrite Hstep. destruct o; try discriminate; apply IH; assumption.
Qed.

(** [getConfig] reads the configuration map: it walks the segments of
    the field from the map, and substitutes the default for
    [undefined]. *)
Lemma getConfig_walk (this : plugin) (configMap : value)
      (field : string) (d : value) :
  configured this configMap ->
  getConfig this field d =
  (if is_undefined (Lodash.walk configMap (Lodash.split_dots field)) then d
   else Lodash.walk configMap (Lodash.split_dots field)).
Proof.
  intros [Hkeys Hcfg]. unfold getConfig, Lodash.get, Lodash.baseGet.
  unfold Lodash.castPath, Lodash.isKey.
  rewrite (has_property_dotted _ field Hkeys).
  change (Lodash.has_dot ("service.custom.apiCloudFront." ++ field))
    with true.
  cbn [negb orb].
  change (Lodash.stringToPath ("service.custom.apiCloudFront." ++ field))
    with (configurationPath ++ Lodash.split_dots field)%list.
  change (match (configurationPath ++ Lodash.split_dots field)%list with
          | [] => VUndef
          | s :: l => Lodash.walk (serverless this) (s :: l)
          end)
    with (Lodash.walk (serverless this)
                      (configurationPath ++ Lodash.split_dots field)%list).
  rewrite (walk_get_path _ _ _ _ Hcfg).
  assert (Hs : exists svc, get_prop (serverless this) "service" = Ok svc).
  { unfold configurationPath in Hcfg. cbn [get_path] in Hcfg.
    destruct (get_prop (serverless this) "service") as [svc|];
      [eauto | discriminate]. }
  destruct Hs as [svc Hs].
  destruct (serverless this); try discriminate; reflexivity.
Qed.

Lemma split_dots_simple (field : string) :
  Lodash.has_dot field = false -> Lodash.split_dots field = [field].
Proof.
  induction field as [|c rest IH]; [reflexivity|].
  cbn [Lodash.has_dot Lodash.split_dots]. intros H.
  apply orb_false_elim in H. destruct H as [Hc Hrest].
  rewrite Hc, (IH Hrest). reflexivity.
Qed.

(** A setting named by one key, in a configuration that is a map. *)
Lemma getConfig_lookup (this : plugin) (settings : list (string * value))
      (field : string) (d : value) :
  configured this (VObj settings) ->
  Lodash.has_dot field = false ->
  getConfig this field d =
  match lookup field settings with
  | Some v => if is_undefined v then d else v
  | None => d
  end.
Proof.
  intros Hc Hf. rewrite (getConfig_walk _ _ _ _ Hc), (split_dots_simple _ Hf).
  cbn [Lodash.walk get_prop]. destruct (lookup field settings); reflexivity.
Qed.

(* ===================================================================== *)
(** ** The origin path (rule Origins)                                     *)
(* ===================================================================== *)

(** The origin path in terms of what [getConfig] returns: when
    [httpApi] is [true] the output's [Origins[0].OriginPath] is the empty
    string; when [httpApi] is absent or [false] it is "/" followed by the
    stage name. *)
Lemma origin_path_by_accessor
        (this : plugin) (resources resources' : value) (stage : string) :
  prepareResources this resources = Ok resources' ->
  get_prop (options this) "stage" = Ok (VStr stage) ->
  exists dc',
    get_path resources' distributionConfigPath = Ok dc' /\
    (getConfig this "httpApi" VUndef = VBool true ->
     get_path dc' ["Origins"; "0"; "OriginPath"] = Ok (VStr "")) /\
    (getConfig this "httpApi" VUndef = VUndef \/
     getConfig this "httpApi" VUndef = VBool false ->
     get_path dc' ["Origins"; "0"; "OriginPath"] = Ok (VStr ("/" ++ stage))).
Proof.
  intros H Hstage.
  destruct (prepareResources_inv _ _ _ H) as [dc [dc' [Hdc [Hrules Hdc']]]].
  exists dc'. split; [assumption|].
  destruct (rule_at this dc dc' 3 _ _ Hrules eq_refl)
    as [a [b [HR [_ [_ [_ [Hafter _]]]]]]].
  rewrite (Hafter ["Origins"; "0"; "OriginPath"] eq_refl).
  rewrite <- (prepareOrigins_path _ _ _ HR).
  unfold originPath, stagePath. rewrite Hstage. simpl.
  split.
  - intros Hh. rewrite (getConfig_present _ _ _ _ Hh eq_refl). reflexivity.
  - intros [Hh | Hh].
    + rewrite (getConfig_absent _ _ _ Hh). reflexivity.
    + rewrite (getConfig_present _ _ _ _ Hh eq_refl). reflexivity.
Qed.

(** C7.  For every configuration map and stage: when the map holds
    [httpApi: true] the output's [Origins[0].OriginPath] is the empty
    string; when [httpApi] is absent from the map or [false] it is "/"
    followed by the stage name. *)
Theorem origin_path_follows_httpApi
        (this : plugin) (settings : list (string * value))
        (resources resources' : value) (stage : string) :
  configured this (VObj settings) ->
  prepareResources this resources = Ok resources' ->
  get_prop (options this) "stage" = Ok (VStr stage) ->
  exists dc',
    get_path resources' distributionConfigPath = Ok dc' /\
    (lookup "httpApi" settings = Some (VBool true) ->
     get_path dc' ["Origins"; "0"; "OriginPath"] = Ok (VStr "")) /\
    (lookup "httpApi" settings = None \/
     lookup "httpApi" settings = Some (VBool false) ->
     get_path dc' ["Origins"; "0"; "OriginPath"] = Ok (VStr ("/" ++ stage))).
Proof.
  intros Hc H Hstage.
  destruct (origin_path_by_accessor this resources resources' stage H Hstage)
    as [dc' [Hdc' [Htrue Hfalse]]].
  exists dc'. split; [assumption|].
  pose proof (getConfig_lookup this settings "httpApi" VUndef Hc eq_refl) as E.
  split.
  - intros Hl. apply Htrue. rewrite E, Hl. reflexivity.
  - intros [Hl|Hl]; apply Hfalse; rewrite E, Hl; [left|right]; reflexivity.
Qed.

Lemma origin_path_follows_httpApi_witness :
  let settings := [("httpApi", VBool true)] in
  let this := sample_plugin (VObj settings) "dev-api" "prod" in
  let this0 := sample_plugin (VObj []) "dev-api" "prod" in
  let out := returned (prepareResources this sample_resources) in
  let out0 := returned (prepareResources this0 sample_resources) in
  let field := (distributionConfigPath
                  ++ ["Origins"; "0"; "OriginPath"])%list in
  configured this (VObj settings) /\
  getConfig this "httpApi" (VBool false) = VBool true /\
  prepareResources this sample_resources = Ok out /\
  get_prop (options this) "stage" = Ok (VStr "prod") /\
  get_path out field = Ok (VStr "") /\
  configured this0 (VObj []) /\
  prepareResources this0 sample_resources = Ok out0 /\
  get_path out0 field = Ok (VStr "/prod").
Proof.
  intros settings this this0 out out0 field.
  assert (Hc : configured this (VObj settings)) by (split; reflexivity).
  assert (Hc0 : configured this0 (VObj [])) by (split; reflexivity).
  destruct (origin_path_follows_httpApi
              this settings sample_resources out "prod" Hc eq_refl eq_refl)
    as [dc' [Hdc' [Htrue _]]].
  destruct (origin_path_follows_httpApi
              this0 [] sample_resources out0 "prod" Hc0 eq_refl eq_refl)
    as [dc0 [Hdc0 [_ Habsent]]].
  split; [exact Hc|]. split; [reflexivity|].
  split; [reflexivity|]. split; [reflexivity|].
  split; [unfold field; rewrite get_path_app, Hdc'; exact (Htrue eq_refl)|].
  split; [exact Hc0|]. split; [reflexivity|].
  unfold field. rewrite get_path_app, Hdc0.
  exact (Habsent (or_introl eq_refl)).
Defined.

(* ===================================================================== *)
(** ** What each rule leaves in the fields it names                       *)
(* ===================================================================== *)

Lemma get_path_single (o : value) (k : string) :
  get_path o [k] = get_prop o k.
Proof. simpl. apply bind_ret. Qed.

Lemma assign_in_reads (path full : list string) (o o' : value)
      (k : string) (v : value) :
  assign_in o path k v = Ok o' -> full = (path ++ [k])%list ->
  get_path o' full = Ok v.
Proof. intros H ->. eapply assign_in_get; eauto. Qed.

(** Rewrites the read of a field with the value that the assignment [H]
    stored there. *)
Ltac reads H :=
  match goal with
  | |- get_path _ ?full = _ =>
      rewrite (assign_in_reads _ full _ _ _ _ H eq_refl)
  end.

Lemma set_prop_get (o o' : value) (k : string) (v : value) :
  set_prop o k v = Ok o' -> get_path o' [k] = Ok v.
Proof. exact (assign_in_get [] o o' k v). Qed.

Section RuleValues.

Variable this : plugin.

Lemma prepareLogging_block (a b : value) :
  prepareLogging this a = Ok b ->
  let bucket := getConfig this "logging.bucket" VNull in
  (is_null bucket = true -> has_property b "Logging" = false) /\
  (is_null bucket = false ->
   get_path b ["Logging"; "Bucket"] = Ok bucket /\
   get_path b ["Logging"; "Prefix"] =
     Ok (getConfig this "logging.prefix" (VStr ""))).
Proof.
  unfold prepareLogging; cbv zeta. intros H. split; intros E;
    rewrite E in H; cbn [negb] in H.
  - eapply delete_prop_gone; eauto.
  - bind_inv H. split.
    + rewrite (assign_in_frame ["Logging"] _ _ _ _
                 ["Logging"; "Bucket"] H eq_refl).
      exact (assign_in_get ["Logging"] _ _ _ _ Hstep).
    + exact (assign_in_get ["Logging"] _ _ _ _ H).
Qed.

Lemma prepareDomain_aliases (a b : value) :
  prepareDomain this a = Ok b ->
  let domain := getConfig this "domain" VNull in
  (is_null domain = true -> has_property b "Aliases" = false) /\
  (is_null domain = false ->
   get_path b ["Aliases"] =
     Ok (if isArray domain then domain else VArr [domain])).
Proof.
  unfold prepareDomain; cbv zeta. intros H. bind_inv H.
  split; intros E; rewrite E in Hstep; cbn [negb] in Hstep.
  - rewrite (assign_in_has ["Origins"; "0"] _ _ _ _ "Aliases" H eq_refl).
    eapply delete_prop_gone; eauto.
  - rewrite (assign_in_frame ["Origins"; "0"] _ _ _ _ ["Aliases"] H eq_refl).
    eapply set_prop_get; eauto.
Qed.

Lemma prepareDomain_domainName (a b : value) :
  prepareDomain this a = Ok b ->
  get_path b ["Origins"; "0"; "DomainName"] =
    Ok (originDomainName (getConfig this "httpApi" (VBool false))).
Proof.
  unfold prepareDomain; cbv zeta. intros H. bind_inv H.
  exact (assign_in_get ["Origins"; "0"] _ _ _ _ H).
Qed.

Lemma preparePriceClass_value (a b : value) :
  preparePriceClass this a = Ok b ->
  get_path b ["PriceClass"] =
    Ok (getConfig this "priceClass" (VStr "PriceClass_All")).
Proof. unfold preparePriceClass; cbv zeta. apply set_prop_get. Qed.

Lemma prepareCookies_forward (a b : value) :
  prepareCookies this a = Ok b ->
  let cookies := getConfig this "cookies" (VStr "all") in
  get_path b ["DefaultCacheBehavior"; "ForwardedValues"; "Cookies"; "Forward"]
  = Ok (if isArray cookies then VStr "whitelist" else cookies).
Proof.
  unfold prepareCookies; cbv zeta. intros H. bind_inv H.
  pose proof (assign_in_get
                ["DefaultCacheBehavior"; "ForwardedValues"; "Cookies"]
                _ _ _ _ Hstep) as Hget.
  destruct (isArray (getConfig this "cookies" (VStr "all"))).
  - rewrite (assign_in_frame
               ["DefaultCacheBehavior"; "ForwardedValues"; "Cookies"] _ _ _ _
               ["DefaultCacheBehavior"; "ForwardedValues"; "Cookies";
                "Forward"] H eq_refl).
    exact Hget.
  - injection H as <-. exact Hget.
Qed.

Lemma prepareHeaders_value (a b : value) :
  prepareHeaders this a = Ok b ->
  let headers := getConfig this "headers" (VStr "none") in
  get_path b ["DefaultCacheBehavior"; "ForwardedValues"; "Headers"]
  = Ok (if isArray headers then headers
        else if is_string "none" headers then VArr [] else VArr [VStr "*"]).
Proof.
  unfold prepareHeaders; cbv zeta. intros H.
  destruct (isArray (getConfig this "headers" (VStr "none")));
    exact (assign_in_get ["DefaultCacheBehavior"; "ForwardedValues"]
                         _ _ _ _ H).
Qed.

Lemma preparePolicies_ids (a b : value) :
  preparePolicies this a = Ok b ->
  let cachePolicyId := getConfig this "cachePolicyId" VNull in
  let originRequestPolicyId := getConfig this "originRequestPolicyId" VNull in
  get_path b ["DefaultCacheBehavior"; "CachePolicyId"] =
    (if truthy cachePolicyId then Ok cachePolicyId
     else get_path a ["DefaultCacheBehavior"; "CachePolicyId"]) /\
  get_path b ["DefaultCacheBehavior"; "OriginRequestPolicyId"] =
    (if truthy originRequestPolicyId then Ok originRequestPolicyId
     else get_path a ["DefaultCacheBehavior"; "OriginRequestPolicyId"]).
Proof.
  unfold preparePolicies; cbv zeta. intros H. bind_inv H.
  assert (H1 : get_path r ["DefaultCacheBehavior"; "CachePolicyId"] =
               if truthy (getConfig this "cachePolicyId" VNull)
               then Ok (getConfig this "cachePolicyId" VNull)
               else get_path a ["DefaultCacheBehavior"; "CachePolicyId"]).
  { destruct (truthy (getConfig this "cachePolicyId" VNull)).
    - exact (assign_in_get ["DefaultCacheBehavior"] _ _ _ _ Hstep).
    - injection Hstep as <-. reflexivity. }
  assert (H2 : get_path r ["DefaultCacheBehavior"; "OriginRequestPolicyId"] =
               get_path a ["DefaultCacheBehavior"; "OriginRequestPolicyId"]).
  { destruct (truthy (getConfig this "cachePolicyId" VNull)).
    - exact (assign_in_frame ["DefaultCacheBehavior"] _ _ _ _
               ["DefaultCacheBehavior"; "OriginRequestPolicyId"]
               Hstep eq_refl).
    - injection Hstep as <-. reflexivity. }
  destruct (truthy (getConfig this "originRequestPolicyId" VNull)).
  - split.
    + rewrite (assign_in_frame ["DefaultCacheBehavior"] _ _ _ _
                 ["DefaultCacheBehavior"; "CachePolicyId"] H eq_refl).
      exact H1.
    + exact (assign_in_get ["DefaultCacheBehavior"] _ _ _ _ H).
  - injection H as <-. split; assumption.
Qed.

Lemma prepareQueryString_value (a b : value) :
  prepareQueryString this a = Ok b ->
  let querystring := getConfig this "querystring" (VStr "all") in
  get_path b ["DefaultCacheBehavior"; "ForwardedValues"; "QueryString"]
  = Ok (VBool (isArray querystring || is_string "all" querystring)).
Proof.
  unfold prepareQueryString; cbv zeta. intros H.
  destruct (isArray (getConfig this "querystring" (VStr "all"))).
  - bind_inv H.
    rewrite (assign_in_frame ["DefaultCacheBehavior"; "ForwardedValues"]
               _ _ _ _
               ["DefaultCacheBehavior"; "ForwardedValues"; "QueryString"]
               H eq_refl).
    exact (assign_in_get ["DefaultCacheBehavior"; "ForwardedValues"]
                         _ _ _ _ Hstep).
  - reads H.
    destruct (is_string "all" (getConfig this "querystring" (VStr "all")));
      reflexivity.
Qed.

Lemma prepareComment_value (a b : value) :
  prepareComment this a = Ok b ->
  get_path b ["Comment"] =
    Ok (VStr ("Serverless Managed " ++ toString (apiGatewayName this))).
Proof. unfold prepareComment; cbv zeta. apply set_prop_get. Qed.

Lemma prepareCertificate_block (a b : value) :
  prepareCertificate this a = Ok b ->
  let certificate := getConfig this "certificate" VNull in
  (is_null certificate = true -> has_property b "ViewerCertificate" = false) /\
  (is_null certificate = false ->
   get_path b ["ViewerCertificate"; "AcmCertificateArn"] = Ok certificate).
Proof.
  unfold prepareCertificate; cbv zeta. intros H. split; intros E;
    rewrite E in H; cbn [negb] in H.
  - eapply delete_prop_gone; eauto.
  - exact (assign_in_get ["ViewerCertificate"] _ _ _ _ H).
Qed.

Lemma prepareWaf_block (a b : value) :
  prepareWaf this a = Ok b ->
  let waf := getConfig this "waf" VNull in
  (is_null waf = true -> has_property b "WebACLId" = false) /\
  (is_null waf = false -> get_path b ["WebACLId"] = Ok waf).
Proof.
  unfold prepareWaf; cbv zeta. intros H. split; intros E;
    rewrite E in H; cbn [negb] in H.
  - eapply delete_prop_gone; eauto.
  - eapply set_prop_get; eauto.
Qed.

Lemma prepareCompress_value (a b : value) :
  prepareCompress this a = Ok b ->
  get_path b ["DefaultCacheBehavior"; "Compress"] =
    Ok (VBool (is_true (getConfig this "compress" (VBool false)))).
Proof.
  unfold prepareCompress. intros H.
  reads H.
  destruct (is_true (getConfig this "compress" (VBool false))); reflexivity.
Qed.

End RuleValues.

(* ===================================================================== *)
(** ** Aliases (rule Domain)                                              *)
(* ===================================================================== *)

(** The aliases in terms of what [getConfig] returns: when [domain] is
    absent the output has no [Aliases] property; when [domain] is a
    string [s], [Aliases] is the one-element list [[s]]; when [domain] is
    a list, [Aliases] is that list unchanged. *)
Lemma aliases_by_accessor (this : plugin) (resources resources' : value) :
  prepareResources this resources = Ok resources' ->
  exists dc',
    get_path resources' distributionConfigPath = Ok dc' /\
    (getConfig this "domain" VUndef = VUndef ->
     has_property dc' "Aliases" = false) /\
    (forall s, getConfig this "domain" VUndef = VStr s ->
               get_path dc' ["Aliases"] = Ok (VArr [VStr s])) /\
    (forall names, getConfig this "domain" VUndef = VArr names ->
                   get_path dc' ["Aliases"] = Ok (VArr names)).
Proof.
  intros H.
  destruct (prepareResources_inv _ _ _ H) as [dc [dc' [Hdc [Hrules Hdc']]]].
  exists dc'. split; [assumption|].
  destruct (rule_at this dc dc' 1 _ _ Hrules eq_refl)
    as [a [b [HR [_ [_ [_ [Hafter [Hkeys _]]]]]]]].
  destruct (prepareDomain_aliases _ _ _ HR) as [Hnull Hset].
  rewrite (Hafter ["Aliases"] eq_refl), (Hkeys "Aliases" eq_refl).
  repeat split.
  - intros Habs. apply Hnull. rewrite (getConfig_absent _ _ _ Habs).
    reflexivity.
  - intros s Hs. rewrite Hset;
      rewrite (getConfig_present _ _ _ _ Hs eq_refl); reflexivity.
  - intros names Hl. rewrite Hset;
      rewrite (getConfig_present _ _ _ _ Hl eq_refl); reflexivity.
Qed.

(** C6.  For every configuration map: when [domain] is absent from the
    map the output has no [Aliases] property; when [domain] is a string
    [s], [Aliases] is the one-element list [[s]]; when [domain] is a
    list, [Aliases] is that list unchanged. *)
Theorem aliases_follow_domain
        (this : plugin) (settings : list (string * value))
        (resources resources' : value) :
  configured this (VObj settings) ->
  prepareResources this resources = Ok resources' ->
  exists dc',
    get_path resources' distributionConfigPath = Ok dc' /\
    (lookup "domain" settings = None ->
     has_property dc' "Aliases" = false) /\
    (forall s, lookup "domain" settings = Some (VStr s) ->
               get_path dc' ["Aliases"] = Ok (VArr [VStr s])) /\
    (forall names, lookup "domain" settings = Some (VArr names) ->
                   get_path dc' ["Aliases"] = Ok (VArr names)).
Proof.
  intros Hc H.
  destruct (aliases_by_accessor this resources resources' H)
    as [dc' [Hdc' [Habsent [Hstr Hlist]]]].
  exists dc'. split; [assumption|].
  pose proof (getConfig_lookup this settings "domain" VUndef Hc eq_refl) as E.
  repeat split.
  - intros Hl. apply Habsent. rewrite E, Hl. reflexivity.
  - intros s Hl. apply Hstr. rewrite E, Hl. reflexivity.
  - intros names Hl. apply Hlist. rewrite E, Hl. reflexivity.
Qed.

Lemma aliases_follow_domain_witness :
  let settings := [("domain", VStr "example.com")] in
  let settings2 := [("domain", VArr [VStr "a.com"; VStr "b.com"])] in
  let this := sample_plugin (VObj settings) "dev-api" "prod" in
  let this2 := sample_plugin (VObj settings2) "dev-api" "prod" in
  let this0 := sample_plugin (VObj []) "dev-api" "prod" in
  let out := returned (prepareResources this sample_resources) in
  let out2 := returned (prepareResources this2 sample_resources) in
  let out0 := returned (prepareResources this0 sample_resources) in
  let field := (distributionConfigPath ++ ["Aliases"])%list in
  configured this (VObj settings) /\
  getConfig this "domain" VNull = VStr "example.com" /\
  prepareResources this sample_resources = Ok out /\
  get_path out field = Ok (VArr [VStr "example.com"]) /\
  configured this2 (VObj settings2) /\
  getConfig this2 "domain" VNull = VArr [VStr "a.com"; VStr "b.com"] /\
  prepareResources this2 sample_resources = Ok out2 /\
  get_path out2 field = Ok (VArr [VStr "a.com"; VStr "b.com"]) /\
  configured this0 (VObj []) /\
  prepareResources this0 sample_resources = Ok out0 /\
  exists dc0, get_path out0 distributionConfigPath = Ok dc0 /\
              has_property dc0 "Aliases" = false.
Proof.
  intros settings settings2 this this2 this0 out out2 out0 field.
  assert (Hc : configured this (VObj settings)) by (split; reflexivity).
  assert (Hc2 : configured this2 (VObj settings2)) by (split; reflexivity).
  assert (Hc0 : configured this0 (VObj [])) by (split; reflexivity).
  destruct (aliases_follow_domain this settings sample_resources out
                                  Hc eq_refl)
    as [dc' [Hdc' [_ [Hstr _]]]].
  destruct (aliases_follow_domain this2 settings2 sample_resources out2
                                  Hc2 eq_refl)
    as [dc2 [Hdc2 [_ [_ Hlist]]]].
  destruct (aliases_follow_domain this0 [] sample_resources out0
                                  Hc0 eq_refl)
    as [dc0 [Hdc0 [Habsent _]]].
  split; [exact Hc|]. split; [reflexivity|]. split; [reflexivity|].
  split; [unfold field; rewrite get_path_app, Hdc'; exact (Hstr _ eq_refl)|].
  split; [exact Hc2|]. split; [reflexivity|]. split; [reflexivity|].
  split; [unfold field; rewrite get_path_app, Hdc2;
          exact (Hlist _ eq_refl)|].
  split; [exact Hc0|]. split; [reflexivity|].
  exists dc0. split; [exact Hdc0 | exact (Habsent eq_refl)].
Defined.

(* ===================================================================== *)
(** ** The optional blocks                                                *)
(* ===================================================================== *)

(** C8.  After every run of the pipeline each optional block of the
    distribution config ([Logging], [Aliases], [ViewerCertificate],
    [WebACLId]) is either absent or carries what its rule puts there; in
    particular a [Logging] block, when present, has a [Bucket] and a
    [Prefix], and when [logging.bucket] is absent the [Logging] property
    is removed. *)
Theorem optional_blocks_whole_or_absent
        (this : plugin) (resources resources' : value) :
  prepareResources this resources = Ok resources' ->
  exists dc',
    get_path resources' distributionConfigPath = Ok dc' /\
    optional_blocks_ok dc' /\
    (getConfig this "logging.bucket" VUndef = VUndef ->
     has_property dc' "Logging" = false).
Proof.
  intros H.
  destruct (prepareResources_inv _ _ _ H) as [dc [dc' [Hdc [Hrules Hdc']]]].
  exists dc'. split; [assumption|].
  destruct (rule_at this dc dc' 0 _ _ Hrules eq_refl)
    as [a0 [b0 [HR0 [_ [_ [_ [Hafter0 [Hkeys0 _]]]]]]]].
  destruct (prepareLogging_block _ _ _ HR0) as [Hnull0 Hset0].
  destruct (rule_at this dc dc' 1 _ _ Hrules eq_refl)
    as [a1 [b1 [HR1 [_ [_ [_ [Hafter1 [Hkeys1 _]]]]]]]].
  destruct (prepareDomain_aliases _ _ _ HR1) as [Hnull1 Hset1].
  destruct (rule_at this dc dc' 10 _ _ Hrules eq_refl)
    as [a10 [b10 [HR10 [_ [_ [_ [Hafter10 [Hkeys10 _]]]]]]]].
  destruct (prepareCertificate_block _ _ _ HR10) as [Hnull10 Hset10].
  destruct (rule_at this dc dc' 11 _ _ Hrules eq_refl)
    as [a11 [b11 [HR11 [_ [_ [_ [Hafter11 [Hkeys11 _]]]]]]]].
  destruct (prepareWaf_block _ _ _ HR11) as [Hnull11 Hset11].
  split; [repeat split|].
  - destruct (is_null (getConfig this "logging.bucket" VNull)) eqn:E.
    + left. rewrite (Hkeys0 "Logging" eq_refl). auto.
    + right. destruct (Hset0 eq_refl) as [Hb Hp].
      exists (getConfig this "logging.bucket" VNull),
             (getConfig this "logging.prefix" (VStr "")).
      rewrite (Hafter0 ["Logging"; "Bucket"] eq_refl),
              (Hafter0 ["Logging"; "Prefix"] eq_refl).
      repeat split; auto.
      * unfold set_value. rewrite E, getConfig_defined; reflexivity.
      * apply getConfig_defined; reflexivity.
  - destruct (is_null (getConfig this "domain" VNull)) eqn:E.
    + left. rewrite (Hkeys1 "Aliases" eq_refl). auto.
    + right. rewrite (Hafter1 ["Aliases"] eq_refl), (Hset1 eq_refl).
      destruct (getConfig this "domain" VNull); simpl; eauto.
  - destruct (is_null (getConfig this "certificate" VNull)) eqn:E.
    + left. rewrite (Hkeys10 "ViewerCertificate" eq_refl). auto.
    + right. exists (getConfig this "certificate" VNull).
      rewrite (Hafter10 ["ViewerCertificate"; "AcmCertificateArn"] eq_refl).
      split; auto.
      unfold set_value. rewrite E, getConfig_defined; reflexivity.
  - destruct (is_null (getConfig this "waf" VNull)) eqn:E.
    + left. rewrite (Hkeys11 "WebACLId" eq_refl). auto.
    + right. exists (getConfig this "waf" VNull).
      rewrite (Hafter11 ["WebACLId"] eq_refl).
      split; auto.
      unfold set_value. rewrite E, getConfig_defined; reflexivity.
  - intros Habs. rewrite (Hkeys0 "Logging" eq_refl). apply Hnull0.
    rewrite (getConfig_absent _ _ _ Habs). reflexivity.
Qed.

Lemma optional_blocks_whole_or_absent_witness :
  let this :=
    sample_plugin (VObj [("logging", VObj [("bucket", VStr "logs.s3")]);
                         ("certificate", VStr "arn:x")]) "dev-api" "prod" in
  let out := returned (prepareResources this sample_resources) in
  prepareResources this sample_resources = Ok out /\
  exists dc',
    get_path out distributionConfigPath = Ok dc' /\
    optional_blocks_ok dc' /\
    (getConfig this "logging.bucket" VUndef = VUndef ->
     has_property dc' "Logging" = false).
Proof.
  intros this out. split; [reflexivity|].
  apply (optional_blocks_whole_or_absent this sample_resources out).
  reflexivity.
Defined.

(* ===================================================================== *)
(** ** The viewer certificate and the minimum protocol version            *)
(* ===================================================================== *)

(** When [certificate] is absent and the pipeline returns, the output has
    no [ViewerCertificate] property. *)
Lemma certificate_absent_no_viewerCertificate
      (this : plugin) (resources resources' : value) :
  prepareResources this resources = Ok resources' ->
  is_null (getConfig this "certificate" VNull) = true ->
  exists dc',
    get_path resources' distributionConfigPath = Ok dc' /\
    has_property dc' "ViewerCertificate" = false.
Proof.
  intros H Hcert.
  destruct (prepareResources_inv _ _ _ H) as [dc [dc' [Hdc [Hrules Hdc']]]].
  exists dc'. split; [assumption|].
  destruct (rule_at this dc dc' 10 _ _ Hrules eq_refl)
    as [a [b [HR [_ [_ [_ [_ [Hkeys _]]]]]]]].
  rewrite (Hkeys "ViewerCertificate" eq_refl).
  apply (prepareCertificate_block _ _ _ HR). assumption.
Qed.

(** With [minimumProtocolVersion] configured and [certificate] absent the
    pipeline never returns: rule 14 assigns into the block that rule 11
    deleted. *)
Lemma minimumProtocolVersion_needs_certificate
      (this : plugin) (resources : value) :
  is_null (getConfig this "certificate" VNull) = true ->
  truthy (getConfig this "minimumProtocolVersion" VUndef) = true ->
  forall resources', prepareResources this resources <> Ok resources'.
Proof.
  intros Hcert Hmin resources' H.
  destruct (certificate_absent_no_viewerCertificate _ _ _ H Hcert)
    as [dc' [Hdc' Hnone]].
  destruct (prepareResources_inv _ _ _ H) as [dc [dc2 [Hdc [Hrules Hdc2]]]].
  assert (dc2 = dc') by congruence. subst dc2.
  destruct (rule_at this dc dc' 13 _ _ Hrules eq_refl)
    as [a [b [HR [_ [_ [_ [_ [Hkeys _]]]]]]]].
  rewrite (Hkeys "ViewerCertificate" eq_refl) in Hnone.
  unfold prepareMinimumProtocolVersion in HR; cbv zeta in HR.
  rewrite Hmin in HR.
  rewrite (assign_in_has ["ViewerCertificate"] _ _ _ _ "ViewerCertificate"
             HR eq_refl) in Hnone.
  simpl in HR. bind_inv HR. bind_inv HR.
  apply set_prop_ok in Hstep0. destruct Hstep0 as [ps [-> _]].
  destruct (get_prop_container _ _ _ Hstep eq_refl)
    as [[qs [-> Hl]] | [es [i [-> [Hlen [Hi _]]]]]].
  - simpl in Hnone. rewrite Hl in Hnone. discriminate.
  - discriminate.
Qed.

(** C1 (failing input).  Configuration [{minimumProtocolVersion:
    "TLSv1.2_2021"}] without [certificate]: the claim says the setting is
    dropped and the pipeline completes; [prepareResources] throws a
    [TypeError]. *)
Theorem minimumProtocolVersion_without_certificate_throws :
  prepareResources
    (sample_plugin (VObj [("minimumProtocolVersion", VStr "TLSv1.2_2021")])
                   "dev-api" "prod")
    sample_resources
  = Err TypeError.
Proof. reflexivity. Qed.

(* ===================================================================== *)
(** ** The cache and origin-request policies (rule Policies)              *)
(* ===================================================================== *)

(** C4 as stated fails: [cachePolicyId: ""] is present in the
    configuration, yet the output's [CachePolicyId] is not that value (the
    rule tests the truthiness of the setting; the sample template has no
    [CachePolicyId], and none is written). *)
Lemma cachePolicyId_present_but_not_written :
  let this :=
    sample_plugin (VObj [("cachePolicyId", VStr "")]) "dev-api" "prod" in
  let out := returned (prepareResources this sample_resources) in
  getConfig this "cachePolicyId" VUndef = VStr "" /\
  prepareResources this sample_resources = Ok out /\
  get_path out (distributionConfigPath
                  ++ ["DefaultCacheBehavior"; "CachePolicyId"])%list
  <> Ok (VStr "").
Proof.
  intros this out. split; [reflexivity|]. split; [reflexivity|].
  vm_compute. discriminate.
Qed.

(** C4 (amended).  For every configuration: when [cachePolicyId] is set to
    a truthy value the output's [DefaultCacheBehavior.CachePolicyId] is
    that value, otherwise (absent, [null], empty string, [0], [false]) the
    template's value is left as it is; likewise, and independently, for
    [originRequestPolicyId] and [OriginRequestPolicyId]. *)
Theorem policies_written_when_truthy
        (this : plugin) (resources resources' : value) :
  prepareResources this resources = Ok resources' ->
  let cachePolicyId := getConfig this "cachePolicyId" VNull in
  let originRequestPolicyId := getConfig this "originRequestPolicyId" VNull in
  exists dc dc',
    get_path resources distributionConfigPath = Ok dc /\
    get_path resources' distributionConfigPath = Ok dc' /\
    get_path dc' ["DefaultCacheBehavior"; "CachePolicyId"] =
      (if truthy cachePolicyId then Ok cachePolicyId
       else get_path dc ["DefaultCacheBehavior"; "CachePolicyId"]) /\
    get_path dc' ["DefaultCacheBehavior"; "OriginRequestPolicyId"] =
      (if truthy originRequestPolicyId then Ok originRequestPolicyId
       else get_path dc ["DefaultCacheBehavior"; "OriginRequestPolicyId"]).
Proof.
  intros H cachePolicyId originRequestPolicyId.
  destruct (prepareResources_inv _ _ _ H) as [dc [dc' [Hdc [Hrules Hdc']]]].
  exists dc, dc'. split; [assumption|]. split; [assumption|].
  destruct (rule_at this dc dc' 7 _ _ Hrules eq_refl)
    as [a [b [HR [Hbefore [_ [_ [Hafter _]]]]]]].
  destruct (preparePolicies_ids _ _ _ HR) as [Hc Ho].
  rewrite (Hafter ["DefaultCacheBehavior"; "CachePolicyId"] eq_refl),
          (Hafter ["DefaultCacheBehavior"; "OriginRequestPolicyId"] eq_refl).
  rewrite <- (Hbefore ["DefaultCacheBehavior"; "CachePolicyId"] eq_refl),
          <- (Hbefore ["DefaultCacheBehavior"; "OriginRequestPolicyId"]
                      eq_refl).
  split; assumption.
Qed.

Lemma policies_written_when_truthy_witness :
  let this :=
    sample_plugin
      (VObj [("cachePolicyId",
              VStr "658327ea-f89d-4fab-a63d-7e88639e58f6")])
      "dev-api" "prod" in
  let out := returned (prepareResources this sample_resources) in
  let cachePolicyId := getConfig this "cachePolicyId" VNull in
  let originRequestPolicyId := getConfig this "originRequestPolicyId" VNull in
  prepareResources this sample_resources = Ok out /\
  exists dc dc',
    get_path sample_resources distributionConfigPath = Ok dc /\
    get_path out distributionConfigPath = Ok dc' /\
    get_path dc' ["DefaultCacheBehavior"; "CachePolicyId"] =
      (if truthy cachePolicyId then Ok cachePolicyId
       else get_path dc ["DefaultCacheBehavior"; "CachePolicyId"]) /\
    get_path dc' ["DefaultCacheBehavior"; "OriginRequestPolicyId"] =
      (if truthy originRequestPolicyId then Ok originRequestPolicyId
       else get_path dc ["DefaultCacheBehavior"; "OriginRequestPolicyId"]).
Proof.
  intros this out cachePolicyId originRequestPolicyId.
  split; [reflexivity|].
  apply (policies_written_when_truthy this sample_resources out).
  reflexivity.
Defined.

(* ===================================================================== *)
(** ** Overwritten fields and the frame of the pipeline                   *)
(* ===================================================================== *)

(** C10.  For every configuration and stage the pipeline overwrites
    [PriceClass], [Comment], [Origins[0].DomainName],
    [Origins[0].OriginPath], [Origins[0].OriginCustomHeaders],
    [DefaultCacheBehavior.Compress], [ForwardedValues.Cookies.Forward],
    [ForwardedValues.Headers] and [ForwardedValues.QueryString] with
    values in which the base template does not occur; everything that
    parts ways with the fields named by the rules is as in the base
    template, and each rule changes nothing outside the fields it
    names. *)
Theorem overwritten_fields_and_frame
        (this : plugin) (resources resources' : value) :
  prepareResources this resources = Ok resources' ->
  exists dc dc',
    get_path resources distributionConfigPath = Ok dc /\
    get_path resources' distributionConfigPath = Ok dc' /\
    Forall (fun field => get_path dc' (fst field) = snd field)
           (overwritten this) /\
    (forall q, untouched (fields_of (rules this)) q = true ->
               get_path dc' q = get_path dc q) /\
    (forall k, key_untouched (fields_of (rules this)) k = true ->
               has_property dc' k = has_property dc k) /\
    Forall (fun rule => frames (fst rule) (snd rule)) (rules this).
Proof.
  intros H.
  destruct (prepareResources_inv _ _ _ H) as [dc [dc' [Hdc [Hrules Hdc']]]].
  exists dc, dc'. split; [assumption|]. split; [assumption|].
  destruct (applyRules_frames this _ _ Hrules) as [Hget [Hkeys _]].
  split; [|split; [assumption | split; [assumption | apply rules_frames]]].
  unfold overwritten; cbv zeta.
  repeat apply Forall_cons; try apply Forall_nil; cbn [fst snd].
  - destruct (rule_at this dc dc' 2 _ _ Hrules eq_refl)
      as [a [b [HR [_ [_ [_ [Hafter _]]]]]]].
    rewrite (Hafter ["PriceClass"] eq_refl).
    exact (preparePriceClass_value _ _ _ HR).
  - destruct (rule_at this dc dc' 9 _ _ Hrules eq_refl)
      as [a [b [HR [_ [_ [_ [Hafter _]]]]]]].
    rewrite (Hafter ["Comment"] eq_refl).
    exact (prepareComment_value _ _ _ HR).
  - destruct (rule_at this dc dc' 1 _ _ Hrules eq_refl)
      as [a [b [HR [_ [_ [_ [Hafter _]]]]]]].
    rewrite (Hafter ["Origins"; "0"; "DomainName"] eq_refl).
    exact (prepareDomain_domainName _ _ _ HR).
  - destruct (rule_at this dc dc' 3 _ _ Hrules eq_refl)
      as [a [b [HR [_ [_ [_ [Hafter _]]]]]]].
    rewrite (Hafter ["Origins"; "0"; "OriginPath"] eq_refl).
    symmetry. exact (prepareOrigins_path _ _ _ HR).
  - destruct (rule_at this dc dc' 3 _ _ Hrules eq_refl)
      as [a [b [HR [_ [_ [_ [Hafter _]]]]]]].
    rewrite (Hafter ["Origins"; "0"; "OriginCustomHeaders"] eq_refl).
    symmetry. exact (prepareOrigins_headers _ _ _ HR).
  - destruct (rule_at this dc dc' 12 _ _ Hrules eq_refl)
      as [a [b [HR [_ [_ [_ [Hafter _]]]]]]].
    rewrite (Hafter ["DefaultCacheBehavior"; "Compress"] eq_refl).
    exact (prepareCompress_value _ _ _ HR).
  - destruct (rule_at this dc dc' 4 _ _ Hrules eq_refl)
      as [a [b [HR [_ [_ [_ [Hafter _]]]]]]].
    rewrite (Hafter ["DefaultCacheBehavior"; "ForwardedValues"; "Cookies";
                     "Forward"] eq_refl).
    exact (prepareCookies_forward _ _ _ HR).
  - destruct (rule_at this dc dc' 5 _ _ Hrules eq_refl)
      as [a [b [HR [_ [_ [_ [Hafter _]]]]]]].
    rewrite (Hafter ["DefaultCacheBehavior"; "ForwardedValues"; "Headers"]
                    eq_refl).
    exact (prepareHeaders_value _ _ _ HR).
  - destruct (rule_at this dc dc' 8 _ _ Hrules eq_refl)
      as [a [b [HR [_ [_ [_ [Hafter _]]]]]]].
    rewrite (Hafter ["DefaultCacheBehavior"; "ForwardedValues";
                     "QueryString"] eq_refl).
    exact (prepareQueryString_value _ _ _ HR).
Qed.

Lemma overwritten_fields_and_frame_witness :
  let this :=
    sample_plugin (VObj [("priceClass", VStr "PriceClass_200");
                         ("cookies", VArr [VStr "session"]);
                         ("compress", VBool true)]) "dev-api" "prod" in
  let out := returned (prepareResources this sample_resources) in
  prepareResources this sample_resources = Ok out /\
  exists dc dc',
    get_path sample_resources distributionConfigPath = Ok dc /\
    get_path out distributionConfigPath = Ok dc' /\
    Forall (fun field => get_path dc' (fst field) = snd field)
           (overwritten this) /\
    (forall q, untouched (fields_of (rules this)) q = true ->
               get_path dc' q = get_path dc q) /\
    (forall k, key_untouched (fields_of (rules this)) k = true ->
               has_property dc' k = has_property dc k) /\
    Forall (fun rule => frames (fst rule) (snd rule)) (rules this).
Proof.
  intros this out. split; [reflexivity|].
  apply (overwritten_fields_and_frame this sample_resources out).
  reflexivity.
Defined.

(* ===================================================================== *)
(** ** What the pipeline reads of the plugin instance                     *)
(* ===================================================================== *)

(** The rules read the plugin instance only through the settings of
    [config_fields], the stage and the API gateway name. *)
Lemma applyRules_agree (this1 this2 : plugin) :
  same_settings this1 this2 ->
  get_prop (options this1) "stage" = get_prop (options this2) "stage" ->
  apiGatewayName this1 = apiGatewayName this2 ->
  forall dc, applyRules this1 dc = applyRules this2 dc.
Proof.
  unfold same_settings, config_fields. intros Hs Hstage Hname dc.
  repeat match goal with
         | H : Forall _ (_ :: _) |- _ =>
             let E := fresh "E" in
             apply Forall_cons_iff in H; cbn [fst snd] in H;
             destruct H as [E H]
         end.
  unfold applyRules, prepareLogging, prepareDomain, preparePriceClass,
    prepareOrigins, prepareCookies, prepareHeaders, prepareTTL,
    preparePolicies, prepareQueryString, prepareComment, prepareCertificate,
    prepareWaf, prepareCompress, prepareMinimumProtocolVersion, stagePath.
  rewrite E, E0, E1, E2, E3, E4, E5, E6, E7, E8, E9, E10, E11, E12, E13, E14,
    Hstage, Hname.
  reflexivity.
Qed.

Lemma prepareResources_agree (this1 this2 : plugin) :
  same_settings this1 this2 ->
  get_prop (options this1) "stage" = get_prop (options this2) "stage" ->
  apiGatewayName this1 = apiGatewayName this2 ->
  forall resources,
    prepareResources this1 resources = prepareResources this2 resources.
Proof.
  intros Hs Hstage Hname resources. unfold prepareResources.
  apply bind_ext. intros dc.
  rewrite (applyRules_agree _ _ Hs Hstage Hname). reflexivity.
Qed.

(** A setting that is [null] makes its rule delete its block. *)
Lemma null_setting_deletes_block
      (this : plugin) (resources resources' : value) (key block : string) :
  prepareResources this resources = Ok resources' ->
  In (key, block) null_default_settings ->
  getConfig this key VNull = VNull ->
  exists dc',
    get_path resources' distributionConfigPath = Ok dc' /\
    has_property dc' block = false.
Proof.
  intros H Hin Hnull.
  destruct (prepareResources_inv _ _ _ H) as [dc [dc' [Hdc [Hrules Hdc']]]].
  exists dc'. split; [assumption|].
  simpl in Hin.
  destruct Hin as [E | [E | [E | [E | []]]]]; injection E as <- <-.
  - destruct (rule_at this dc dc' 0 _ _ Hrules eq_refl)
      as [a [b [HR [_ [_ [_ [_ [Hkeys _]]]]]]]].
    rewrite (Hkeys "Logging" eq_refl).
    apply (prepareLogging_block _ _ _ HR). rewrite Hnull. reflexivity.
  - destruct (rule_at this dc dc' 1 _ _ Hrules eq_refl)
      as [a [b [HR [_ [_ [_ [_ [Hkeys _]]]]]]]].
    rewrite (Hkeys "Aliases" eq_refl).
    apply (prepareDomain_aliases _ _ _ HR). rewrite Hnull. reflexivity.
  - destruct (rule_at this dc dc' 10 _ _ Hrules eq_refl)
      as [a [b [HR [_ [_ [_ [_ [Hkeys _]]]]]]]].
    rewrite (Hkeys "ViewerCertificate" eq_refl).
    apply (prepareCertificate_block _ _ _ HR). rewrite Hnull. reflexivity.
  - destruct (rule_at this dc dc' 11 _ _ Hrules eq_refl)
      as [a [b [HR [_ [_ [_ [_ [Hkeys _]]]]]]]].
    rewrite (Hkeys "WebACLId" eq_refl).
    apply (prepareWaf_block _ _ _ HR). rewrite Hnull. reflexivity.
Qed.

(* ===================================================================== *)
(** ** An explicit null is an absent setting                              *)
(* ===================================================================== *)

(** C9.  Let [key] be one of [logging.bucket], [domain], [certificate],
    [waf].  If the configuration of [this1] holds an explicit [null] at
    [key], that of [this2] holds nothing there, and the two instances
    otherwise agree, then the pipeline does the same for both, and it
    deletes the block of [key]: the accessor substitutes the default only
    for an [undefined] lookup result, and the default is [null]. *)
Theorem explicit_null_is_absent
        (this1 this2 : plugin) (key block : string) (resources : value) :
  In (key, block) null_default_settings ->
  getConfig this1 key VUndef = VNull ->
  getConfig this2 key VUndef = VUndef ->
  (forall fd, In fd config_fields -> fst fd <> key ->
              getConfig this1 (fst fd) (snd fd) =
              getConfig this2 (fst fd) (snd fd)) ->
  get_prop (options this1) "stage" = get_prop (options this2) "stage" ->
  apiGatewayName this1 = apiGatewayName this2 ->
  prepareResources this1 resources = prepareResources this2 resources /\
  forall resources',
    prepareResources this1 resources = Ok resources' ->
    exists dc',
      get_path resources' distributionConfigPath = Ok dc' /\
      has_property dc' block = false.
Proof.
  intros Hin Hnull Habs Hother Hstage Hname.
  assert (H1 : getConfig this1 key VNull = VNull)
    by exact (getConfig_present _ _ _ _ Hnull eq_refl).
  assert (H2 : getConfig this2 key VNull = VNull)
    by exact (getConfig_absent _ _ _ Habs).
  split.
  - apply prepareResources_agree; auto.
    unfold same_settings. apply Forall_forall. intros [f d] Hfd.
    cbn [fst snd].
    destruct (String.eqb_spec f key) as [->|Hne].
    + assert (d = VNull) as ->.
      { clear - Hin Hfd. simpl in Hin, Hfd.
        destruct Hin as [E | [E | [E | [E | []]]]]; injection E as <- <-;
          repeat (destruct Hfd as [Hfd | Hfd];
                  [try discriminate; injection Hfd as <-; reflexivity|]);
          contradiction. }
      congruence.
    + apply (Hother (f, d)); assumption.
  - intros resources' H.
    eapply null_setting_deletes_block; eauto.
Qed.

Lemma explicit_null_is_absent_witness :
  let this1 := sample_plugin (VObj [("domain", VNull)]) "dev-api" "prod" in
  let this2 := sample_plugin (VObj []) "dev-api" "prod" in
  In ("domain", "Aliases") null_default_settings /\
  getConfig this1 "domain" VUndef = VNull /\
  getConfig this2 "domain" VUndef = VUndef /\
  prepareResources this1 sample_resources =
  prepareResources this2 sample_resources /\
  forall resources',
    prepareResources this1 sample_resources = Ok resources' ->
    exists dc',
      get_path resources' distributionConfigPath = Ok dc' /\
      has_property dc' "Aliases" = false.
Proof.
  intros this1 this2.
  split; [simpl; tauto|]. split; [reflexivity|]. split; [reflexivity|].
  apply (explicit_null_is_absent this1 this2 "domain" "Aliases"
                                 sample_resources);
    try reflexivity.
  - simpl; tauto.
  - intros fd Hfd Hne. simpl in Hfd.
    repeat (destruct Hfd as [<- | Hfd]; [reflexivity|]). contradiction.
Defined.

(* ===================================================================== *)
(** ** The output as a function of the inputs                             *)
(* ===================================================================== *)

(** C5 as stated fails: two plugin instances with the same base template,
    the same configuration map and the same stage, in services of
    different names, for which the naming collaborator therefore returns
    different API gateway names, produce different templates. *)
Lemma same_triple_different_output :
  let config := VObj [("domain", VStr "example.com")] in
  let compiled := VObj [("Resources", VObj [])] in
  let this1 := plugin_on compiled config "orders" "prod" in
  let this2 := plugin_on compiled config "billing" "prod" in
  Lodash.get (serverless this1) "service.custom.apiCloudFront" VUndef =
  Lodash.get (serverless this2) "service.custom.apiCloudFront" VUndef /\
  same_settings this1 this2 /\
  options this1 = options this2 /\
  createDeploymentArtifacts this1 sample_resources <>
  createDeploymentArtifacts this2 sample_resources.
Proof.
  intros config compiled this1 this2.
  split; [reflexivity|].
  split; [unfold same_settings, config_fields; repeat constructor|].
  split; [reflexivity|].
  vm_compute. discriminate.
Qed.

(** C5 (amended).  The output of [createDeploymentArtifacts] is a function
    of the base template, the settings read by the rules, the stage, the
    API gateway name returned by the naming collaborator, and the
    provider's compiled template and tags: two instances that agree on
    these yield the same result on the same base template. *)
Theorem output_determined_by_inputs
        (this1 this2 : plugin) (resources : value) :
  same_settings this1 this2 ->
  get_prop (options this1) "stage" = get_prop (options this2) "stage" ->
  apiGatewayName this1 = apiGatewayName this2 ->
  get_path (serverless this1)
           ["service"; "provider"; "compiledCloudFormationTemplate"] =
  get_path (serverless this2)
           ["service"; "provider"; "compiledCloudFormationTemplate"] ->
  get_path (serverless this1) ["service"; "provider"; "tags"] =
  get_path (serverless this2) ["service"; "provider"; "tags"] ->
  createDeploymentArtifacts this1 resources =
  createDeploymentArtifacts this2 resources.
Proof.
  intros Hs Hstage Hname Hbase Htags. unfold createDeploymentArtifacts.
  rewrite Hbase, Htags, (prepareResources_agree _ _ Hs Hstage Hname).
  reflexivity.
Qed.

Lemma output_determined_by_inputs_witness :
  let config := VObj [("domain", VStr "example.com")] in
  let this1 := sample_plugin config "dev-api" "dev" in
  let this2 := plugin_on (VObj [("Resources", VObj [])]) config "api" "dev" in
  same_settings this1 this2 /\
  createDeploymentArtifacts this1 sample_resources =
  createDeploymentArtifacts this2 sample_resources.
Proof.
  intros config this1 this2.
  assert (Hs : same_settings this1 this2)
    by (unfold same_settings, config_fields; repeat constructor).
  split; [exact Hs|].
  apply (output_determined_by_inputs this1 this2 sample_resources Hs);
    reflexivity.
Defined.

(* ===================================================================== *)
(** ** The template merge                                                 *)
(* ===================================================================== *)

Lemma mergeValue_obj (sps : list (string * value)) (objValue : option value) :
  Lodash.mergeValue (VObj sps) objValue =
  if existsb (fun kv => is_index (fst kv)) sps then Err OutOfModel
  else
    base <- match objValue with
            | Some (VObj ops) => Ok ops
            | Some (VArr _) => Err OutOfModel
            | _ => Ok []
            end ;;
    merged <- Lodash.mergeProps sps base ;;
    Ok (VObj merged).
Proof. reflexivity. Qed.

Lemma mergeValue_arr (ses : list value) (objValue : option value) :
  Lodash.mergeValue (VArr ses) objValue =
  (merged <- Lodash.mergeElems ses
               match objValue with
               | Some (VArr oes) => oes
               | Some (VObj ops) =>
                   match Lodash.array_like_length ops with
                   | Some len => Lodash.copyArray ops len
                   | None => []
                   end
               | _ => []
               end ;;
   Ok (VArr merged)).
Proof. reflexivity. Qed.

Lemma mergeProps_cons (key : string) (sv : value)
      (rest ops : list (string * value)) :
  Lodash.mergeProps ((key, sv) :: rest) ops =
  (newValue <- Lodash.mergeValue sv (lookup key ops) ;;
   Lodash.mergeProps rest (upsert key newValue ops)).
Proof. reflexivity. Qed.

Lemma mergeValue_scalar (sv : value) (objValue : option value) :
  scalar sv = true -> Lodash.mergeValue sv objValue = Ok sv.
Proof. destruct sv; simpl; intros H; try discriminate; reflexivity. Qed.

Lemma lookup_not_in (k : string) (ps : list (string * value)) :
  ~ In k (map fst ps) -> lookup k ps = None.
Proof.
  induction ps as [|[k' v] rest IH]; simpl; intros H; [reflexivity|].
  destruct (String.eqb_spec k k') as [->|Hk]; [tauto|]. apply IH. tauto.
Qed.

(** The loop over the properties of the source: a key that the source
    does not have keeps what the destination holds; a key of the source
    receives the merge of the source value into what the destination
    held there. *)
Lemma mergeProps_lookup (sps : list (string * value)) :
  forall ops mps,
    Lodash.mergeProps sps ops = Ok mps ->
    NoDup (map fst sps) ->
    (forall k, lookup k sps = None -> lookup k mps = lookup k ops) /\
    (forall k sv, lookup k sps = Some sv ->
                  exists m, Lodash.mergeValue sv (lookup k ops) = Ok m /\
                            lookup k mps = Some m).
Proof.
  induction sps as [|[k0 sv0] rest IH]; intros ops mps H Hnd.
  - injection H as <-. split; [reflexivity | discriminate].
  - rewrite mergeProps_cons in H. bind_inv H.
    inversion Hnd as [|x l Hnotin Hnd']; subst.
    destruct (IH _ _ H Hnd') as [Hkeep Hmerge].
    split.
    + intros k Hk. simpl in Hk.
      destruct (String.eqb_spec k k0) as [Heq|Hne]; [discriminate|].
      rewrite (Hkeep k Hk), lookup_upsert.
      destruct (String.eqb_spec k k0); [contradiction | reflexivity].
    + intros k sv Hk. simpl in Hk.
      destruct (String.eqb_spec k k0) as [Heq|Hne].
      * subst k. injection Hk as <-. exists r. split; [assumption|].
        rewrite (Hkeep k0 (lookup_not_in _ _ Hnotin)), lookup_upsert,
          String.eqb_refl. reflexivity.
      * destruct (Hmerge k sv Hk) as [m [Hm Hl]].
        exists m. split; [|assumption].
        rewrite lookup_upsert in Hm.
        destruct (String.eqb_spec k k0); [contradiction | assumption].
Qed.

(** The loop over the elements of the source: the positions that the
    source has are merged one by one, the elements of the destination
    beyond them stay. *)
Lemma mergeElems_nth (ses : list value) :
  forall oes es,
    Lodash.mergeElems ses oes = Ok es ->
    List.length es = Nat.max (List.length ses) (List.length oes) /\
    (forall i, (List.length ses <= i)%nat ->
               nth_error es i = nth_error oes i) /\
    (forall i sv, nth_error ses i = Some sv ->
                  exists m, Lodash.mergeValue sv (nth_error oes i) = Ok m /\
                            nth_error es i = Some m).
Proof.
  induction ses as [|sv0 ses' IH]; intros oes es H.
  - injection H as <-. repeat split; auto.
    intros [|i] sv Hn; discriminate.
  - destruct oes as [|ov oes'].
    + change (Lodash.mergeElems (sv0 :: ses') []) with
        (newValue <- Lodash.mergeValue sv0 None ;;
         rest <- Lodash.mergeElems ses' [] ;;
         Ok (newValue :: rest)) in H.
      bind_inv H. bind_inv H. injection H as <-.
      destruct (IH _ _ Hstep0) as [Hlen [Hkeep Hmerge]].
      repeat split.
      * simpl. rewrite Hlen. simpl. lia.
      * intros [|i] Hi; simpl in *; [lia|].
        rewrite Hkeep by lia. destruct i; reflexivity.
      * intros [|i] sv Hn; simpl in *.
        -- injection Hn as <-. eauto.
        -- destruct (Hmerge i sv Hn) as [m [Hm Hl]].
           exists m. split; [|assumption].
           destruct i; exact Hm.
    + change (Lodash.mergeElems (sv0 :: ses') (ov :: oes')) with
        (newValue <- Lodash.mergeValue sv0 (Some ov) ;;
         rest <- Lodash.mergeElems ses' oes' ;;
         Ok (newValue :: rest)) in H.
      bind_inv H. bind_inv H. injection H as <-.
      destruct (IH _ _ Hstep0) as [Hlen [Hkeep Hmerge]].
      repeat split.
      * simpl. rewrite Hlen. reflexivity.
      * intros [|i] Hi; simpl in *; [lia|]. apply Hkeep. lia.
      * intros [|i] sv Hn; simpl in *.
        -- injection Hn as <-. eauto.
        -- exact (Hmerge i sv Hn).
Qed.

(** C2 as stated fails: the compiled template holds two aliases for the
    distribution, the pipeline's output holds the single alias
    [new.example.com]; after the merge of [createDeploymentArtifacts] the
    array leaf is not the incoming value: lodash merged the arrays index
    by index and the second alias of the target is still there. *)
Lemma merge_keeps_elements_of_target_array :
  let this :=
    plugin_on template_with_aliases
              (VObj [("domain", VStr "new.example.com")]) "orders" "prod" in
  let aliases := (distributionConfigPath ++ ["Aliases"])%list in
  let source := returned (prepareResources this sample_resources) in
  let merged := returned (createDeploymentArtifacts this sample_resources) in
  createDeploymentArtifacts this sample_resources = Ok merged /\
  get_path source aliases = Ok (VArr [VStr "new.example.com"]) /\
  get_path merged aliases =
    Ok (VArr [VStr "new.example.com"; VStr "old2.example.com"]) /\
  get_path merged aliases <> get_path source aliases.
Proof.
  intros this aliases source merged.
  repeat split; try reflexivity.
  vm_compute. discriminate.
Qed.

(** The merge, key by key.  A key that the source does not have keeps
    the target's value.  For a key of the
    source: a scalar source value ([null], boolean, number, string)
    overwrites what the target holds; an [undefined] one leaves it; a map
    is merged recursively into the map of the target; an array is merged
    into the array of the target index by index, so that the positions
    the source has receive the source's scalars and the elements of the
    target beyond the source's length stay. *)
Lemma merge_at_each_key
        (ops sps : list (string * value)) (merged : value) :
  Lodash.merge (VObj ops) (VObj sps) = Ok merged ->
  NoDup (map fst sps) ->
  exists mps,
    merged = VObj mps /\
    (forall k, lookup k sps = None -> lookup k mps = lookup k ops) /\
    (forall k sv,
        lookup k sps = Some sv ->
        exists m,
          lookup k mps = Some m /\
          (scalar sv = true -> m = sv) /\
          (sv = VUndef ->
           m = match lookup k ops with Some v => v | None => VUndef end) /\
          (forall so to,
              sv = VObj so -> lookup k ops = Some (VObj to) ->
              Lodash.merge (VObj to) (VObj so) = Ok m) /\
          (forall ses oes,
              sv = VArr ses -> lookup k ops = Some (VArr oes) ->
              exists es,
                m = VArr es /\
                List.length es = Nat.max (List.length ses) (List.length oes) /\
                (forall i, (List.length ses <= i)%nat ->
                           nth_error es i = nth_error oes i) /\
                (forall i x, nth_error ses i = Some x -> scalar x = true ->
                             nth_error es i = Some x))).
Proof.
  intros H Hnd. unfold Lodash.merge in H. rewrite mergeValue_obj in H.
  destruct (existsb (fun kv => is_index (fst kv)) sps); [discriminate|].
  cbn [bind] in H. bind_inv H. injection H as <-.
  exists r. split; [reflexivity|].
  destruct (mergeProps_lookup _ _ _ Hstep Hnd) as [Hkeep Hmerge].
  split; [assumption|].
  intros k sv Hk. destruct (Hmerge k sv Hk) as [m [Hm Hl]].
  exists m. split; [assumption|]. repeat split.
  - intros Hs. rewrite (mergeValue_scalar _ _ Hs) in Hm. congruence.
  - intros ->. simpl in Hm. congruence.
  - intros so to -> Hto. rewrite Hto in Hm. exact Hm.
  - intros ses oes -> Hoes. rewrite Hoes, mergeValue_arr in Hm.
    bind_inv Hm. injection Hm as <-.
    destruct (mergeElems_nth _ _ _ Hstep0) as [Hlen [Hstay Hpos]].
    exists r0. repeat split; auto.
    intros i x Hx Hs. destruct (Hpos i x Hx) as [m' [Hm' Hn]].
    rewrite (mergeValue_scalar _ _ Hs) in Hm'. congruence.
Qed.

(* ===================================================================== *)
(** ** Equality of templates as nested maps                               *)
(* ===================================================================== *)

(** Induction on values, with the induction hypothesis for every element
    of an array and every property of an object. *)
Lemma value_ind (P : value -> Prop)
      (Hundef : P VUndef) (Hnull : P VNull)
      (Hbool : forall b, P (VBool b)) (Hnum : forall n, P (VNum n))
      (Hstr : forall s, P (VStr s))
      (Harr : forall es, Forall P es -> P (VArr es))
      (Hobj : forall ps, Forall (fun kv => P (snd kv)) ps -> P (VObj ps)) :
  forall v, P v.
Proof.
  fix IH 1. intros [| |b|n|s|es|ps].
  - exact Hundef.
  - exact Hnull.
  - apply Hbool.
  - apply Hnum.
  - apply Hstr.
  - apply Harr.
    revert es. fix IHes 1. intros [|e es].
    + constructor.
    + constructor; [apply IH | apply IHes].
  - apply Hobj.
    revert ps. fix IHps 1. intros [|[k v] ps].
    + constructor.
    + constructor; [apply IH | apply IHps].
Qed.

Lemma veq_refl (v : value) : veq v v.
Proof.
  induction v as [| |b|n|s|es IH|ps IH] using value_ind; try constructor.
  - induction IH; constructor; auto.
  - intros k. induction IH as [|[k' v'] rest Hv _ IHrest]; simpl.
    + constructor.
    + destruct (String.eqb k k'); [constructor; exact Hv | exact IHrest].
Qed.

Lemma result_eq_refl (r : result value) : result_eq r r.
Proof. destruct r; constructor. apply veq_refl. Qed.

Lemma Forall2_veq_nth (es1 es2 : list value) (i : nat) :
  Forall2 veq es1 es2 -> veq (nth i es1 VUndef) (nth i es2 VUndef).
Proof.
  intros H. revert i. induction H; intros [|i]; simpl; auto; constructor.
Qed.

Lemma Forall2_veq_replace (es1 es2 : list value) (i : nat) (x y : value) :
  Forall2 veq es1 es2 -> veq x y ->
  Forall2 veq (replace_nth i x es1) (replace_nth i y es2).
Proof.
  intros H Hxy. revert i. induction H; intros [|i]; simpl; constructor; auto.
Qed.

Lemma get_prop_veq (a b : value) (k : string) :
  veq a b -> result_eq (get_prop a k) (get_prop b k).
Proof.
  intros H. inversion H as [| | | | |es1 es2 Hes|ps1 ps2 Hps]; subst;
    try apply result_eq_refl.
  - simpl. rewrite (Forall2_length Hes). constructor.
    destruct (String.eqb k "length"); [constructor|].
    destruct (index_of_key k); [|constructor].
    apply Forall2_veq_nth. assumption.
  - simpl. constructor. specialize (Hps k).
    inversion Hps; [constructor | assumption].
Qed.

Lemma set_prop_veq (a b : value) (k : string) (x y : value) :
  veq a b -> veq x y -> result_eq (set_prop a k x) (set_prop b k y).
Proof.
  intros H Hxy. inversion H as [| | | | |es1 es2 Hes|ps1 ps2 Hps]; subst;
    simpl; try constructor.
  constructor. intros k'. rewrite !lookup_upsert.
  destruct (String.eqb k' k); [constructor; assumption | apply Hps].
Qed.

Lemma delete_prop_veq (a b : value) (k : string) :
  veq a b -> result_eq (delete_prop a k) (delete_prop b k).
Proof.
  intros H. inversion H as [| | | | |es1 es2 Hes|ps1 ps2 Hps]; subst;
    try apply result_eq_refl.
  - unfold delete_prop, has_property. rewrite (Forall2_length Hes).
    destruct (String.eqb k "length"); [constructor|]. simpl.
    destruct (index_of_key k) as [i|]; [|constructor; assumption].
    destruct (Nat.ltb i (List.length es2)); constructor; assumption.
  - simpl. constructor. constructor. intros k'. rewrite !lookup_remove.
    destruct (String.eqb k' k); [constructor | apply Hps].
Qed.

Lemma put_prop_veq (a b : value) (k : string) (x y : value) :
  veq a b -> veq x y -> veq (put_prop a k x) (put_prop b k y).
Proof.
  intros H Hxy. inversion H as [| | | | |es1 es2 Hes|ps1 ps2 Hps]; subst;
    simpl; try constructor.
  - destruct (index_of_key k); [|assumption].
    constructor. apply Forall2_veq_replace; assumption.
  - intros k'. rewrite !lookup_upsert.
    destruct (String.eqb k' k); [constructor; assumption | apply Hps].
Qed.

Lemma result_eq_bind (m1 m2 : result value) (f g : value -> result value) :
  result_eq m1 m2 ->
  (forall a b, veq a b -> result_eq (f a) (g b)) ->
  result_eq (bind m1 f) (bind m2 g).
Proof.
  intros H Hfg. inversion H; subst; simpl; [auto | constructor].
Qed.

Lemma assign_in_veq (path : list string) (k : string) :
  forall a b x y, veq a b -> veq x y ->
                  result_eq (assign_in a path k x) (assign_in b path k y).
Proof.
  induction path as [|p rest IH]; simpl; intros a b x y Hab Hxy.
  - apply set_prop_veq; assumption.
  - apply result_eq_bind; [apply get_prop_veq; assumption|].
    intros c d Hcd. apply result_eq_bind; [apply IH; assumption|].
    intros c' d' Hcd'. constructor. apply put_prop_veq; assumption.
Qed.

Lemma put_path_veq (path : list string) :
  forall o x y, veq x y -> veq (put_path o path x) (put_path o path y).
Proof.
  induction path as [|p rest IH]; simpl; intros o x y Hxy; [assumption|].
  destruct (get_prop o p); [|apply veq_refl].
  apply put_prop_veq; [apply veq_refl | apply IH; assumption].
Qed.

Lemma respects_assign (path : list string) (k : string) (v : value) :
  respects (fun dc => assign_in dc path k v).
Proof. intros a b H. apply assign_in_veq; [assumption | apply veq_refl]. Qed.

Lemma respects_set (k : string) (v : value) :
  respects (fun dc => set_prop dc k v).
Proof. exact (respects_assign [] k v). Qed.

Lemma respects_delete (k : string) : respects (fun dc => delete_prop dc k).
Proof. intros a b H. apply delete_prop_veq; assumption. Qed.

Lemma respects_ok : respects (fun dc => Ok dc).
Proof. intros a b H. constructor; assumption. Qed.

Lemma respects_bind (R1 R2 : value -> result value) :
  respects R1 -> respects R2 -> respects (fun dc => x <- R1 dc ;; R2 x).
Proof. intros H1 H2 a b H. apply result_eq_bind; auto. Qed.

Lemma respects_if (c : bool) (R1 R2 : value -> result value) :
  respects R1 -> respects R2 ->
  respects (fun dc => if c then R1 dc else R2 dc).
Proof. destruct c; auto. Qed.

(** Proves [respects R] for a rule made of assignments, deletions and
    tests of the configuration. *)
Ltac respects_tac :=
  lazymatch goal with
  | |- respects (fun dc => if _ then _ else _) =>
      apply respects_if; respects_tac
  | |- respects (fun dc => Ok dc) => apply respects_ok
  | |- respects Ok => apply respects_ok
  | |- respects (fun dc => bind _ _) => apply respects_bind; respects_tac
  | |- respects (fun dc => assign_in dc _ _ _) => apply respects_assign
  | |- respects (fun dc => set_prop dc _ _) => apply respects_set
  | |- respects (fun dc => delete_prop dc _) => apply respects_delete
  end.

Lemma prepareQueryString_respects (this : plugin) :
  respects (prepareQueryString this).
Proof. unfold prepareQueryString; cbv zeta. respects_tac. Qed.

Lemma prepareComment_respects (this : plugin) :
  respects (prepareComment this).
Proof. unfold prepareComment; cbv zeta. respects_tac. Qed.

Lemma prepareCertificate_respects (this : plugin) :
  respects (prepareCertificate this).
Proof. unfold prepareCertificate; cbv zeta. respects_tac. Qed.

Lemma prepareWaf_respects (this : plugin) : respects (prepareWaf this).
Proof. unfold prepareWaf; cbv zeta. respects_tac. Qed.

Lemma prepareCompress_respects (this : plugin) :
  respects (prepareCompress this).
Proof. unfold prepareCompress; cbv zeta. respects_tac. Qed.

Lemma prepareMinimumProtocolVersion_respects (this : plugin) :
  respects (prepareMinimumProtocolVersion this).
Proof. unfold prepareMinimumProtocolVersion; cbv zeta. respects_tac. Qed.

(* ===================================================================== *)
(** ** The TTL and Policies rules commute                                 *)
(* ===================================================================== *)

Lemma opt_rel_refl (x : option value) : opt_rel veq x x.
Proof. destruct x; constructor. apply veq_refl. Qed.

Lemma upsert_same (p : string) (x : value) (ps : list (string * value)) :
  lookup p ps = Some x -> upsert p x ps = ps.
Proof.
  induction ps as [|[k v] rest IH]; simpl; [discriminate|].
  destruct (String.eqb p k).
  - intros [= ->]. reflexivity.
  - intros H. rewrite (IH H). reflexivity.
Qed.

Lemma upsert_upsert (p : string) (x y : value) (ps : list (string * value)) :
  upsert p y (upsert p x ps) = upsert p y ps.
Proof.
  pose proof (put_put (VObj ps) x y p) as H. simpl in H. congruence.
Qed.

Lemma assign_block (p k : string) (v : value)
      (qs d : list (string * value)) :
  lookup p qs = Some (VObj d) ->
  assign_in (VObj qs) [p] k v =
  Ok (VObj (upsert p (VObj (upsert k v d)) qs)).
Proof. intros H. simpl. rewrite H. reflexivity. Qed.

Lemma write_all_block (p : string) (ws : list (string * value)) :
  forall qs d,
    lookup p qs = Some (VObj d) ->
    write_all p ws (VObj qs) =
    Ok (VObj (upsert p (VObj (upsert_all ws d)) qs)).
Proof.
  induction ws as [|[k v] rest IH]; intros qs d H.
  - simpl. rewrite (upsert_same _ _ _ H). reflexivity.
  - cbn [write_all upsert_all]. rewrite (assign_block _ _ _ _ _ H).
    cbn [bind]. rewrite (IH _ (upsert k v d)).
    + rewrite upsert_upsert. reflexivity.
    + rewrite lookup_upsert, String.eqb_refl. reflexivity.
Qed.

Lemma write_all_app (p : string) (w1 w2 : list (string * value)) :
  forall o, write_all p (w1 ++ w2)%list o =
            (x <- write_all p w1 o ;; write_all p w2 x).
Proof.
  induction w1 as [|[k v] rest IH]; intros o; [reflexivity|].
  simpl. destruct (get_prop o p) as [c|e]; [|reflexivity]. simpl.
  destruct (set_prop c k v) as [c'|e]; [|reflexivity]. simpl. apply IH.
Qed.

Lemma lookup_upsert_all (k : string) (ws : list (string * value)) :
  forall d, lookup k (upsert_all ws d) =
            match last_write k ws with
            | Some v => Some v
            | None => lookup k d
            end.
Proof.
  induction ws as [|[k' v] rest IH]; intros d; [reflexivity|].
  simpl. rewrite IH. destruct (last_write k rest); [reflexivity|].
  rewrite lookup_upsert. destruct (String.eqb k k'); reflexivity.
Qed.

Lemma get_prop_truthy (v : value) (k : string) :
  truthy v = true -> get_prop v k = Ok (returned (get_prop v k)).
Proof. destruct v; simpl; intros H; try discriminate; reflexivity. Qed.

Lemma prepareTTL_writes (this : plugin) (o : value) :
  prepareTTL this o = write_all "DefaultCacheBehavior" (ttl_writes this) o.
Proof.
  unfold prepareTTL, ttl_writes; cbv zeta.
  destruct (truthy (getConfig this "ttl" VNull)) eqn:E; [|reflexivity].
  destruct (get_prop (getConfig this "ttl" VNull) "default") as [x1|e1] eqn:E1;
    [|rewrite (get_prop_truthy _ _ E) in E1; discriminate].
  destruct (get_prop (getConfig this "ttl" VNull) "max") as [x2|e2] eqn:E2;
    [|rewrite (get_prop_truthy _ _ E) in E2; discriminate].
  destruct (get_prop (getConfig this "ttl" VNull) "min") as [x3|e3] eqn:E3;
    [|rewrite (get_prop_truthy _ _ E) in E3; discriminate].
  cbn [bind write_all returned].
  repeat (apply bind_ext; intro). symmetry. apply bind_ret.
Qed.

Lemma preparePolicies_writes (this : plugin) (o : value) :
  preparePolicies this o =
  write_all "DefaultCacheBehavior" (policy_writes this) o.
Proof.
  unfold preparePolicies, policy_writes; cbv zeta.
  destruct (truthy (getConfig this "cachePolicyId" VNull));
    destruct (truthy (getConfig this "originRequestPolicyId" VNull));
    cbn [List.app write_all bind]; try reflexivity.
  - apply bind_ext; intro. symmetry. apply bind_ret.
  - symmetry. apply bind_ret.
Qed.

(** The two rules write different keys of [DefaultCacheBehavior]: in
    either order the block ends with the same values under the same
    keys. *)
Lemma ttl_policies_last_write (this : plugin) (k : string) :
  last_write k (ttl_writes this ++ policy_writes this)%list =
  last_write k (policy_writes this ++ ttl_writes this)%list.
Proof.
  unfold ttl_writes, policy_writes; cbv zeta.
  destruct (truthy (getConfig this "ttl" VNull));
    destruct (truthy (getConfig this "cachePolicyId" VNull));
    destruct (truthy (getConfig this "originRequestPolicyId" VNull));
    cbn [List.app last_write];
    repeat match goal with
           | |- context [String.eqb k ?s] =>
               destruct (String.eqb_spec k s); [subst k; simpl|]
           end;
    reflexivity.
Qed.

Lemma ttl_policies_commute (this : plugin) (qs d : list (string * value)) :
  lookup "DefaultCacheBehavior" qs = Some (VObj d) ->
  result_eq (x <- prepareTTL this (VObj qs) ;; preparePolicies this x)
            (x <- preparePolicies this (VObj qs) ;; prepareTTL this x).
Proof.
  intros H.
  assert (E1 : (x <- prepareTTL this (VObj qs) ;; preparePolicies this x) =
               write_all "DefaultCacheBehavior"
                         (ttl_writes this ++ policy_writes this)%list
                         (VObj qs)).
  { rewrite write_all_app, prepareTTL_writes. apply bind_ext. intro.
    apply preparePolicies_writes. }
  assert (E2 : (x <- preparePolicies this (VObj qs) ;; prepareTTL this x) =
               write_all "DefaultCacheBehavior"
                         (policy_writes this ++ ttl_writes this)%list
                         (VObj qs)).
  { rewrite write_all_app, preparePolicies_writes. apply bind_ext. intro.
    apply prepareTTL_writes. }
  rewrite E1, E2, !(write_all_block _ _ _ _ H).
  constructor. constructor. intros k. rewrite !lookup_upsert.
  destruct (String.eqb k "DefaultCacheBehavior"); [|apply opt_rel_refl].
  constructor. constructor. intros k'.
  rewrite !lookup_upsert_all, ttl_policies_last_write.
  apply opt_rel_refl.
Qed.

(** After an assignment [o[p1][p2][k] = v] for names [p1], [p2], the
    block [o[p1]] is an object. *)
Lemma assign_in_block (o o' : value) (p1 p2 k : string) (v : value) :
  assign_in o [p1; p2] k v = Ok o' ->
  index_of_key p1 = None -> index_of_key p2 = None ->
  exists qs d, o' = VObj qs /\ lookup p1 qs = Some (VObj d).
Proof.
  intros H H1 H2. simpl in H.
  apply bind_ok in H. destruct H as [c [Hc H]].
  apply bind_ok in H. destruct H as [c' [Hc' H]].
  apply bind_ok in Hc'. destruct Hc' as [g [Hg Hc']].
  apply bind_ok in Hc'. destruct Hc' as [g' [Hg' Hc']].
  apply set_prop_ok in Hg'. destruct Hg' as [gs [-> ->]].
  destruct (get_prop_container _ _ _ Hg eq_refl)
    as [[cs [-> Hl]] | [es [i [_ [_ [Hi _]]]]]]; [|congruence].
  destruct (get_prop_container _ _ _ Hc eq_refl)
    as [[os [-> Hl']] | [es [i [_ [_ [Hi _]]]]]]; [|congruence].
  injection Hc' as <-. injection H as <-. simpl.
  eexists _, _. split; [reflexivity|].
  rewrite lookup_upsert, String.eqb_refl. reflexivity.
Qed.

Lemma prepareHeaders_block (this : plugin) (a b : value) :
  prepareHeaders this a = Ok b ->
  exists qs d, b = VObj qs /\ lookup "DefaultCacheBehavior" qs = Some (VObj d).
Proof.
  unfold prepareHeaders; cbv zeta. intros H.
  destruct (isArray (getConfig this "headers" (VStr "none")));
    exact (assign_in_block _ _ _ _ _ _ H eq_refl eq_refl).
Qed.

Lemma bind_assoc {A B C : Type} (m : result A) (f : A -> result B)
      (g : B -> result C) :
  (y <- (x <- m ;; f x) ;; g y) = (x <- m ;; y <- f x ;; g y).
Proof. destruct m; reflexivity. Qed.

(** The rules of the code with Policies before TTL: the results are the
    same nested map as in the order of the code. *)
Lemma applyRules_policies_first_eq (this : plugin) (dc : value) :
  result_eq (applyRules this dc) (applyRules_policies_first this dc).
Proof.
  unfold applyRules, applyRules_policies_first.
  destruct (prepareLogging this dc) as [d1|e]; [|constructor]. cbn [bind].
  destruct (prepareDomain this d1) as [d2|e]; [|constructor]. cbn [bind].
  destruct (preparePriceClass this d2) as [d3|e]; [|constructor]. cbn [bind].
  destruct (prepareOrigins this d3) as [d4|e]; [|constructor]. cbn [bind].
  destruct (prepareCookies this d4) as [d5|e]; [|constructor]. cbn [bind].
  destruct (prepareHeaders this d5) as [d6|e] eqn:Hh; [|constructor].
  cbn [bind].
  destruct (prepareHeaders_block _ _ _ Hh) as [qs [d [-> Hd]]].
  rewrite <- (bind_assoc (prepareTTL this (VObj qs))),
          <- (bind_assoc (preparePolicies this (VObj qs))).
  apply result_eq_bind; [apply ttl_policies_commute with (d := d); exact Hd|].
  change (respects
            (fun y =>
               dc0 <- prepareQueryString this y ;;
               dc1 <- prepareComment this dc0 ;;
               dc2 <- prepareCertificate this dc1 ;;
               dc3 <- prepareWaf this dc2 ;;
               dc4 <- prepareCompress this dc3 ;;
               prepareMinimumProtocolVersion this dc4)).
  repeat (apply respects_bind;
          [first [ apply prepareQueryString_respects
                 | apply prepareComment_respects
                 | apply prepareCertificate_respects
                 | apply prepareWaf_respects
                 | apply prepareCompress_respects ]|]).
  apply prepareMinimumProtocolVersion_respects.
Qed.

(* ===================================================================== *)
(** ** The code and the rules of section 4.2                              *)
(* ===================================================================== *)

Lemma walk_undef (path : list string) : Lodash.walk VUndef path = VUndef.
Proof. destruct path; reflexivity. Qed.

Lemma walk_at_path (path : list string) :
  forallb plain_key path = true ->
  forall m, Lodash.walk m path = Spec.at_path m path.
Proof.
  induction path as [|k rest IH]; intros Hp m; [reflexivity|].
  cbn [forallb] in Hp. apply andb_prop in Hp. destruct Hp as [Hk Hrest].
  unfold plain_key in Hk. apply andb_prop in Hk. destruct Hk as [Hlen Hidx].
  apply negb_true_iff in Hlen, Hidx. unfold is_index in Hidx.
  destruct (index_of_key k) eqn:Ei; [discriminate|].
  cbn [Lodash.walk Spec.at_path].
  destruct m as [| |b|n|s|es|ps]; try reflexivity.
  - apply walk_undef.
  - apply walk_undef.
  - cbn [get_prop]. rewrite Hlen, Ei. apply walk_undef.
  - cbn [get_prop]. rewrite Hlen, Ei. apply walk_undef.
  - cbn [get_prop]. destruct (lookup k ps); [apply IH; assumption|].
    apply walk_undef.
Qed.

(** [getConfig] is the ConfigAccessor of 4.1 on the configuration map. *)
Lemma getConfig_accessor (this : plugin) (configMap : value)
      (field : string) (path : list string) (d : value) :
  configured this configMap ->
  Lodash.split_dots field = path ->
  forallb plain_key path = true ->
  getConfig this field d = Spec.accessor configMap path d.
Proof.
  intros Hc <- Hp.
  rewrite (getConfig_walk _ _ _ _ Hc), (walk_at_path _ Hp). reflexivity.
Qed.

Lemma accessor_defined (configMap : value) (path : list string) (d : value) :
  is_undefined d = false ->
  is_undefined (Spec.accessor configMap path d) = false.
Proof.
  intros Hd. unfold Spec.accessor; cbv zeta.
  destruct (is_undefined (Spec.at_path configMap path)) eqn:E; assumption.
Qed.

Lemma present_default (configMap : value) (path : list string) (d : value) :
  is_undefined d = false ->
  Spec.present (Spec.accessor configMap path d)
  = negb (is_null (Spec.accessor configMap path d)).
Proof.
  intros Hd. unfold Spec.present. rewrite (accessor_defined _ _ _ Hd).
  reflexivity.
Qed.

Lemma truthy_present (v : value) :
  negb (Spec.present v) || truthy v = true -> truthy v = Spec.present v.
Proof.
  unfold Spec.present.
  destruct v; simpl; intros H; try reflexivity; rewrite H; reflexivity.
Qed.

(** A second assignment to the same field replaces the first. *)
Lemma assign_in_twice (path : list string) :
  forall (o o1 : value) (k : string) (a b : value),
    assign_in o path k a = Ok o1 ->
    assign_in o1 path k b = assign_in o path k b.
Proof.
  induction path as [|p rest IH]; intros o o1 k a b H.
  - cbn [assign_in] in H |- *. apply set_prop_ok in H.
    destruct H as [ps [-> ->]]. cbn [set_prop].
    rewrite upsert_upsert. reflexivity.
  - cbn [assign_in] in H |- *. bind_inv H. bind_inv H. injection H as <-.
    destruct (assign_in_container _ _ _ _ _ Hstep0) as [Hc Hc'].
    rewrite (get_put_same _ _ _ _ Hstep Hc). cbn [bind].
    rewrite Hstep. cbn [bind].
    rewrite (IH _ _ _ _ _ Hstep0).
    destruct (assign_in r rest k b) as [c|e]; [|reflexivity].
    cbn [bind]. rewrite put_put. reflexivity.
Qed.

Lemma insert_indexed_cons (i : nat) (e : string * value)
      (l : list (nat * (string * value))) :
  insert_indexed i e l <> [].
Proof.
  destruct l as [|[j e'] rest]; simpl; [discriminate|].
  destruct (Nat.leb j i); discriminate.
Qed.

Lemma entries_cons (kv : string * value) (ps : list (string * value)) :
  exists k v rest, entries (VObj (kv :: ps)) = (k, v) :: rest.
Proof.
  destruct kv as [k0 v0]. unfold entries, named_props, is_index.
  cbn [indexed_props filter fst].
  destruct (index_of_key k0) as [i|]; cbn [negb].
  - destruct (insert_indexed i (k0, v0) (indexed_props ps))
      as [|[j [k v]] rest] eqn:E.
    + exfalso. exact (insert_indexed_cons _ _ _ E).
    + cbn [map snd List.app]. eauto.
  - destruct (map snd (indexed_props ps)) as [|[k v] rest];
      cbn [List.app]; eauto.
Qed.

Lemma header_of_first (e : value) (k : string) (v : value)
      (rest : list (string * value)) :
  entries e = (k, v) :: rest ->
  Lodash.zipObject ["HeaderName"; "HeaderValue"]
                   (Lodash.head (Lodash.toPairs e))
  = Spec.header_pair e.
Proof.
  intros E. unfold Lodash.toPairs, Spec.header_pair. rewrite E.
  reflexivity.
Qed.

Lemma veq_get_path (q : list string) :
  forall a b, veq a b -> result_eq (get_path a q) (get_path b q).
Proof.
  induction q as [|p rest IH]; intros a b H; cbn [get_path].
  - constructor. assumption.
  - apply result_eq_bind; [apply get_prop_veq; assumption|].
    intros x y Hxy. apply IH. assumption.
Qed.

Section Refinement.

Variable this : plugin.
Variable configMap : value.
Variables stage name : string.

Hypothesis Hconfig : configured this configMap.
Hypothesis Htyped : Spec.well_typed configMap = true.
Hypothesis Hstage : get_prop (options this) "stage" = Ok (VStr stage).
Hypothesis Hname : apiGatewayName this = VStr name.

Ltac link f p :=
  rewrite (getConfig_accessor this configMap f p _ Hconfig eq_refl eq_refl).

Lemma typed_httpApi :
  exists b, Spec.accessor configMap ["httpApi"] (VBool false) = VBool b.
Proof.
  unfold Spec.well_typed in Htyped.
  repeat (apply andb_prop in Htyped; destruct Htyped as [Htyped _]).
  destruct (Spec.accessor configMap ["httpApi"] (VBool false));
    try discriminate; eauto.
Qed.

Lemma Logging_eq (d : value) :
  prepareLogging this d = Spec.Logging configMap d.
Proof.
  unfold prepareLogging, Spec.Logging, Spec.setting; cbv zeta.
  link "logging.bucket" ["logging"; "bucket"].
  link "logging.prefix" ["logging"; "prefix"].
  rewrite (present_default _ _ _ (eq_refl : is_undefined VNull = false)).
  reflexivity.
Qed.

Lemma Domain_eq (d : value) :
  prepareDomain this d = Spec.Domain configMap d.
Proof.
  unfold prepareDomain, Spec.Domain, Spec.setting; cbv zeta.
  link "domain" ["domain"]. link "httpApi" ["httpApi"].
  rewrite (present_default _ _ _ (eq_refl : is_undefined VNull = false)).
  destruct typed_httpApi as [b ->].
  destruct b; reflexivity.
Qed.

Lemma PriceClass_eq (d : value) :
  preparePriceClass this d = Spec.PriceClass configMap d.
Proof.
  unfold preparePriceClass, Spec.PriceClass, Spec.setting; cbv zeta.
  link "priceClass" ["priceClass"]. reflexivity.
Qed.

Lemma customHeaders_pairs :
  customHeaders this =
  Ok (match Spec.accessor configMap ["originCustomHeaders"] (VArr []) with
      | VArr es => VArr (map Spec.header_pair es)
      | _ => VArr []
      end).
Proof.
  unfold customHeaders. link "originCustomHeaders" ["originCustomHeaders"].
  unfold Spec.well_typed in Htyped.
  do 4 (apply andb_prop in Htyped; destruct Htyped as [Htyped _]).
  apply andb_prop in Htyped. destruct Htyped as [_ Hh].
  destruct (Spec.accessor configMap ["originCustomHeaders"] (VArr []))
    as [| |b|n|s|es|ps]; try discriminate.
  cbn [array_map bind]. rewrite !map_map. f_equal. f_equal.
  apply map_ext_in. intros e Hin.
  rewrite forallb_forall in Hh. specialize (Hh e Hin).
  destruct e as [| |b|n|s|es'|[|kv ps]]; try discriminate.
  destruct (entries_cons kv ps) as [k [v [rest E]]].
  exact (header_of_first _ _ _ _ E).
Qed.

Lemma Origins_forward (d d' : value) :
  prepareOrigins this d = Ok d' -> Spec.Origins configMap stage d = Ok d'.
Proof.
  intros H.
  destruct (prepareOrigins_assigns _ _ _ H)
    as [headers [path [path' [Hh [Hp [Hp' Hchain]]]]]].
  rewrite customHeaders_pairs in Hh. injection Hh as <-.
  unfold originPath, stagePath in Hp, Hp'. rewrite Hstage in Hp, Hp'.
  cbn [bind toString] in Hp, Hp'.
  rewrite (getConfig_accessor this configMap "httpApi" ["httpApi"] _
                              Hconfig eq_refl eq_refl) in Hp'.
  unfold Spec.Origins, Spec.setting; cbv zeta.
  destruct typed_httpApi as [b Eb]. rewrite Eb in Hp' |- *.
  bind_inv Hchain. bind_inv Hchain.
  rewrite Hstep. cbn [bind].
  rewrite (assign_in_twice _ _ _ _ _ _ Hstep0) in Hchain.
  rewrite <- Hchain. f_equal.
  destruct b; cbn [truthy is_true] in Hp' |- *; congruence.
Qed.

Lemma Cookies_eq (d : value) :
  prepareCookies this d = Spec.Cookies configMap d.
Proof.
  unfold prepareCookies, Spec.Cookies, Spec.setting; cbv zeta.
  link "cookies" ["cookies"].
  destruct (isArray (Spec.accessor configMap ["cookies"] (VStr "all")));
    [reflexivity | apply bind_ret].
Qed.

Lemma Headers_eq (d : value) :
  prepareHeaders this d = Spec.Headers configMap d.
Proof.
  unfold prepareHeaders, Spec.Headers, Spec.setting; cbv zeta.
  link "headers" ["headers"].
  destruct (isArray (Spec.accessor configMap ["headers"] (VStr "none")));
    reflexivity.
Qed.

Lemma Policies_eq (d : value) :
  preparePolicies this d = Spec.Policies configMap d.
Proof.
  unfold preparePolicies, Spec.Policies, Spec.setting; cbv zeta.
  link "cachePolicyId" ["cachePolicyId"].
  link "originRequestPolicyId" ["originRequestPolicyId"].
  unfold Spec.well_typed in Htyped.
  do 2 (apply andb_prop in Htyped; destruct Htyped as [Htyped _]).
  apply andb_prop in Htyped. destruct Htyped as [Htyped Ho].
  apply andb_prop in Htyped. destruct Htyped as [_ Hcache].
  cbv zeta in Ho, Hcache.
  rewrite (truthy_present _ Ho), (truthy_present _ Hcache). reflexivity.
Qed.

Lemma TTL_eq (d : value) :
  prepareTTL this d = Spec.TTL configMap d.
Proof.
  unfold prepareTTL, Spec.TTL, Spec.setting; cbv zeta.
  link "ttl" ["ttl"].
  unfold Spec.well_typed in Htyped.
  apply andb_prop in Htyped. destruct Htyped as [Htyped _].
  apply andb_prop in Htyped. destruct Htyped as [_ Httl].
  destruct (Spec.accessor configMap ["ttl"] VNull); try discriminate;
    reflexivity.
Qed.

Lemma QueryString_eq (d : value) :
  prepareQueryString this d = Spec.QueryString configMap d.
Proof.
  unfold prepareQueryString, Spec.QueryString, Spec.setting; cbv zeta.
  link "querystring" ["querystring"].
  destruct (isArray (Spec.accessor configMap ["querystring"] (VStr "all")));
    [reflexivity|].
  destruct (is_string "all"
              (Spec.accessor configMap ["querystring"] (VStr "all")));
    reflexivity.
Qed.

Lemma Comment_eq (d : value) :
  prepareComment this d = Spec.Comment name d.
Proof.
  unfold prepareComment, Spec.Comment; cbv zeta. rewrite Hname. reflexivity.
Qed.

Lemma Certificate_eq (d : value) :
  prepareCertificate this d = Spec.Certificate configMap d.
Proof.
  unfold prepareCertificate, Spec.Certificate, Spec.setting; cbv zeta.
  link "certificate" ["certificate"].
  rewrite (present_default _ _ _ (eq_refl : is_undefined VNull = false)).
  reflexivity.
Qed.

Lemma WAF_eq (d : value) :
  prepareWaf this d = Spec.WAF configMap d.
Proof.
  unfold prepareWaf, Spec.WAF, Spec.setting; cbv zeta.
  link "waf" ["waf"].
  rewrite (present_default _ _ _ (eq_refl : is_undefined VNull = false)).
  reflexivity.
Qed.

Lemma Compress_eq (d : value) :
  prepareCompress this d = Spec.Compress configMap d.
Proof.
  unfold prepareCompress, Spec.Compress, Spec.setting; cbv zeta.
  link "compress" ["compress"].
  destruct (is_true (Spec.accessor configMap ["compress"] (VBool false)));
    reflexivity.
Qed.

Lemma MinimumProtocolVersion_forward (d d' : value) :
  prepareMinimumProtocolVersion this d = Ok d' ->
  Spec.MinimumProtocolVersion configMap d = Ok d'.
Proof.
  unfold prepareMinimumProtocolVersion, Spec.MinimumProtocolVersion,
    Spec.setting; cbv zeta.
  link "minimumProtocolVersion" ["minimumProtocolVersion"].
  unfold Spec.well_typed in Htyped.
  apply andb_prop in Htyped. destruct Htyped as [_ Hv]. cbv zeta in Hv.
  rewrite (truthy_present _ Hv).
  destruct (Spec.present
              (Spec.accessor configMap ["minimumProtocolVersion"] VUndef));
    [|intros H; exact H].
  intros H. cbn [andb].
  assert (Hp : has_property d "ViewerCertificate" = true).
  { cbn [assign_in] in H. bind_inv H. bind_inv H.
    apply set_prop_ok in Hstep0. destruct Hstep0 as [ps [-> _]].
    destruct (get_prop_container _ _ _ Hstep eq_refl)
      as [[qs [-> Hl]] | [es [i [-> [_ [Hi _]]]]]].
    - cbn [has_property]. rewrite Hl. reflexivity.
    - vm_compute in Hi. discriminate. }
  rewrite Hp. exact H.
Qed.

Lemma rules_forward (d d' : value) :
  applyRules_policies_first this d = Ok d' ->
  Spec.rules configMap stage name d = Ok d'.
Proof.
  unfold applyRules_policies_first, Spec.rules. intros H.
  bind_inv H. rewrite <- Logging_eq, Hstep. cbn [bind]. clear Hstep.
  bind_inv H. rewrite <- Domain_eq, Hstep. cbn [bind]. clear Hstep.
  bind_inv H. rewrite <- PriceClass_eq, Hstep. cbn [bind]. clear Hstep.
  bind_inv H. rewrite (Origins_forward _ _ Hstep). cbn [bind]. clear Hstep.
  bind_inv H. rewrite <- Cookies_eq, Hstep. cbn [bind]. clear Hstep.
  bind_inv H. rewrite <- Headers_eq, Hstep. cbn [bind]. clear Hstep.
  bind_inv H. rewrite <- Policies_eq, Hstep. cbn [bind]. clear Hstep.
  bind_inv H. rewrite <- TTL_eq, Hstep. cbn [bind]. clear Hstep.
  bind_inv H. rewrite <- QueryString_eq, Hstep. cbn [bind]. clear Hstep.
  bind_inv H. rewrite <- Comment_eq, Hstep. cbn [bind]. clear Hstep.
  bind_inv H. rewrite <- Certificate_eq, Hstep. cbn [bind]. clear Hstep.
  bind_inv H. rewrite <- WAF_eq, Hstep. cbn [bind]. clear Hstep.
  bind_inv H. rewrite <- Compress_eq, Hstep. cbn [bind]. clear Hstep.
  exact (MinimumProtocolVersion_forward _ _ H).
Qed.

End Refinement.

(* ===================================================================== *)
(** ** The order of the rules                                             *)
(* ===================================================================== *)

(** C3 (amended).  [prepareResources] runs TTL before Policies, tests the
    policy ids, [ttl], [httpApi] and [minimumProtocolVersion] for
    truthiness, and throws where rule 14 of section 4.2 drops the
    setting.  For every base template, every configuration map of the
    types that the rules expect ([Spec.well_typed]) and every stage:
    whenever [prepareResources] returns, the fourteen rules of section
    4.2, applied in the order in which it lists them (Logging, Domain,
    PriceClass, Origins, Cookies, Headers, Policies, TTL, QueryString,
    Comment, Certificate, WAF, Compress, MinimumProtocolVersion), return
    the same nested map. *)
Theorem prepareResources_is_spec_order
        (this : plugin) (configMap : value) (stage name : string)
        (resources resources' : value) :
  configured this configMap ->
  Spec.well_typed configMap = true ->
  get_prop (options this) "stage" = Ok (VStr stage) ->
  apiGatewayName this = VStr name ->
  prepareResources this resources = Ok resources' ->
  exists out,
    Spec.pipeline configMap stage name resources = Ok out /\
    veq resources' out.
Proof.
  intros Hc Hw Hstage Hname H. unfold prepareResources in H.
  bind_inv H. rename r into dc, Hstep into Hdc.
  bind_inv H. rename r into dc', Hstep into Hrules. injection H as <-.
  pose proof (applyRules_policies_first_eq this dc) as Heq.
  rewrite Hrules in Heq.
  inversion Heq as [a dc2 Hveq Ha Hfirst|]; subst a.
  symmetry in Hfirst.
  exists (put_path resources distributionConfigPath dc2). split.
  - unfold Spec.pipeline. rewrite Hdc. cbn [bind].
    rewrite (rules_forward this configMap stage name Hc Hw Hstage Hname
                           _ _ Hfirst).
    reflexivity.
  - exact (put_path_veq distributionConfigPath resources dc' dc2 Hveq).
Qed.

Lemma prepareResources_is_spec_order_witness :
  let configMap :=
    VObj [("domain", VStr "example.com");
          ("httpApi", VBool true);
          ("originCustomHeaders", VArr [VObj [("X-Api-Key", VStr "k")]]);
          ("ttl", VObj [("default", VNum 60); ("max", VNum 300);
                        ("min", VNum 0)]);
          ("cachePolicyId", VStr "658327ea-f89d-4fab-a63d-7e88639e58f6");
          ("certificate", VStr "arn:aws:acm:cert");
          ("minimumProtocolVersion", VStr "TLSv1.2_2021")] in
  let this := sample_plugin configMap "dev-api" "prod" in
  let out := returned (prepareResources this sample_resources) in
  configured this configMap /\
  Spec.well_typed configMap = true /\
  prepareResources this sample_resources = Ok out /\
  get_path out (distributionConfigPath
                  ++ ["DefaultCacheBehavior"; "CachePolicyId"])%list
  = Ok (VStr "658327ea-f89d-4fab-a63d-7e88639e58f6") /\
  get_path out (distributionConfigPath
                  ++ ["ViewerCertificate"; "MinimumProtocolVersion"])%list
  = Ok (VStr "TLSv1.2_2021") /\
  exists out',
    Spec.pipeline configMap "prod" "dev-api" sample_resources = Ok out' /\
    veq out out'.
Proof.
  intros configMap this out.
  assert (Hc : configured this configMap) by (split; reflexivity).
  split; [exact Hc|]. split; [reflexivity|]. split; [reflexivity|].
  split; [reflexivity|]. split; [reflexivity|].
  exact (prepareResources_is_spec_order
           this configMap "prod" "dev-api" sample_resources out
           Hc eq_refl eq_refl eq_refl eq_refl).
Defined.

(** C3 as stated fails: with [cachePolicyId: ""] the setting is present,
    so rule 7 of section 4.2 sets [CachePolicyId] to it; the code tests
    the setting for truthiness and leaves the field as the template has
    it (the sample template has none).  The two results are different
    nested maps. *)
Lemma spec_pipeline_sets_an_empty_policy_id :
  let configMap := VObj [("cachePolicyId", VStr "")] in
  let this := sample_plugin configMap "dev-api" "prod" in
  let field := (distributionConfigPath
                  ++ ["DefaultCacheBehavior"; "CachePolicyId"])%list in
  let out := returned (prepareResources this sample_resources) in
  let out' :=
    returned (Spec.pipeline configMap "prod" "dev-api" sample_resources) in
  configured this configMap /\
  prepareResources this sample_resources = Ok out /\
  Spec.pipeline configMap "prod" "dev-api" sample_resources = Ok out' /\
  get_path out field = Ok VUndef /\
  get_path out' field = Ok (VStr "") /\
  ~ veq out out'.
Proof.
  intros configMap this field out out'.
  assert (E : get_path out field = Ok VUndef) by reflexivity.
  assert (E' : get_path out' field = Ok (VStr "")) by reflexivity.
  split; [split; reflexivity|]. split; [reflexivity|].
  split; [reflexivity|]. split; [exact E|]. split; [exact E'|].
  intros Hveq. pose proof (veq_get_path field _ _ Hveq) as Hr.
  rewrite E, E' in Hr. inversion Hr as [a b Hab|]. inversion Hab.
Qed.

(** Where the code throws, rule 14 of section 4.2 drops the setting:
    with [minimumProtocolVersion] configured and no [certificate] the
    pipeline of section 4.2 returns a distribution config without
    [ViewerCertificate], and [prepareResources] throws. *)
Lemma spec_pipeline_drops_protocol_version :
  let configMap := VObj [("minimumProtocolVersion", VStr "TLSv1.2_2021")] in
  let this := sample_plugin configMap "dev-api" "prod" in
  let out' :=
    returned (Spec.pipeline configMap "prod" "dev-api" sample_resources) in
  Spec.well_typed configMap = true /\
  prepareResources this sample_resources = Err TypeError /\
  Spec.pipeline configMap "prod" "dev-api" sample_resources = Ok out' /\
  get_path out' (distributionConfigPath ++ ["ViewerCertificate"])%list
  = Ok VUndef.
Proof. repeat split; reflexivity. Qed.

(* ===================================================================== *)
(** ** Further properties of the rules                                    *)
(* ===================================================================== *)

Lemma prepareCookies_names (this : plugin) (a b : value) :
  prepareCookies this a = Ok b ->
  let cookies := getConfig this "cookies" (VStr "all") in
  get_path b ["DefaultCacheBehavior"; "ForwardedValues"; "Cookies";
              "WhitelistedNames"]
  = (if isArray cookies then Ok cookies
     else get_path a ["DefaultCacheBehavior"; "ForwardedValues"; "Cookies";
                      "WhitelistedNames"]).
Proof.
  unfold prepareCookies; cbv zeta. intros H. bind_inv H.
  pose proof (assign_in_frame
                ["DefaultCacheBehavior"; "ForwardedValues"; "Cookies"]
                _ _ _ _
                ["DefaultCacheBehavior"; "ForwardedValues"; "Cookies";
                 "WhitelistedNames"] Hstep eq_refl) as Hfr.
  destruct (isArray (getConfig this "cookies" (VStr "all"))).
  - reads H. reflexivity.
  - injection H as <-. exact Hfr.
Qed.

(** The Cookies rule, on the output of the pipeline.  A list of cookie
    names makes [Forward] "whitelist" and is stored as
    [WhitelistedNames]; any other value is stored as [Forward] as it is,
    and the [WhitelistedNames] of the template is neither set nor
    removed. *)
Lemma cookies_by_accessor (this : plugin) (resources resources' : value) :
  prepareResources this resources = Ok resources' ->
  let cookies := getConfig this "cookies" (VStr "all") in
  let block := ["DefaultCacheBehavior"; "ForwardedValues"; "Cookies"] in
  exists dc dc',
    get_path resources distributionConfigPath = Ok dc /\
    get_path resources' distributionConfigPath = Ok dc' /\
    (isArray cookies = true ->
     get_path dc' (block ++ ["Forward"])%list = Ok (VStr "whitelist") /\
     get_path dc' (block ++ ["WhitelistedNames"])%list = Ok cookies) /\
    (isArray cookies = false ->
     get_path dc' (block ++ ["Forward"])%list = Ok cookies /\
     get_path dc' (block ++ ["WhitelistedNames"])%list =
     get_path dc (block ++ ["WhitelistedNames"])%list).
Proof.
  intros H cookies block.
  destruct (prepareResources_inv _ _ _ H) as [dc [dc' [Hdc [Hrules Hdc']]]].
  exists dc, dc'. split; [assumption|]. split; [assumption|].
  destruct (rule_at this dc dc' 4 _ _ Hrules eq_refl)
    as [a [b [HR [Hbefore [_ [_ [Hafter _]]]]]]].
  pose proof (prepareCookies_forward _ _ _ HR) as Hf.
  pose proof (prepareCookies_names _ _ _ HR) as Hn.
  cbv zeta in Hf, Hn. unfold block. cbn [List.app].
  rewrite (Hafter ["DefaultCacheBehavior"; "ForwardedValues"; "Cookies";
                   "Forward"] eq_refl),
          (Hafter ["DefaultCacheBehavior"; "ForwardedValues"; "Cookies";
                   "WhitelistedNames"] eq_refl), Hf, Hn.
  rewrite (Hbefore ["DefaultCacheBehavior"; "ForwardedValues"; "Cookies";
                    "WhitelistedNames"] eq_refl).
  fold cookies.
  split; intros E; rewrite E; split; reflexivity.
Qed.

(** X1.  The Cookies rule, on the output of the pipeline.  When the
    configuration map holds a list of cookie names, [Forward] is
    "whitelist" and the list is stored as [WhitelistedNames]; when it
    holds any other value, that value is stored as [Forward] as it is,
    and when it holds none [Forward] is "all"; in these two cases the
    [WhitelistedNames] of the template is neither set nor removed. *)
Theorem cookies_forwarding
        (this : plugin) (settings : list (string * value))
        (resources resources' : value) :
  configured this (VObj settings) ->
  prepareResources this resources = Ok resources' ->
  let block := ["DefaultCacheBehavior"; "ForwardedValues"; "Cookies"] in
  exists dc dc',
    get_path resources distributionConfigPath = Ok dc /\
    get_path resources' distributionConfigPath = Ok dc' /\
    (forall names,
        lookup "cookies" settings = Some (VArr names) ->
        get_path dc' (block ++ ["Forward"])%list = Ok (VStr "whitelist") /\
        get_path dc' (block ++ ["WhitelistedNames"])%list
        = Ok (VArr names)) /\
    (forall v,
        lookup "cookies" settings = Some v ->
        isArray v = false -> is_undefined v = false ->
        get_path dc' (block ++ ["Forward"])%list = Ok v /\
        get_path dc' (block ++ ["WhitelistedNames"])%list =
        get_path dc (block ++ ["WhitelistedNames"])%list) /\
    (lookup "cookies" settings = None ->
     get_path dc' (block ++ ["Forward"])%list = Ok (VStr "all") /\
     get_path dc' (block ++ ["WhitelistedNames"])%list =
     get_path dc (block ++ ["WhitelistedNames"])%list).
Proof.
  intros Hc H block.
  pose proof (cookies_by_accessor this resources resources' H) as Hold.
  cbv zeta in Hold.
  rewrite (getConfig_lookup this settings "cookies" _ Hc eq_refl) in Hold.
  destruct Hold as [dc [dc' [Hdc [Hdc' [Hlist Hother]]]]].
  exists dc, dc'. split; [assumption|]. split; [assumption|].
  split; [|split].
  - intros names Hl. rewrite Hl in Hlist. exact (Hlist eq_refl).
  - intros v Hl Ha Hu. rewrite Hl, Hu in Hother. exact (Hother Ha).
  - intros Hl. rewrite Hl in Hother. exact (Hother eq_refl).
Qed.

Lemma cookies_forwarding_witness :
  let settings := [("cookies", VArr [VStr "session"])] in
  let this := sample_plugin (VObj settings) "dev-api" "prod" in
  let out := returned (prepareResources this sample_resources) in
  let block := (distributionConfigPath
                  ++ ["DefaultCacheBehavior"; "ForwardedValues";
                      "Cookies"])%list in
  configured this (VObj settings) /\
  getConfig this "cookies" (VStr "all") = VArr [VStr "session"] /\
  prepareResources this sample_resources = Ok out /\
  get_path out (block ++ ["Forward"])%list = Ok (VStr "whitelist") /\
  get_path out (block ++ ["WhitelistedNames"])%list
  = Ok (VArr [VStr "session"]).
Proof.
  intros settings this out block.
  assert (Hc : configured this (VObj settings)) by (split; reflexivity).
  destruct (cookies_forwarding this settings sample_resources out
                               Hc eq_refl)
    as [dc [dc' [_ [Hdc' [Hlist _]]]]].
  destruct (Hlist _ eq_refl) as [Hforward Hnames].
  split; [exact Hc|]. split; [reflexivity|]. split; [reflexivity|].
  unfold block. rewrite <- !app_assoc, !get_path_app, Hdc'.
  split; [exact Hforward | exact Hnames].
Defined.

Lemma prepareQueryString_keys (this : plugin) (a b : value) :
  prepareQueryString this a = Ok b ->
  let querystring := getConfig this "querystring" (VStr "all") in
  get_path b ["DefaultCacheBehavior"; "ForwardedValues";
              "QueryStringCacheKeys"]
  = (if isArray querystring then Ok querystring
     else get_path a ["DefaultCacheBehavior"; "ForwardedValues";
                      "QueryStringCacheKeys"]).
Proof.
  unfold prepareQueryString; cbv zeta. intros H.
  destruct (isArray (getConfig this "querystring" (VStr "all"))).
  - bind_inv H. reads H. reflexivity.
  - exact (assign_in_frame ["DefaultCacheBehavior"; "ForwardedValues"]
             _ _ _ _
             ["DefaultCacheBehavior"; "ForwardedValues";
              "QueryStringCacheKeys"] H eq_refl).
Qed.

(** The QueryString rule, on the output of the pipeline.  A list of
    names makes [QueryString] true and is stored as
    [QueryStringCacheKeys]; the string "all" makes [QueryString] true and
    every other value makes it false, and in both cases the
    [QueryStringCacheKeys] of the template is neither set nor removed. *)
Lemma querystring_by_accessor
        (this : plugin) (resources resources' : value) :
  prepareResources this resources = Ok resources' ->
  let querystring := getConfig this "querystring" (VStr "all") in
  let block := ["DefaultCacheBehavior"; "ForwardedValues"] in
  exists dc dc',
    get_path resources distributionConfigPath = Ok dc /\
    get_path resources' distributionConfigPath = Ok dc' /\
    (isArray querystring = true ->
     get_path dc' (block ++ ["QueryString"])%list = Ok (VBool true) /\
     get_path dc' (block ++ ["QueryStringCacheKeys"])%list = Ok querystring) /\
    (isArray querystring = false ->
     get_path dc' (block ++ ["QueryString"])%list =
       Ok (VBool (is_string "all" querystring)) /\
     get_path dc' (block ++ ["QueryStringCacheKeys"])%list =
     get_path dc (block ++ ["QueryStringCacheKeys"])%list).
Proof.
  intros H querystring block.
  destruct (prepareResources_inv _ _ _ H) as [dc [dc' [Hdc [Hrules Hdc']]]].
  exists dc, dc'. split; [assumption|]. split; [assumption|].
  destruct (rule_at this dc dc' 8 _ _ Hrules eq_refl)
    as [a [b [HR [Hbefore [_ [_ [Hafter _]]]]]]].
  pose proof (prepareQueryString_value _ _ _ HR) as Hv.
  pose proof (prepareQueryString_keys _ _ _ HR) as Hk.
  cbv zeta in Hv, Hk. unfold block. cbn [List.app].
  rewrite (Hafter ["DefaultCacheBehavior"; "ForwardedValues"; "QueryString"]
                  eq_refl),
          (Hafter ["DefaultCacheBehavior"; "ForwardedValues";
                   "QueryStringCacheKeys"] eq_refl), Hv, Hk.
  rewrite (Hbefore ["DefaultCacheBehavior"; "ForwardedValues";
                    "QueryStringCacheKeys"] eq_refl).
  fold querystring.
  split; intros E; rewrite E; split; reflexivity.
Qed.

(** X2.  The QueryString rule, on the output of the pipeline.  When the
    configuration map holds a list of names, [QueryString] is true and
    the list is stored as [QueryStringCacheKeys]; when it holds another
    value, [QueryString] is true for the string "all" and false
    otherwise, and when it holds none [QueryString] is true; in these two
    cases the [QueryStringCacheKeys] of the template is neither set nor
    removed. *)
Theorem querystring_forwarding
        (this : plugin) (settings : list (string * value))
        (resources resources' : value) :
  configured this (VObj settings) ->
  prepareResources this resources = Ok resources' ->
  let block := ["DefaultCacheBehavior"; "ForwardedValues"] in
  exists dc dc',
    get_path resources distributionConfigPath = Ok dc /\
    get_path resources' distributionConfigPath = Ok dc' /\
    (forall keys,
        lookup "querystring" settings = Some (VArr keys) ->
        get_path dc' (block ++ ["QueryString"])%list = Ok (VBool true) /\
        get_path dc' (block ++ ["QueryStringCacheKeys"])%list
        = Ok (VArr keys)) /\
    (forall v,
        lookup "querystring" settings = Some v ->
        isArray v = false -> is_undefined v = false ->
        get_path dc' (block ++ ["QueryString"])%list =
          Ok (VBool (is_string "all" v)) /\
        get_path dc' (block ++ ["QueryStringCacheKeys"])%list =
        get_path dc (block ++ ["QueryStringCacheKeys"])%list) /\
    (lookup "querystring" settings = None ->
     get_path dc' (block ++ ["QueryString"])%list = Ok (VBool true) /\
     get_path dc' (block ++ ["QueryStringCacheKeys"])%list =
     get_path dc (block ++ ["QueryStringCacheKeys"])%list).
Proof.
  intros Hc H block.
  pose proof (querystring_by_accessor this resources resources' H) as Hold.
  cbv zeta in Hold.
  rewrite (getConfig_lookup this settings "querystring" _ Hc eq_refl) in Hold.
  destruct Hold as [dc [dc' [Hdc [Hdc' [Hlist Hother]]]]].
  exists dc, dc'. split; [assumption|]. split; [assumption|].
  split; [|split].
  - intros keys Hl. rewrite Hl in Hlist. exact (Hlist eq_refl).
  - intros v Hl Ha Hu. rewrite Hl, Hu in Hother. exact (Hother Ha).
  - intros Hl. rewrite Hl in Hother. exact (Hother eq_refl).
Qed.

Lemma querystring_forwarding_witness :
  let settings := [("querystring", VArr [VStr "id"])] in
  let settings2 := [("querystring", VStr "none")] in
  let this := sample_plugin (VObj settings) "dev-api" "prod" in
  let this2 := sample_plugin (VObj settings2) "dev-api" "prod" in
  let out := returned (prepareResources this sample_resources) in
  let out2 := returned (prepareResources this2 sample_resources) in
  let block := (distributionConfigPath
                  ++ ["DefaultCacheBehavior"; "ForwardedValues"])%list in
  configured this (VObj settings) /\
  getConfig this "querystring" (VStr "all") = VArr [VStr "id"] /\
  prepareResources this sample_resources = Ok out /\
  get_path out (block ++ ["QueryString"])%list = Ok (VBool true) /\
  get_path out (block ++ ["QueryStringCacheKeys"])%list
  = Ok (VArr [VStr "id"]) /\
  configured this2 (VObj settings2) /\
  getConfig this2 "querystring" (VStr "all") = VStr "none" /\
  prepareResources this2 sample_resources = Ok out2 /\
  get_path out2 (block ++ ["QueryString"])%list = Ok (VBool false).
Proof.
  intros settings settings2 this this2 out out2 block.
  assert (Hc : configured this (VObj settings)) by (split; reflexivity).
  assert (Hc2 : configured this2 (VObj settings2)) by (split; reflexivity).
  destruct (querystring_forwarding this settings sample_resources out
                                   Hc eq_refl)
    as [dc [dc' [_ [Hdc' [Hlist _]]]]].
  destruct (Hlist _ eq_refl) as [Hflag Hkeys].
  destruct (querystring_forwarding this2 settings2 sample_resources out2
                                   Hc2 eq_refl)
    as [dc2 [dc2' [_ [Hdc2' [_ [Hother _]]]]]].
  destruct (Hother _ eq_refl eq_refl eq_refl) as [Hflag2 _].
  split; [exact Hc|]. split; [reflexivity|]. split; [reflexivity|].
  unfold block. rewrite <- !app_assoc, !get_path_app, Hdc', Hdc2'.
  split; [exact Hflag|]. split; [exact Hkeys|].
  split; [exact Hc2|]. split; [reflexivity|]. split; [reflexivity|].
  exact Hflag2.
Defined.

Lemma prepareTTL_values (this : plugin) (a b : value) :
  prepareTTL this a = Ok b ->
  let ttl := getConfig this "ttl" VNull in
  forall field key,
    In (field, key) [("DefaultTTL", "default"); ("MaxTTL", "max");
                     ("MinTTL", "min")] ->
    get_path b ["DefaultCacheBehavior"; field] =
    (if truthy ttl then get_prop ttl key
     else get_path a ["DefaultCacheBehavior"; field]).
Proof.
  unfold prepareTTL; cbv zeta. intros H field key Hin.
  destruct (truthy (getConfig this "ttl" VNull)) eqn:E.
  - rewrite (get_prop_truthy _ "default" E), (get_prop_truthy _ "max" E),
      (get_prop_truthy _ "min" E) in H.
    cbn [bind] in H. bind_inv H. bind_inv H.
    simpl in Hin.
    destruct Hin as [Hin | [Hin | [Hin | []]]]; injection Hin as <- <-;
      rewrite (get_prop_truthy _ _ E).
    + rewrite (assign_in_frame ["DefaultCacheBehavior"] _ _ _ _
                 ["DefaultCacheBehavior"; "DefaultTTL"] H eq_refl),
              (assign_in_frame ["DefaultCacheBehavior"] _ _ _ _
                 ["DefaultCacheBehavior"; "DefaultTTL"] Hstep0 eq_refl).
      exact (assign_in_get ["DefaultCacheBehavior"] _ _ _ _ Hstep).
    + rewrite (assign_in_frame ["DefaultCacheBehavior"] _ _ _ _
                 ["DefaultCacheBehavior"; "MaxTTL"] H eq_refl).
      exact (assign_in_get ["DefaultCacheBehavior"] _ _ _ _ Hstep0).
    + exact (assign_in_get ["DefaultCacheBehavior"] _ _ _ _ H).
  - injection H as <-. reflexivity.
Qed.

(** The TTL rule, on the output of the pipeline.  When [ttl] is
    configured (truthy), [DefaultTTL], [MaxTTL] and [MinTTL] are what
    [ttl.default], [ttl.max] and [ttl.min] read, so a key missing from
    [ttl] overwrites the template's value with [undefined]; when [ttl]
    is absent or falsy the three fields are as in the template. *)
Lemma ttl_by_accessor (this : plugin) (resources resources' : value) :
  prepareResources this resources = Ok resources' ->
  let ttl := getConfig this "ttl" VNull in
  exists dc dc',
    get_path resources distributionConfigPath = Ok dc /\
    get_path resources' distributionConfigPath = Ok dc' /\
    forall field key,
      In (field, key) [("DefaultTTL", "default"); ("MaxTTL", "max");
                       ("MinTTL", "min")] ->
      get_path dc' ["DefaultCacheBehavior"; field] =
      (if truthy ttl then get_prop ttl key
       else get_path dc ["DefaultCacheBehavior"; field]).
Proof.
  intros H ttl.
  destruct (prepareResources_inv _ _ _ H) as [dc [dc' [Hdc [Hrules Hdc']]]].
  exists dc, dc'. split; [assumption|]. split; [assumption|].
  destruct (rule_at this dc dc' 6 _ _ Hrules eq_refl)
    as [a [b [HR [Hbefore [_ [_ [Hafter _]]]]]]].
  intros field key Hin.
  pose proof (prepareTTL_values _ _ _ HR field key Hin) as Hv.
  simpl in Hin.
  destruct Hin as [Hin | [Hin | [Hin | []]]]; injection Hin as <- <-;
    match goal with
    | |- get_path dc' ?q = _ =>
        rewrite (Hafter q eq_refl), Hv, (Hbefore q eq_refl); reflexivity
    end.
Qed.

(** X3.  The TTL rule, on the output of the pipeline.  When the
    configuration map holds a truthy [ttl], [DefaultTTL], [MaxTTL] and
    [MinTTL] are what [ttl.default], [ttl.max] and [ttl.min] read, so a
    key missing from [ttl] overwrites the template's value with
    [undefined]; when [ttl] is absent from the map or falsy the three
    fields are as in the template. *)
Theorem ttl_fields
        (this : plugin) (settings : list (string * value))
        (resources resources' : value) :
  configured this (VObj settings) ->
  prepareResources this resources = Ok resources' ->
  exists dc dc',
    get_path resources distributionConfigPath = Ok dc /\
    get_path resources' distributionConfigPath = Ok dc' /\
    forall field key,
      In (field, key) [("DefaultTTL", "default"); ("MaxTTL", "max");
                       ("MinTTL", "min")] ->
      (forall ttl,
          lookup "ttl" settings = Some ttl -> truthy ttl = true ->
          get_path dc' ["DefaultCacheBehavior"; field] = get_prop ttl key) /\
      (lookup "ttl" settings = None \/
       (exists ttl, lookup "ttl" settings = Some ttl /\ truthy ttl = false) ->
       get_path dc' ["DefaultCacheBehavior"; field] =
       get_path dc ["DefaultCacheBehavior"; field]).
Proof.
  intros Hc H.
  pose proof (ttl_by_accessor this resources resources' H) as Hold.
  cbv zeta in Hold.
  rewrite (getConfig_lookup this settings "ttl" _ Hc eq_refl) in Hold.
  destruct Hold as [dc [dc' [Hdc [Hdc' Hfields]]]].
  exists dc, dc'. split; [assumption|]. split; [assumption|].
  intros field key Hin. specialize (Hfields field key Hin). split.
  - intros ttl Hl Ht. rewrite Hl in Hfields.
    assert (E : (if is_undefined ttl then VNull else ttl) = ttl)
      by (destruct ttl; try discriminate; reflexivity).
    rewrite E, Ht in Hfields. exact Hfields.
  - intros [Hl | [ttl [Hl Ht]]]; rewrite Hl in Hfields.
    + exact Hfields.
    + assert (E : truthy (if is_undefined ttl then VNull else ttl) = false)
        by (destruct ttl; try reflexivity; exact Ht).
      rewrite E in Hfields. exact Hfields.
Qed.

Lemma ttl_fields_witness :
  let settings := [("ttl", VObj [("default", VNum 60)])] in
  let this := sample_plugin (VObj settings) "dev-api" "prod" in
  let out := returned (prepareResources this sample_resources) in
  let block := (distributionConfigPath ++ ["DefaultCacheBehavior"])%list in
  configured this (VObj settings) /\
  getConfig this "ttl" VNull = VObj [("default", VNum 60)] /\
  prepareResources this sample_resources = Ok out /\
  get_path out (block ++ ["DefaultTTL"])%list = Ok (VNum 60) /\
  get_path out (block ++ ["MinTTL"])%list = Ok VUndef.
Proof.
  intros settings this out block.
  assert (Hc : configured this (VObj settings)) by (split; reflexivity).
  destruct (ttl_fields this settings sample_resources out Hc eq_refl)
    as [dc [dc' [_ [Hdc' Hfields]]]].
  destruct (Hfields "DefaultTTL" "default" (or_introl eq_refl))
    as [Hdefault _].
  destruct (Hfields "MinTTL" "min" (or_intror (or_intror (or_introl eq_refl))))
    as [Hmin _].
  split; [exact Hc|]. split; [reflexivity|]. split; [reflexivity|].
  unfold block. rewrite <- !app_assoc, !get_path_app, Hdc'.
  split.
  - exact (Hdefault _ eq_refl eq_refl).
  - exact (Hmin _ eq_refl eq_refl).
Defined.

(** A run of the pipeline cut at two rules [x] and [y]: [x] took [a] to
    [b], the rules between them took [b] to [c], and [y] took [c] to
    [d]; each stretch leaves alone what parts ways with its fields. *)
Lemma rules_at2 (this : plugin) (dc dc' : value)
      (l1 l2 l3 : list ((value -> result value) * list (list string)))
      (x y : (value -> result value) * list (list string)) :
  applyRules this dc = Ok dc' ->
  rules this = (l1 ++ x :: l2 ++ y :: l3)%list ->
  exists a b c d,
    fst x a = Ok b /\ fst y c = Ok d /\
    (forall q, untouched (fields_of l1) q = true ->
               get_path a q = get_path dc q) /\
    (forall q, untouched (fields_of l2) q = true ->
               get_path c q = get_path b q) /\
    (forall q, untouched (fields_of l3) q = true ->
               get_path dc' q = get_path d q).
Proof.
  intros H Hsplit. rewrite applyRules_run in H.
  pose proof (rules_frames this) as HF. rewrite Hsplit in H, HF.
  apply Forall_app in HF. destruct HF as [HF1 HF].
  apply Forall_cons_iff in HF. destruct HF as [_ HF].
  apply Forall_app in HF. destruct HF as [HF2 HF].
  apply Forall_cons_iff in HF. destruct HF as [_ HF3].
  rewrite map_app in H. apply run_app in H. destruct H as [a [H1 H]].
  cbn [map run] in H. bind_inv H.
  rewrite map_app in H. apply run_app in H. destruct H as [c [H2 H]].
  cbn [map run] in H. bind_inv H.
  exists a, r, c, r0. repeat split; auto.
  - exact (proj1 (run_frames _ HF1 _ _ H1)).
  - exact (proj1 (run_frames _ HF2 _ _ H2)).
  - exact (proj1 (run_frames _ HF3 _ _ H)).
Qed.

(** X4.  The ViewerCertificate block, on the output of the pipeline, when
    [certificate] is configured: [AcmCertificateArn] is the certificate,
    [MinimumProtocolVersion] is the configured version when that is set
    (truthy) and the template's otherwise, and every other field of the
    block is as in the template. *)
Theorem viewer_certificate_fields
        (this : plugin) (resources resources' : value) :
  prepareResources this resources = Ok resources' ->
  let certificate := getConfig this "certificate" VNull in
  let version := getConfig this "minimumProtocolVersion" VUndef in
  is_null certificate = false ->
  exists dc dc',
    get_path resources distributionConfigPath = Ok dc /\
    get_path resources' distributionConfigPath = Ok dc' /\
    get_path dc' ["ViewerCertificate"; "AcmCertificateArn"] = Ok certificate /\
    get_path dc' ["ViewerCertificate"; "MinimumProtocolVersion"] =
      (if truthy version then Ok version
       else get_path dc ["ViewerCertificate"; "MinimumProtocolVersion"]) /\
    (forall k rest,
        String.eqb "AcmCertificateArn" k = false ->
        String.eqb "MinimumProtocolVersion" k = false ->
        get_path dc' ("ViewerCertificate" :: k :: rest) =
        get_path dc ("ViewerCertificate" :: k :: rest)).
Proof.
  intros H certificate version Hcert.
  destruct (prepareResources_inv _ _ _ H) as [dc [dc' [Hdc [Hrules Hdc']]]].
  exists dc, dc'. split; [assumption|]. split; [assumption|].
  destruct (rules_at2 this dc dc'
              (firstn 10 (rules this))
              (firstn 2 (skipn 11 (rules this))) []
              (prepareCertificate this, fields_Certificate)
              (prepareMinimumProtocolVersion this,
               fields_MinimumProtocolVersion)
              Hrules eq_refl)
    as [a [b [c [d [Hx [Hy [H1 [H2 H3]]]]]]]].
  cbn [fst] in Hx, Hy.
  unfold prepareCertificate in Hx; cbv zeta in Hx.
  fold certificate in Hx. rewrite Hcert in Hx. cbn [negb] in Hx.
  unfold prepareMinimumProtocolVersion in Hy; cbv zeta in Hy.
  fold version in Hy.
  assert (Hframe : forall q,
             diverge ["ViewerCertificate"; "AcmCertificateArn"] q = true ->
             untouched (fields_of (firstn 10 (rules this))) q = true ->
             untouched (fields_of (firstn 2 (skipn 11 (rules this)))) q
             = true ->
             get_path c q = get_path dc q).
  { intros q Hq Hq1 Hq2.
    rewrite (H2 q Hq2), <- (H1 q Hq1).
    exact (assign_in_frame ["ViewerCertificate"] _ _ _ _ q Hx Hq). }
  repeat split.
  - rewrite (H3 _ eq_refl).
    destruct (truthy version).
    + rewrite (assign_in_frame ["ViewerCertificate"] _ _ _ _
                 ["ViewerCertificate"; "AcmCertificateArn"] Hy eq_refl).
      rewrite (H2 ["ViewerCertificate"; "AcmCertificateArn"] eq_refl).
      exact (assign_in_get ["ViewerCertificate"] _ _ _ _ Hx).
    + injection Hy as <-.
      rewrite (H2 ["ViewerCertificate"; "AcmCertificateArn"] eq_refl).
      exact (assign_in_get ["ViewerCertificate"] _ _ _ _ Hx).
  - rewrite (H3 _ eq_refl).
    destruct (truthy version).
    + exact (assign_in_get ["ViewerCertificate"] _ _ _ _ Hy).
    + injection Hy as <-.
      exact (Hframe ["ViewerCertificate"; "MinimumProtocolVersion"]
                    eq_refl eq_refl eq_refl).
  - intros k rest Hk1 Hk2. rewrite (H3 _ eq_refl).
    assert (Hc : get_path c ("ViewerCertificate" :: k :: rest) =
                 get_path dc ("ViewerCertificate" :: k :: rest)).
    { apply Hframe; [|reflexivity|reflexivity].
      cbn [diverge List.app]. rewrite String.eqb_refl, Hk1. reflexivity. }
    destruct (truthy version).
    + rewrite <- Hc.
      apply (assign_in_frame ["ViewerCertificate"] _ _ _ _ _ Hy).
      cbn [diverge List.app]. rewrite String.eqb_refl, Hk2. reflexivity.
    + injection Hy as <-. exact Hc.
Qed.

Lemma viewer_certificate_fields_witness :
  let this :=
    sample_plugin (VObj [("certificate", VStr "arn:aws:acm:cert");
                         ("minimumProtocolVersion", VStr "TLSv1.2_2021")])
                  "dev-api" "prod" in
  let out := returned (prepareResources this sample_resources) in
  let certificate := getConfig this "certificate" VNull in
  let version := getConfig this "minimumProtocolVersion" VUndef in
  prepareResources this sample_resources = Ok out /\
  is_null certificate = false /\
  exists dc dc',
    get_path sample_resources distributionConfigPath = Ok dc /\
    get_path out distributionConfigPath = Ok dc' /\
    get_path dc' ["ViewerCertificate"; "AcmCertificateArn"] = Ok certificate /\
    get_path dc' ["ViewerCertificate"; "MinimumProtocolVersion"] =
      (if truthy version then Ok version
       else get_path dc ["ViewerCertificate"; "MinimumProtocolVersion"]) /\
    (forall k rest,
        String.eqb "AcmCertificateArn" k = false ->
        String.eqb "MinimumProtocolVersion" k = false ->
        get_path dc' ("ViewerCertificate" :: k :: rest) =
        get_path dc ("ViewerCertificate" :: k :: rest)).
Proof.
  intros this out certificate version.
  split; [reflexivity|]. split; [reflexivity|].
  apply (viewer_certificate_fields this sample_resources out); reflexivity.
Defined.

(** X5.  The Logging block, on the output of the pipeline, when
    [logging.bucket] is configured: [Bucket] is the bucket, [Prefix] is
    [logging.prefix] or the empty string when that is absent, and every
    other field of the block is as in the template. *)
Theorem logging_fields (this : plugin) (resources resources' : value) :
  prepareResources this resources = Ok resources' ->
  let bucket := getConfig this "logging.bucket" VNull in
  is_null bucket = false ->
  exists dc dc',
    get_path resources distributionConfigPath = Ok dc /\
    get_path resources' distributionConfigPath = Ok dc' /\
    get_path dc' ["Logging"; "Bucket"] = Ok bucket /\
    get_path dc' ["Logging"; "Prefix"] =
      Ok (getConfig this "logging.prefix" (VStr "")) /\
    (getConfig this "logging.prefix" VUndef = VUndef ->
     get_path dc' ["Logging"; "Prefix"] = Ok (VStr "")) /\
    (forall k rest,
        String.eqb "Bucket" k = false -> String.eqb "Prefix" k = false ->
        get_path dc' ("Logging" :: k :: rest) =
        get_path dc ("Logging" :: k :: rest)).
Proof.
  intros H bucket Hbucket.
  destruct (prepareResources_inv _ _ _ H) as [dc [dc' [Hdc [Hrules Hdc']]]].
  exists dc, dc'. split; [assumption|]. split; [assumption|].
  destruct (rule_at this dc dc' 0 _ _ Hrules eq_refl)
    as [a [b [HR [Hbefore [_ [_ [Hafter _]]]]]]].
  destruct (prepareLogging_block _ _ _ HR) as [_ Hset].
  destruct (Hset Hbucket) as [Hb Hp].
  assert (Ha : a = dc).
  { pose proof (Hbefore [] eq_refl) as E. simpl in E. congruence. }
  subst a.
  repeat split.
  - rewrite (Hafter ["Logging"; "Bucket"] eq_refl). exact Hb.
  - rewrite (Hafter ["Logging"; "Prefix"] eq_refl). exact Hp.
  - intros Habs. rewrite (Hafter ["Logging"; "Prefix"] eq_refl), Hp.
    rewrite (getConfig_absent _ _ _ Habs). reflexivity.
  - intros k rest Hk1 Hk2.
    rewrite (Hafter ("Logging" :: k :: rest) eq_refl).
    unfold prepareLogging in HR; cbv zeta in HR.
    fold bucket in HR. rewrite Hbucket in HR. cbn [negb] in HR.
    bind_inv HR.
    rewrite (assign_in_frame ["Logging"] _ _ _ _ ("Logging" :: k :: rest) HR),
            (assign_in_frame ["Logging"] _ _ _ _ ("Logging" :: k :: rest)
                             Hstep);
      try reflexivity;
      cbn [diverge List.app]; rewrite String.eqb_refl;
      [rewrite Hk1 | rewrite Hk2]; reflexivity.
Qed.

Lemma logging_fields_witness :
  let this :=
    sample_plugin (VObj [("logging", VObj [("bucket", VStr "logs.s3")])])
                  "dev-api" "prod" in
  let out := returned (prepareResources this sample_resources) in
  let bucket := getConfig this "logging.bucket" VNull in
  prepareResources this sample_resources = Ok out /\
  is_null bucket = false /\
  exists dc dc',
    get_path sample_resources distributionConfigPath = Ok dc /\
    get_path out distributionConfigPath = Ok dc' /\
    get_path dc' ["Logging"; "Bucket"] = Ok bucket /\
    get_path dc' ["Logging"; "Prefix"] =
      Ok (getConfig this "logging.prefix" (VStr "")) /\
    (getConfig this "logging.prefix" VUndef = VUndef ->
     get_path dc' ["Logging"; "Prefix"] = Ok (VStr "")) /\
    (forall k rest,
        String.eqb "Bucket" k = false -> String.eqb "Prefix" k = false ->
        get_path dc' ("Logging" :: k :: rest) =
        get_path dc ("Logging" :: k :: rest)).
Proof.
  intros this out bucket.
  split; [reflexivity|]. split; [reflexivity|].
  apply (logging_fields this sample_resources out); reflexivity.
Defined.

(** The origin points at one API gateway: when [httpApi] is truthy the
    origin's [DomainName] refers to the resource [HttpApi] and its
    [OriginPath] is empty; otherwise [DomainName] refers to
    [ApiGatewayRestApi] and [OriginPath] is "/" followed by the stage.
    The two fields are written by two rules from the same setting and
    never disagree. *)
Lemma origin_gateway_by_accessor
        (this : plugin) (resources resources' : value) (stage : string) :
  prepareResources this resources = Ok resources' ->
  get_prop (options this) "stage" = Ok (VStr stage) ->
  let httpApi := getConfig this "httpApi" (VBool false) in
  let ref := ["Origins"; "0"; "DomainName"; "Fn::Join"; "1"; "0"; "Ref"] in
  let path := ["Origins"; "0"; "OriginPath"] in
  exists dc',
    get_path resources' distributionConfigPath = Ok dc' /\
    (truthy httpApi = true ->
     get_path dc' ref = Ok (VStr "HttpApi") /\
     get_path dc' path = Ok (VStr "")) /\
    (truthy httpApi = false ->
     get_path dc' ref = Ok (VStr "ApiGatewayRestApi") /\
     get_path dc' path = Ok (VStr ("/" ++ stage))).
Proof.
  intros H Hstage httpApi ref path.
  destruct (prepareResources_inv _ _ _ H) as [dc [dc' [Hdc [Hrules Hdc']]]].
  exists dc'. split; [assumption|].
  destruct (rule_at this dc dc' 1 _ _ Hrules eq_refl)
    as [a1 [b1 [HR1 [_ [_ [_ [Hafter1 _]]]]]]].
  destruct (rule_at this dc dc' 3 _ _ Hrules eq_refl)
    as [a3 [b3 [HR3 [_ [_ [_ [Hafter3 _]]]]]]].
  assert (Hname : get_path dc' ["Origins"; "0"; "DomainName"] =
                  Ok (originDomainName httpApi)).
  { rewrite (Hafter1 ["Origins"; "0"; "DomainName"] eq_refl).
    exact (prepareDomain_domainName _ _ _ HR1). }
  assert (Href : get_path dc' ref =
                 Ok (js_or (js_and httpApi (VStr "HttpApi"))
                           (VStr "ApiGatewayRestApi"))).
  { change ref with (["Origins"; "0"; "DomainName"]
                       ++ ["Fn::Join"; "1"; "0"; "Ref"])%list.
    rewrite get_path_app, Hname. reflexivity. }
  assert (Hpath : get_path dc' path = originPath this).
  { unfold path. rewrite (Hafter3 ["Origins"; "0"; "OriginPath"] eq_refl).
    symmetry. exact (prepareOrigins_path _ _ _ HR3). }
  rewrite Href, Hpath. unfold originPath, stagePath, js_or, js_and.
  fold httpApi. rewrite Hstage.
  split; intros E; repeat rewrite E; cbn [truthy bind]; repeat rewrite E;
    split; reflexivity.
Qed.

(** X6.  The origin points at one API gateway: when the configuration
    map holds a truthy [httpApi] the origin's [DomainName] refers to the
    resource [HttpApi] and its [OriginPath] is empty; when [httpApi] is
    absent from the map or falsy, [DomainName] refers to
    [ApiGatewayRestApi] and [OriginPath] is "/" followed by the stage.
    The two fields are written by two rules from the same setting and
    never disagree. *)
Theorem origin_targets_one_gateway
        (this : plugin) (settings : list (string * value))
        (resources resources' : value) (stage : string) :
  configured this (VObj settings) ->
  prepareResources this resources = Ok resources' ->
  get_prop (options this) "stage" = Ok (VStr stage) ->
  let ref := ["Origins"; "0"; "DomainName"; "Fn::Join"; "1"; "0"; "Ref"] in
  let path := ["Origins"; "0"; "OriginPath"] in
  exists dc',
    get_path resources' distributionConfigPath = Ok dc' /\
    (forall httpApi,
        lookup "httpApi" settings = Some httpApi -> truthy httpApi = true ->
        get_path dc' ref = Ok (VStr "HttpApi") /\
        get_path dc' path = Ok (VStr "")) /\
    (lookup "httpApi" settings = None \/
     (exists httpApi, lookup "httpApi" settings = Some httpApi /\
                      truthy httpApi = false) ->
     get_path dc' ref = Ok (VStr "ApiGatewayRestApi") /\
     get_path dc' path = Ok (VStr ("/" ++ stage))).
Proof.
  intros Hc H Hstage ref path.
  pose proof (origin_gateway_by_accessor this resources resources' stage
                                         H Hstage) as Hold.
  cbv zeta in Hold.
  rewrite (getConfig_lookup this settings "httpApi" _ Hc eq_refl) in Hold.
  destruct Hold as [dc' [Hdc' [Htrue Hfalse]]].
  exists dc'. split; [assumption|]. split.
  - intros httpApi Hl Ht. rewrite Hl in Htrue. apply Htrue.
    destruct httpApi; try discriminate; exact Ht.
  - intros [Hl | [httpApi [Hl Ht]]]; rewrite Hl in Hfalse; apply Hfalse.
    + reflexivity.
    + destruct httpApi; try reflexivity; exact Ht.
Qed.

Lemma origin_targets_one_gateway_witness :
  let settings := [("httpApi", VBool true)] in
  let this := sample_plugin (VObj settings) "dev-api" "prod" in
  let this0 := sample_plugin (VObj []) "dev-api" "prod" in
  let out := returned (prepareResources this sample_resources) in
  let out0 := returned (prepareResources this0 sample_resources) in
  let ref := (distributionConfigPath
                ++ ["Origins"; "0"; "DomainName"; "Fn::Join"; "1"; "0";
                    "Ref"])%list in
  let path := (distributionConfigPath
                 ++ ["Origins"; "0"; "OriginPath"])%list in
  configured this (VObj settings) /\
  getConfig this "httpApi" (VBool false) = VBool true /\
  prepareResources this sample_resources = Ok out /\
  get_prop (options this) "stage" = Ok (VStr "prod") /\
  get_path out ref = Ok (VStr "HttpApi") /\
  get_path out path = Ok (VStr "") /\
  configured this0 (VObj []) /\
  prepareResources this0 sample_resources = Ok out0 /\
  get_path out0 ref = Ok (VStr "ApiGatewayRestApi") /\
  get_path out0 path = Ok (VStr "/prod").
Proof.
  intros settings this this0 out out0 ref path.
  assert (Hc : configured this (VObj settings)) by (split; reflexivity).
  assert (Hc0 : configured this0 (VObj [])) by (split; reflexivity).
  destruct (origin_targets_one_gateway
              this settings sample_resources out "prod" Hc eq_refl eq_refl)
    as [dc' [Hdc' [Htrue _]]].
  destruct (Htrue _ eq_refl eq_refl) as [Href Hpath].
  destruct (origin_targets_one_gateway
              this0 [] sample_resources out0 "prod" Hc0 eq_refl eq_refl)
    as [dc0 [Hdc0 [_ Hfalse]]].
  destruct (Hfalse (or_introl eq_refl)) as [Href0 Hpath0].
  split; [exact Hc|]. split; [reflexivity|].
  split; [reflexivity|]. split; [reflexivity|].
  unfold ref, path. rewrite !get_path_app, Hdc', Hdc0.
  split; [exact Href|]. split; [exact Hpath|].
  split; [exact Hc0|]. split; [reflexivity|].
  split; [exact Href0 | exact Hpath0].
Defined.

(* ===================================================================== *)
(** ** When the pipeline returns                                          *)
(* ===================================================================== *)

Lemma is_object_at_nil (o : value) :
  is_object_at o [] = true -> exists ps, o = VObj ps.
Proof.
  unfold is_object_at; simpl. destruct o; try discriminate. eauto.
Qed.

Lemma is_object_at_cons (o c : value) (p : string) (q : list string) :
  get_prop o p = Ok c -> is_object_at o (p :: q) = is_object_at c q.
Proof. intros H. unfold is_object_at; simpl. rewrite H. reflexivity. Qed.

Lemma is_object_at_step (o : value) (p : string) (q : list string) :
  is_object_at o (p :: q) = true ->
  exists c, get_prop o p = Ok c /\ is_object_at c q = true.
Proof.
  unfold is_object_at; simpl. destruct (get_prop o p) as [c|e]; simpl;
    [eauto | discriminate].
Qed.

Lemma is_object_container (o : value) (q : list string) :
  is_object_at o q = true -> container o = true.
Proof.
  unfold is_object_at. destruct (get_path o q) as [c|e] eqn:E;
    [|discriminate].
  destruct c; try discriminate. intros _.
  eapply get_path_container; eauto.
Qed.

(** The parent of an object reached by a name is an object. *)
Lemma is_object_at_parent (q : list string) (k : string) :
  forall o, is_object_at o (q ++ [k])%list = true ->
            index_of_key k = None ->
            is_object_at o q = true.
Proof.
  induction q as [|p q IH]; intros o H Hk.
  - simpl in H. apply is_object_at_step in H. destruct H as [c [Hc Hobj]].
    apply is_object_at_nil in Hobj. destruct Hobj as [ps ->].
    destruct (get_prop_container _ _ _ Hc eq_refl)
      as [[os [-> _]] | [es [i [_ [_ [Hi _]]]]]]; [reflexivity | congruence].
  - simpl in H. apply is_object_at_step in H. destruct H as [c [Hc Hobj]].
    rewrite (is_object_at_cons _ _ _ _ Hc). eauto.
Qed.

(** An assignment into an object returns. *)
Lemma assign_in_returns (path : list string) :
  forall (o : value) (k : string) (v : value),
    is_object_at o path = true -> exists o', assign_in o path k v = Ok o'.
Proof.
  induction path as [|p rest IH]; intros o k v H.
  - apply is_object_at_nil in H. destruct H as [ps ->]. simpl. eauto.
  - apply is_object_at_step in H. destruct H as [c [Hc Hobj]].
    destruct (IH c k v Hobj) as [c' Hc']. simpl. rewrite Hc. simpl.
    rewrite Hc'. simpl. eauto.
Qed.

Lemma is_object_put (o c c' : value) (p : string) :
  get_prop o p = Ok c -> container c = true ->
  is_object_at (put_prop o p c') [] = is_object_at o [].
Proof.
  intros Hg Hc.
  destruct (get_prop_container _ _ _ Hg Hc)
    as [[ps [-> Hl]] | [es [i [-> [Hlen [Hi _]]]]]]; simpl.
  - reflexivity.
  - rewrite Hi. reflexivity.
Qed.

Lemma assign_in_keeps (path : list string) :
  forall (o o' : value) (k : string) (v : value) (q : list string),
    assign_in o path k v = Ok o' ->
    is_prefix (path ++ [k])%list q = false ->
    is_object_at o' q = is_object_at o q.
Proof.
  induction path as [|p rest IH]; simpl; intros o o' k v q H Hq.
  - apply set_prop_ok in H. destruct H as [ps [-> ->]].
    destruct q as [|b q']; [reflexivity|].
    rewrite andb_true_r in Hq. unfold is_object_at. simpl.
    rewrite lookup_upsert, String.eqb_sym, Hq. reflexivity.
  - bind_inv H. bind_inv H. injection H as <-.
    destruct (assign_in_container _ _ _ _ _ Hstep0) as [Hc _].
    destruct q as [|b q'].
    + eapply is_object_put; eauto.
    + destruct (String.eqb_spec p b) as [<-|Hpb].
      * rewrite (is_object_at_cons _ _ _ _ (get_put_same _ _ _ _ Hstep Hc)),
                (is_object_at_cons _ _ _ _ Hstep).
        simpl in Hq. eapply IH; eauto.
      * unfold is_object_at. simpl. rewrite get_put_other; [reflexivity|].
        apply String.eqb_neq; assumption.
Qed.

Lemma delete_prop_keeps (o o' : value) (k : string) (q : list string) :
  delete_prop o k = Ok o' ->
  is_prefix [k] q = false ->
  is_object_at o' q = is_object_at o q.
Proof.
  intros H Hq. destruct q as [|b q'].
  - pose proof (delete_prop_container _ _ _ H) as Hc.
    destruct o as [| |x|n|s|es|ps]; unfold delete_prop in H;
      try discriminate; try (injection H as <-; reflexivity).
    + destruct (has_property (VStr s) k); [discriminate|].
      injection H as <-; reflexivity.
    + destruct (String.eqb k "length"); [discriminate|].
      destruct (has_property (VArr es) k); [discriminate|].
      injection H as <-; reflexivity.
  - simpl in Hq. rewrite andb_true_r in Hq.
    unfold is_object_at.
    rewrite (delete_prop_frame _ _ _ (b :: q') H); [reflexivity|].
    simpl. rewrite Hq. reflexivity.
Qed.

Lemma keeps_assign (path : list string) (k : string) (v : value) :
  keeps (fun dc => assign_in dc path k v) [(path ++ [k])%list].
Proof.
  intros dc dc' q H Hq. simpl in Hq. rewrite orb_false_r in Hq.
  eapply assign_in_keeps; eauto.
Qed.

Lemma keeps_set (k : string) (v : value) :
  keeps (fun dc => set_prop dc k v) [[k]].
Proof. exact (keeps_assign [] k v). Qed.

Lemma keeps_delete (k : string) :
  keeps (fun dc => delete_prop dc k) [[k]].
Proof.
  intros dc dc' q H Hq. simpl in Hq. rewrite orb_false_r in Hq.
  eapply delete_prop_keeps; eauto.
Qed.

Lemma keeps_ok (fields : list (list string)) : keeps (fun dc => Ok dc) fields.
Proof. intros dc dc' q [= <-] _. reflexivity. Qed.

Lemma keeps_bind (R1 R2 : value -> result value)
      (fields : list (list string)) :
  keeps R1 fields -> keeps R2 fields ->
  keeps (fun dc => x <- R1 dc ;; R2 x) fields.
Proof.
  intros H1 H2 dc dc' q H Hq. bind_inv H.
  rewrite (H2 _ _ _ H Hq). eauto.
Qed.

Lemma keeps_bind_const (m : result value)
      (R : value -> value -> result value) (fields : list (list string)) :
  (forall x, keeps (R x) fields) ->
  keeps (fun dc => x <- m ;; R x dc) fields.
Proof. intros HR dc dc' q H. bind_inv H. exact (HR _ _ _ _ H). Qed.

Lemma keeps_if (c : bool) (R1 R2 : value -> result value)
      (fields : list (list string)) :
  keeps R1 fields -> keeps R2 fields ->
  keeps (fun dc => if c then R1 dc else R2 dc) fields.
Proof. destruct c; auto. Qed.

Lemma is_prefix_trans (a : list string) :
  forall b c, is_prefix a b = true -> is_prefix b c = true ->
              is_prefix a c = true.
Proof.
  induction a as [|x a IH]; intros b c Hab Hbc; [reflexivity|].
  destruct b as [|y b]; [discriminate|].
  destruct c as [|z c]; [discriminate|]. simpl in *.
  apply andb_prop in Hab. destruct Hab as [Hxy Hab].
  apply andb_prop in Hbc. destruct Hbc as [Hyz Hbc].
  apply String.eqb_eq in Hxy, Hyz. subst.
  rewrite String.eqb_refl. simpl. eauto.
Qed.

Lemma keeps_covers (R : value -> result value)
      (coarse fine : list (list string)) :
  covers coarse fine = true -> keeps R fine -> keeps R coarse.
Proof.
  intros Hc HR dc dc' q H Hq. apply (HR _ _ _ H).
  destruct (existsb (fun f => is_prefix f q) fine) eqn:E; [|reflexivity].
  apply existsb_exists in E. destruct E as [f [Hin Hf]].
  unfold covers in Hc. rewrite forallb_forall in Hc.
  specialize (Hc f Hin). apply existsb_exists in Hc.
  destruct Hc as [c [Hcin Hcf]].
  assert (Hex : existsb (fun f => is_prefix f q) coarse = true).
  { apply existsb_exists. exists c. split; [assumption|].
    eapply is_prefix_trans; eauto. }
  congruence.
Qed.

(** Proves [keeps R fields] for a rule made of assignments, deletions
    and tests of the configuration. *)
Ltac keeps_tac :=
  lazymatch goal with
  | |- keeps (fun dc => if _ then _ else _) _ => apply keeps_if; keeps_tac
  | |- keeps (fun dc => Ok dc) _ => apply keeps_ok
  | |- keeps Ok _ => apply keeps_ok
  | |- keeps (fun dc => bind _ _) _ =>
      first [ apply keeps_bind_const; intro; keeps_tac
            | apply keeps_bind; keeps_tac ]
  | |- keeps (fun dc => assign_in dc ?p ?k ?v) ?f =>
      refine (keeps_covers _ f _ _ (keeps_assign p k v)); reflexivity
  | |- keeps (fun dc => set_prop dc ?k ?v) ?f =>
      refine (keeps_covers _ f _ _ (keeps_set k v)); reflexivity
  | |- keeps (fun dc => delete_prop dc ?k) ?f =>
      refine (keeps_covers _ f _ _ (keeps_delete k)); reflexivity
  end.

Lemma rules_keeps (this : plugin) :
  Forall (fun rf => keeps (fst rf) (snd rf)) (rules this).
Proof.
  unfold rules.
  repeat (apply Forall_cons; [cbn [fst snd]|]); try apply Forall_nil.
  - unfold prepareLogging, fields_Logging; cbv zeta. keeps_tac.
  - unfold prepareDomain, fields_Domain; cbv zeta. keeps_tac.
  - unfold preparePriceClass, fields_PriceClass; cbv zeta. keeps_tac.
  - intros dc dc' q H.
    destruct (prepareOrigins_assigns _ _ _ H)
      as [headers [path [path' [_ [_ [_ Hchain]]]]]].
    clear H. revert dc dc' q Hchain.
    change (keeps
              (fun dc =>
                 d1 <- assign_in dc ["Origins"; "0"] "OriginCustomHeaders"
                                 headers ;;
                 d2 <- assign_in d1 ["Origins"; "0"] "OriginPath" path ;;
                 assign_in d2 ["Origins"; "0"] "OriginPath" path')
              fields_Origins).
    unfold fields_Origins. keeps_tac.
  - unfold prepareCookies, fields_Cookies; cbv zeta. keeps_tac.
  - unfold prepareHeaders, fields_Headers; cbv zeta. keeps_tac.
  - unfold prepareTTL, fields_TTL; cbv zeta. keeps_tac.
  - unfold preparePolicies, fields_Policies; cbv zeta. keeps_tac.
  - unfold prepareQueryString, fields_QueryString; cbv zeta. keeps_tac.
  - unfold prepareComment, fields_Comment; cbv zeta. keeps_tac.
  - unfold prepareCertificate, fields_Certificate; cbv zeta. keeps_tac.
  - unfold prepareWaf, fields_Waf; cbv zeta. keeps_tac.
  - unfold prepareCompress, fields_Compress; cbv zeta. keeps_tac.
  - unfold prepareMinimumProtocolVersion, fields_MinimumProtocolVersion;
      cbv zeta. keeps_tac.
Qed.

Lemma rule_keeps (this : plugin) (R : value -> result value)
      (f : list (list string)) :
  In (R, f) (rules this) -> keeps R f.
Proof.
  intros Hin. pose proof (rules_keeps this) as H.
  rewrite Forall_forall in H. exact (H _ Hin).
Qed.

Lemma keeps_weaken (R : value -> result value)
      (f g : list (list string)) :
  keeps R f -> keeps R (g ++ f)%list /\ keeps R (f ++ g)%list.
Proof.
  intros H. split; intros dc dc' q HR Hq; apply (H _ _ _ HR);
    rewrite existsb_app in Hq; apply orb_false_elim in Hq; tauto.
Qed.

Lemma run_keeps (l : list ((value -> result value) * list (list string))) :
  Forall (fun rf => keeps (fst rf) (snd rf)) l ->
  keeps (run (map fst l)) (fields_of l).
Proof.
  induction 1 as [|[R f] rest HR _ IH]; simpl.
  - apply keeps_ok.
  - unfold fields_of; simpl. apply keeps_bind.
    + exact (proj2 (keeps_weaken _ _ _ HR)).
    + exact (proj1 (keeps_weaken _ _ _ IH)).
Qed.

Lemma run_app_eq (l1 l2 : list (value -> result value)) (dc : value) :
  run (l1 ++ l2)%list dc = (x <- run l1 dc ;; run l2 x).
Proof.
  revert dc. induction l1 as [|R rest IH]; simpl; intros dc; [reflexivity|].
  destruct (R dc); simpl; [apply IH | reflexivity].
Qed.

Lemma first_origin_frame (d d' : value) :
  get_path d' ["Origins"] = get_path d ["Origins"] ->
  first_origin_is_object d' = first_origin_is_object d.
Proof.
  rewrite !get_path_single. unfold first_origin_is_object.
  intros ->. reflexivity.
Qed.

(** [_.head] still finds the first origin after it was mutated. *)
Lemma head_put (origins : value) (o o' : list (string * value)) :
  Lodash.head origins = VObj o ->
  Lodash.head (put_prop origins "0" (VObj o')) = VObj o'.
Proof.
  intros H. pose proof (head_object _ _ H) as H0.
  unfold Lodash.head in H |- *.
  destruct (truthy origins) eqn:Ht; [|discriminate].
  destruct (get_prop origins "length") as [len|] eqn:Hlen; [|discriminate].
  destruct (truthy len) eqn:Htl; [|discriminate].
  assert (Hc : container (put_prop origins "0" (VObj o')) = true)
    by (eapply container_put; eauto; reflexivity).
  assert (Htp : truthy (put_prop origins "0" (VObj o')) = true)
    by (destruct (put_prop origins "0" (VObj o')); try discriminate;
        reflexivity).
  rewrite Htp, (get_put_other origins (VObj o') "0" "length" eq_refl), Hlen,
    Htl, (get_put_same _ _ _ _ H0 eq_refl).
  reflexivity.
Qed.

Lemma first_origin_object (d : value) :
  first_origin_is_object d = true ->
  exists origins o,
    get_prop d "Origins" = Ok origins /\ Lodash.head origins = VObj o /\
    get_prop origins "0" = Ok (VObj o) /\ container origins = true.
Proof.
  unfold first_origin_is_object.
  destruct (get_prop d "Origins") as [origins|] eqn:E; [|discriminate].
  destruct (Lodash.head origins) as [| | | | | |o] eqn:Hh; try discriminate.
  intros _. exists origins, o. pose proof (head_object _ _ Hh) as H0.
  repeat split; auto.
  destruct (get_prop_container _ _ _ H0 eq_refl)
    as [[ps [-> _]] | [es [i [-> _]]]]; reflexivity.
Qed.

Section RuleReturns.

Variable this : plugin.

Lemma prepareLogging_returns (d : value) :
  is_object_at d [] = true ->
  (is_null (getConfig this "logging.bucket" VNull) = false ->
   is_object_at d ["Logging"] = true) ->
  exists d', prepareLogging this d = Ok d'.
Proof.
  intros Hd Hlog. unfold prepareLogging; cbv zeta.
  destruct (is_null (getConfig this "logging.bucket" VNull)); cbn [negb].
  - apply is_object_at_nil in Hd. destruct Hd as [ps ->]. simpl. eauto.
  - specialize (Hlog eq_refl).
    destruct (assign_in_returns ["Logging"] d "Bucket"
                (getConfig this "logging.bucket" VNull) Hlog) as [d1 H1].
    rewrite H1. cbn [bind].
    apply assign_in_returns.
    rewrite (assign_in_keeps ["Logging"] _ _ _ _ ["Logging"] H1 eq_refl).
    assumption.
Qed.

Lemma prepareDomain_returns (d : value) :
  is_object_at d [] = true ->
  first_origin_is_object d = true ->
  exists d', prepareDomain this d = Ok d' /\
             first_origin_is_object d' = true.
Proof.
  intros Hd Ho. unfold prepareDomain; cbv zeta.
  apply is_object_at_nil in Hd. destruct Hd as [ps ->].
  set (v := originDomainName (getConfig this "httpApi" (VBool false))).
  assert (Hfirst : exists d1,
             (if negb (is_null (getConfig this "domain" VNull))
              then set_prop (VObj ps) "Aliases"
                     (if isArray (getConfig this "domain" VNull)
                      then getConfig this "domain" VNull
                      else VArr [getConfig this "domain" VNull])
              else delete_prop (VObj ps) "Aliases") = Ok d1 /\
             get_path d1 ["Origins"] = get_path (VObj ps) ["Origins"]).
  { destruct (negb (is_null (getConfig this "domain" VNull))).
    - eexists. split; [reflexivity|].
      eapply (assign_in_frame [] (VObj ps)); [reflexivity | reflexivity].
    - eexists. split; [reflexivity|].
      eapply delete_prop_frame; [reflexivity | reflexivity]. }
  destruct Hfirst as [d1 [H1 Hfr]]. rewrite H1. cbn [bind].
  rewrite <- (first_origin_frame _ _ Hfr) in Ho.
  destruct (first_origin_object _ Ho) as [origins [o [Hg [Hh [H0 Hc]]]]].
  exists (put_prop d1 "Origins"
            (put_prop origins "0" (VObj (upsert "DomainName" v o)))).
  split.
  - simpl. rewrite Hg. simpl. rewrite H0. reflexivity.
  - unfold first_origin_is_object.
    rewrite (get_put_same _ _ _ _ Hg Hc), (head_put _ _ _ Hh). reflexivity.
Qed.

Lemma preparePriceClass_returns (d : value) :
  is_object_at d [] = true -> exists d', preparePriceClass this d = Ok d'.
Proof. intros Hd. exact (assign_in_returns [] d _ _ Hd). Qed.

Lemma prepareOrigins_returns (d : value) :
  first_origin_is_object d = true ->
  inputs_fit this = true ->
  exists d', prepareOrigins this d = Ok d'.
Proof.
  intros Ho Hin. unfold inputs_fit in Hin.
  apply andb_prop in Hin. destruct Hin as [Harr Hstage].
  destruct (get_prop (options this) "stage") as [stage|] eqn:Es;
    [|discriminate].
  destruct (getConfig this "originCustomHeaders" (VArr []))
    as [| | | | |hs|] eqn:Eh; try discriminate.
  destruct (first_origin_object _ Ho) as [origins [o [Hg [Hh [H0 Hc]]]]].
  unfold prepareOrigins, stagePath. rewrite Hg. cbn [bind]. cbv zeta.
  rewrite Eh, Hh, Es. cbn [bind array_map set_prop].
  destruct (truthy (getConfig this "httpApi" (VBool false))); cbn [bind];
  apply assign_in_returns;
  unfold is_object_at; simpl;
  rewrite (get_put_same _ _ _ _ Hg Hc); simpl;
  rewrite (get_put_same _ _ _ _ H0 eq_refl); reflexivity.
Qed.

(** From the cookies block up: [DefaultCacheBehavior], its
    [ForwardedValues] and the distribution config are objects. *)
Lemma cookies_block_parents (d : value) :
  is_object_at d ["DefaultCacheBehavior"; "ForwardedValues"; "Cookies"]
  = true ->
  is_object_at d ["DefaultCacheBehavior"; "ForwardedValues"] = true /\
  is_object_at d ["DefaultCacheBehavior"] = true /\
  is_object_at d [] = true.
Proof.
  intros H.
  pose proof (is_object_at_parent ["DefaultCacheBehavior"; "ForwardedValues"]
                                  "Cookies" d H eq_refl) as H1.
  pose proof (is_object_at_parent ["DefaultCacheBehavior"]
                                  "ForwardedValues" d H1 eq_refl) as H2.
  pose proof (is_object_at_parent [] "DefaultCacheBehavior" d H2 eq_refl)
    as H3.
  auto.
Qed.

Lemma prepareCookies_returns (d : value) :
  is_object_at d ["DefaultCacheBehavior"; "ForwardedValues"; "Cookies"]
  = true ->
  exists d', prepareCookies this d = Ok d'.
Proof.
  intros H. unfold prepareCookies; cbv zeta.
  destruct (assign_in_returns _ d "Forward"
              (if isArray (getConfig this "cookies" (VStr "all"))
               then VStr "whitelist"
               else getConfig this "cookies" (VStr "all")) H) as [d1 H1].
  rewrite H1. cbn [bind].
  destruct (isArray (getConfig this "cookies" (VStr "all"))); [|eauto].
  apply assign_in_returns.
  rewrite (assign_in_keeps _ _ _ _ _
             ["DefaultCacheBehavior"; "ForwardedValues"; "Cookies"]
             H1 eq_refl).
  assumption.
Qed.

Lemma prepareHeaders_returns (d : value) :
  is_object_at d ["DefaultCacheBehavior"; "ForwardedValues"] = true ->
  exists d', prepareHeaders this d = Ok d'.
Proof.
  intros H. unfold prepareHeaders; cbv zeta.
  destruct (isArray (getConfig this "headers" (VStr "none")));
    apply assign_in_returns; assumption.
Qed.

Lemma prepareTTL_returns (d : value) :
  is_object_at d ["DefaultCacheBehavior"] = true ->
  exists d', prepareTTL this d = Ok d'.
Proof.
  intros H. rewrite prepareTTL_writes.
  destruct (is_object_at_step _ _ _ H) as [c [Hc Hobj]].
  apply is_object_at_nil in Hobj. destruct Hobj as [cs ->].
  destruct (get_prop_container _ _ _ Hc eq_refl)
    as [[ps [-> Hl]] | [es [i [_ [_ [Hi _]]]]]]; [|discriminate].
  rewrite (write_all_block _ _ _ _ Hl). eauto.
Qed.

Lemma preparePolicies_returns (d : value) :
  is_object_at d ["DefaultCacheBehavior"] = true ->
  exists d', preparePolicies this d = Ok d'.
Proof.
  intros H. rewrite preparePolicies_writes.
  destruct (is_object_at_step _ _ _ H) as [c [Hc Hobj]].
  apply is_object_at_nil in Hobj. destruct Hobj as [cs ->].
  destruct (get_prop_container _ _ _ Hc eq_refl)
    as [[ps [-> Hl]] | [es [i [_ [_ [Hi _]]]]]]; [|discriminate].
  rewrite (write_all_block _ _ _ _ Hl). eauto.
Qed.

Lemma prepareQueryString_returns (d : value) :
  is_object_at d ["DefaultCacheBehavior"; "ForwardedValues"] = true ->
  exists d', prepareQueryString this d = Ok d'.
Proof.
  intros H. unfold prepareQueryString; cbv zeta.
  destruct (isArray (getConfig this "querystring" (VStr "all"))).
  - destruct (assign_in_returns _ d "QueryString" (VBool true) H)
      as [d1 H1].
    rewrite H1. cbn [bind]. apply assign_in_returns.
    rewrite (assign_in_keeps _ _ _ _ _
               ["DefaultCacheBehavior"; "ForwardedValues"] H1 eq_refl).
    assumption.
  - apply assign_in_returns; assumption.
Qed.

Lemma prepareComment_returns (d : value) :
  is_object_at d [] = true -> exists d', prepareComment this d = Ok d'.
Proof. intros Hd. exact (assign_in_returns [] d _ _ Hd). Qed.

Lemma prepareCertificate_returns (d : value) :
  is_object_at d [] = true ->
  (is_null (getConfig this "certificate" VNull) = false ->
   is_object_at d ["ViewerCertificate"] = true) ->
  exists d', prepareCertificate this d = Ok d'.
Proof.
  intros Hd Hvc. unfold prepareCertificate; cbv zeta.
  destruct (is_null (getConfig this "certificate" VNull)); cbn [negb].
  - apply is_object_at_nil in Hd. destruct Hd as [ps ->]. simpl. eauto.
  - apply assign_in_returns. auto.
Qed.

Lemma prepareWaf_returns (d : value) :
  is_object_at d [] = true -> exists d', prepareWaf this d = Ok d'.
Proof.
  intros Hd. unfold prepareWaf; cbv zeta.
  apply is_object_at_nil in Hd. destruct Hd as [ps ->].
  destruct (negb (is_null (getConfig this "waf" VNull))); simpl; eauto.
Qed.

Lemma prepareCompress_returns (d : value) :
  is_object_at d ["DefaultCacheBehavior"] = true ->
  exists d', prepareCompress this d = Ok d'.
Proof. intros H. unfold prepareCompress. apply assign_in_returns; auto. Qed.

End RuleReturns.

Lemma step_keeps (this : plugin) (R : value -> result value)
      (f : list (list string)) (d : value) (q : list string) :
  In (R, f) (rules this) ->
  (exists d', R d = Ok d') ->
  existsb (fun f0 => is_prefix f0 q) f = false ->
  is_object_at d q = true ->
  exists d', R d = Ok d' /\ is_object_at d' q = true.
Proof.
  intros Hin [d' Hd'] Hq Hobj. exists d'. split; [assumption|].
  rewrite (rule_keeps this R f Hin _ _ _ Hd' Hq). assumption.
Qed.

Lemma applyRules_stages (this : plugin) (dc : value) :
  applyRules this dc =
  (d3 <- run (rules_before_origins this) dc ;;
   d4 <- prepareOrigins this d3 ;;
   d10 <- run (rules_cookies_to_comment this) d4 ;;
   run (rules_from_certificate this) d10).
Proof.
  rewrite applyRules_run.
  change (map fst (rules this)) with
    (rules_before_origins this
     ++ prepareOrigins this
        :: rules_cookies_to_comment this ++ rules_from_certificate this)%list.
  rewrite run_app_eq. apply bind_ext. intros d3.
  cbn [run]. apply bind_ext. intros d4. apply run_app_eq.
Qed.

(** The rules before Origins return on an object with a first origin
    (and a [Logging] block when [logging.bucket] is configured). *)
Lemma before_origins_return (this : plugin) (dc : value) :
  is_object_at dc [] = true ->
  first_origin_is_object dc = true ->
  (is_null (getConfig this "logging.bucket" VNull) = false ->
   is_object_at dc ["Logging"] = true) ->
  exists d3, run (rules_before_origins this) dc = Ok d3 /\
             first_origin_is_object d3 = true.
Proof.
  intros Hd Ho Hlog.
  change (rules_before_origins this) with
    [prepareLogging this; prepareDomain this; preparePriceClass this].
  cbn [run].
  destruct (prepareLogging_returns this dc Hd Hlog) as [d1 H1].
  rewrite H1. cbn [bind].
  assert (Hd1 : is_object_at d1 [] = true).
  { rewrite (rule_keeps this _ fields_Logging (or_introl eq_refl)
                        _ _ [] H1 eq_refl). assumption. }
  assert (Ho1 : first_origin_is_object d1 = true).
  { rewrite (first_origin_frame dc d1); [assumption|].
    exact (proj1 (prepareLogging_frames this _ _ H1) ["Origins"] eq_refl). }
  destruct (prepareDomain_returns this d1 Hd1 Ho1) as [d2 [H2 Ho2]].
  rewrite H2. cbn [bind].
  assert (Hd2 : is_object_at d2 [] = true).
  { rewrite (rule_keeps this _ fields_Domain (or_intror (or_introl eq_refl))
                        _ _ [] H2 eq_refl). assumption. }
  destruct (preparePriceClass_returns this d2 Hd2) as [d3 H3].
  rewrite H3. cbn [bind]. exists d3. split; [reflexivity|].
  rewrite (first_origin_frame d2 d3); [assumption|].
  exact (proj1 (preparePriceClass_frames this _ _ H3) ["Origins"] eq_refl).
Qed.

(** The rules from Cookies to Comment return when the cookies block is
    an object. *)
Lemma cookies_to_comment_return (this : plugin) (d4 : value) :
  is_object_at d4 ["DefaultCacheBehavior"; "ForwardedValues"; "Cookies"]
  = true ->
  exists d10, run (rules_cookies_to_comment this) d4 = Ok d10.
Proof.
  intros H4.
  change (rules_cookies_to_comment this) with
    [prepareCookies this; prepareHeaders this; prepareTTL this;
     preparePolicies this; prepareQueryString this; prepareComment this].
  cbn [run].
  destruct (step_keeps this (prepareCookies this) fields_Cookies d4
              ["DefaultCacheBehavior"; "ForwardedValues"; "Cookies"])
    as [d5 [E5 H5]];
    [simpl; tauto | apply prepareCookies_returns; assumption
     | reflexivity | assumption |].
  rewrite E5. cbn [bind].
  destruct (cookies_block_parents d5 H5) as [Hfv [Hdcb Hobj]].
  destruct (step_keeps this (prepareHeaders this) fields_Headers d5
              ["DefaultCacheBehavior"; "ForwardedValues"; "Cookies"])
    as [d6 [E6 H6]];
    [simpl; tauto | apply prepareHeaders_returns; assumption
     | reflexivity | assumption |].
  rewrite E6. cbn [bind]. clear Hfv Hdcb Hobj.
  destruct (cookies_block_parents d6 H6) as [Hfv [Hdcb Hobj]].
  destruct (step_keeps this (prepareTTL this) fields_TTL d6
              ["DefaultCacheBehavior"; "ForwardedValues"; "Cookies"])
    as [d7 [E7 H7]];
    [simpl; tauto | apply prepareTTL_returns; assumption
     | reflexivity | assumption |].
  rewrite E7. cbn [bind]. clear Hfv Hdcb Hobj.
  destruct (cookies_block_parents d7 H7) as [Hfv [Hdcb Hobj]].
  destruct (step_keeps this (preparePolicies this) fields_Policies d7
              ["DefaultCacheBehavior"; "ForwardedValues"; "Cookies"])
    as [d8 [E8 H8]];
    [simpl; tauto | apply preparePolicies_returns; assumption
     | reflexivity | assumption |].
  rewrite E8. cbn [bind]. clear Hfv Hdcb Hobj.
  destruct (cookies_block_parents d8 H8) as [Hfv [Hdcb Hobj]].
  destruct (step_keeps this (prepareQueryString this) fields_QueryString d8
              ["DefaultCacheBehavior"; "ForwardedValues"; "Cookies"])
    as [d9 [E9 H9]];
    [simpl; tauto | apply prepareQueryString_returns; assumption
     | reflexivity | assumption |].
  rewrite E9. cbn [bind]. clear Hfv Hdcb Hobj.
  destruct (cookies_block_parents d9 H9) as [Hfv [Hdcb Hobj]].
  destruct (prepareComment_returns this d9 Hobj) as [d10 E10].
  rewrite E10. cbn [bind]. eauto.
Qed.

(** On a template that fits, the first ten rules return, and leave the
    cookies block an object and [ViewerCertificate] as the template has
    it. *)
Lemma reaches_certificate (this : plugin) (dc : value) :
  is_object_at dc ["DefaultCacheBehavior"; "ForwardedValues"; "Cookies"]
  = true ->
  first_origin_is_object dc = true ->
  (is_null (getConfig this "logging.bucket" VNull) = false ->
   is_object_at dc ["Logging"] = true) ->
  inputs_fit this = true ->
  exists d10,
    (d3 <- run (rules_before_origins this) dc ;;
     d4 <- prepareOrigins this d3 ;;
     run (rules_cookies_to_comment this) d4) = Ok d10 /\
    is_object_at d10 ["DefaultCacheBehavior"; "ForwardedValues"; "Cookies"]
    = true /\
    get_path d10 ["ViewerCertificate"] = get_path dc ["ViewerCertificate"].
Proof.
  intros Hc Ho Hlog Hin.
  destruct (cookies_block_parents dc Hc) as [_ [_ Hobj]].
  destruct (before_origins_return this dc Hobj Ho Hlog) as [d3 [E3 Ho3]].
  rewrite E3. cbn [bind].
  destruct (prepareOrigins_returns this d3 Ho3 Hin) as [d4 E4].
  rewrite E4. cbn [bind].
  pose proof (Forall_firstn _ 3 _ (rules_keeps this)) as K3.
  pose proof (Forall_firstn _ 3 _ (rules_frames this)) as F3.
  pose proof (Forall_firstn _ 6 _ (Forall_skipn _ 4 _ (rules_keeps this)))
    as K10.
  pose proof (Forall_firstn _ 6 _ (Forall_skipn _ 4 _ (rules_frames this)))
    as F10.
  assert (H4 : is_object_at d4 ["DefaultCacheBehavior"; "ForwardedValues";
                                "Cookies"] = true).
  { rewrite (rule_keeps this (prepareOrigins this) fields_Origins
               (or_intror (or_intror (or_intror (or_introl eq_refl))))
               _ _ ["DefaultCacheBehavior"; "ForwardedValues"; "Cookies"] E4 eq_refl).
    rewrite (run_keeps _ K3 _ _ ["DefaultCacheBehavior"; "ForwardedValues"; "Cookies"] E3 eq_refl). assumption. }
  destruct (cookies_to_comment_return this d4 H4) as [d10 E10].
  exists d10. split; [assumption|]. split.
  - rewrite (run_keeps _ K10 _ _ ["DefaultCacheBehavior"; "ForwardedValues"; "Cookies"] E10 eq_refl). assumption.
  - rewrite (proj1 (run_frames _ F10 _ _ E10) ["ViewerCertificate"] eq_refl).
    rewrite (proj1 (prepareOrigins_frames this _ _ E4)
                   ["ViewerCertificate"] eq_refl).
    exact (proj1 (run_frames _ F3 _ _ E3) ["ViewerCertificate"] eq_refl).
Qed.

(** The last four rules return when the cookies block is an object,
    [ViewerCertificate] is an object if [certificate] is configured, and
    [minimumProtocolVersion] is not configured without [certificate]. *)
Lemma from_certificate_return (this : plugin) (d10 : value) :
  is_object_at d10 ["DefaultCacheBehavior"; "ForwardedValues"; "Cookies"]
  = true ->
  (is_null (getConfig this "certificate" VNull) = false ->
   is_object_at d10 ["ViewerCertificate"] = true) ->
  (truthy (getConfig this "minimumProtocolVersion" VUndef) = true ->
   is_null (getConfig this "certificate" VNull) = false) ->
  exists d14, run (rules_from_certificate this) d10 = Ok d14.
Proof.
  intros H10 Hvc Hmin.
  change (rules_from_certificate this) with
    [prepareCertificate this; prepareWaf this; prepareCompress this;
     prepareMinimumProtocolVersion this].
  cbn [run].
  destruct (cookies_block_parents d10 H10) as [_ [_ Hobj]].
  destruct (step_keeps this (prepareCertificate this) fields_Certificate d10
              ["DefaultCacheBehavior"; "ForwardedValues"; "Cookies"])
    as [d11 [E11 H11]];
    [simpl; tauto | apply prepareCertificate_returns; assumption
     | reflexivity | assumption |].
  rewrite E11. cbn [bind].
  assert (Hvc11 : truthy (getConfig this "minimumProtocolVersion" VUndef)
                  = true ->
                  is_object_at d11 ["ViewerCertificate"] = true).
  { intros Ht. specialize (Hmin Ht). specialize (Hvc Hmin).
    unfold prepareCertificate in E11; cbv zeta in E11.
    rewrite Hmin in E11. cbn [negb] in E11.
    rewrite (assign_in_keeps ["ViewerCertificate"] _ _ _ _
               ["ViewerCertificate"] E11 eq_refl). assumption. }
  clear Hobj. destruct (cookies_block_parents d11 H11) as [_ [_ Hobj]].
  destruct (prepareWaf_returns this d11 Hobj) as [d12 E12].
  rewrite E12. cbn [bind].
  assert (K12 := rule_keeps this (prepareWaf this) fields_Waf).
  assert (Hin12 : In (prepareWaf this, fields_Waf) (rules this))
    by (simpl; tauto).
  assert (H12 : is_object_at d12 ["DefaultCacheBehavior"; "ForwardedValues";
                                  "Cookies"] = true)
    by (rewrite (K12 Hin12 _ _ ["DefaultCacheBehavior"; "ForwardedValues"; "Cookies"] E12 eq_refl); assumption).
  assert (Hvc12 : truthy (getConfig this "minimumProtocolVersion" VUndef)
                  = true ->
                  is_object_at d12 ["ViewerCertificate"] = true)
    by (intros Ht; rewrite (K12 Hin12 _ _ ["ViewerCertificate"] E12 eq_refl); auto).
  destruct (cookies_block_parents d12 H12) as [_ [Hdcb _]].
  destruct (prepareCompress_returns this d12 Hdcb) as [d13 E13].
  rewrite E13. cbn [bind].
  assert (Hin13 : In (prepareCompress this, fields_Compress) (rules this))
    by (simpl; tauto).
  rewrite bind_ret. unfold prepareMinimumProtocolVersion; cbv zeta.
  destruct (truthy (getConfig this "minimumProtocolVersion" VUndef)) eqn:Et;
    [|eauto].
  apply assign_in_returns.
  rewrite (rule_keeps this _ _ Hin13 _ _ ["ViewerCertificate"] E13 eq_refl). auto.
Qed.

Lemma is_object_at_get (d d' : value) (q : list string) :
  get_path d' q = get_path d q -> is_object_at d' q = is_object_at d q.
Proof. unfold is_object_at. intros ->. reflexivity. Qed.

(** X8.  The pipeline returns.  If the blocks into which the rules assign
    are objects of the template's distribution config,
    [originCustomHeaders] is a list, [this.options] can be read, and
    [minimumProtocolVersion] is not configured without [certificate],
    then [prepareResources] returns a template. *)
Theorem pipeline_returns (this : plugin) (resources dc : value) :
  get_path resources distributionConfigPath = Ok dc ->
  template_fits this dc = true ->
  inputs_fit this = true ->
  (truthy (getConfig this "minimumProtocolVersion" VUndef) = true ->
   is_null (getConfig this "certificate" VNull) = false) ->
  exists resources', prepareResources this resources = Ok resources'.
Proof.
  intros Hdc Hfit Hin Hmin. unfold template_fits in Hfit.
  apply andb_prop in Hfit. destruct Hfit as [Hfit Hvc].
  apply andb_prop in Hfit. destruct Hfit as [Hfit Hlog].
  apply andb_prop in Hfit. destruct Hfit as [Hc Ho].
  assert (Hlog' : is_null (getConfig this "logging.bucket" VNull) = false ->
                  is_object_at dc ["Logging"] = true)
    by (intros E; rewrite E in Hlog; exact Hlog).
  assert (Hvc' : is_null (getConfig this "certificate" VNull) = false ->
                 is_object_at dc ["ViewerCertificate"] = true)
    by (intros E; rewrite E in Hvc; exact Hvc).
  destruct (reaches_certificate this dc Hc Ho Hlog' Hin)
    as [d10 [E10 [H10 Hsame]]].
  unfold prepareResources. rewrite Hdc. cbn [bind].
  rewrite applyRules_stages.
  rewrite <- !bind_assoc in E10 |- *.
  rewrite <- (bind_assoc _ _ (run (rules_from_certificate this))).
  rewrite E10. cbn [bind].
  destruct (from_certificate_return this d10 H10) as [d14 E14]; auto.
  - intros E. rewrite (is_object_at_get dc d10 _ Hsame). auto.
  - rewrite E14. cbn [bind]. eauto.
Qed.

(* ===================================================================== *)
(** ** When the pipeline throws                                           *)
(* ===================================================================== *)

Lemma assign_in_throws (path : list string) :
  forall (o : value) (k : string) (v : value),
    no_block_at o path = true -> assign_in o path k v = Err TypeError.
Proof.
  induction path as [|p rest IH]; intros o k v H; unfold no_block_at in H.
  - simpl in H. destruct o; simpl in *; congruence.
  - cbn [get_path assign_in] in *.
    destruct (get_prop o p) as [c|e] eqn:E; cbn [bind] in *.
    + rewrite (IH c k v); [reflexivity|]. exact H.
    + destruct e; congruence.
Qed.

Lemma no_block_at_get (d d' : value) (q : list string) :
  get_path d' q = get_path d q -> no_block_at d' q = no_block_at d q.
Proof. unfold no_block_at. intros ->. reflexivity. Qed.

Lemma applyRules_to_certificate (this : plugin) (dc : value) :
  applyRules this dc =
  (d10 <- (d3 <- run (rules_before_origins this) dc ;;
           d4 <- prepareOrigins this d3 ;;
           run (rules_cookies_to_comment this) d4) ;;
   run (rules_from_certificate this) d10).
Proof.
  rewrite applyRules_stages.
  destruct (run (rules_before_origins this) dc) as [d3|]; [|reflexivity].
  cbn [bind]. destruct (prepareOrigins this d3); reflexivity.
Qed.

Lemma prepareDomain_throws (this : plugin) (d : value) :
  is_object_at d [] = true ->
  no_block_at d ["Origins"; "0"] = true ->
  prepareDomain this d = Err TypeError.
Proof.
  intros Hd Ho. unfold prepareDomain; cbv zeta.
  apply is_object_at_nil in Hd. destruct Hd as [ps ->].
  assert (Hfirst : exists d1,
             (if negb (is_null (getConfig this "domain" VNull))
              then set_prop (VObj ps) "Aliases"
                     (if isArray (getConfig this "domain" VNull)
                      then getConfig this "domain" VNull
                      else VArr [getConfig this "domain" VNull])
              else delete_prop (VObj ps) "Aliases") = Ok d1 /\
             get_path d1 ["Origins"; "0"]
             = get_path (VObj ps) ["Origins"; "0"]).
  { destruct (negb (is_null (getConfig this "domain" VNull))).
    - eexists. split; [reflexivity|].
      eapply (assign_in_frame [] (VObj ps)); [reflexivity | reflexivity].
    - eexists. split; [reflexivity|].
      eapply delete_prop_frame; [reflexivity | reflexivity]. }
  destruct Hfirst as [d1 [H1 Hfr]]. rewrite H1. cbn [bind].
  apply assign_in_throws. rewrite (no_block_at_get _ _ _ Hfr). assumption.
Qed.

Lemma prepareOrigins_throws (this : plugin) (d : value) :
  isArray (getConfig this "originCustomHeaders" (VArr [])) = false ->
  prepareOrigins this d = Err TypeError.
Proof.
  intros Ha. unfold prepareOrigins; cbv zeta.
  destruct (get_prop d "Origins") as [origins|e] eqn:E; cbn [bind].
  - destruct (getConfig this "originCustomHeaders" (VArr []));
      try discriminate; reflexivity.
  - destruct d; simpl in E; congruence.
Qed.

(** X9.  Logging configured, no [Logging] block.  When [logging.bucket] is
    configured and the template's distribution config has no [Logging]
    object (the property is absent or a primitive), the first rule throws
    a [TypeError], whatever the rest of the template and configuration. *)
Theorem logging_without_block_throws (this : plugin) (resources dc : value) :
  get_path resources distributionConfigPath = Ok dc ->
  is_null (getConfig this "logging.bucket" VNull) = false ->
  no_block_at dc ["Logging"] = true ->
  prepareResources this resources = Err TypeError.
Proof.
  intros Hdc Hb Hno. unfold prepareResources. rewrite Hdc. cbn [bind].
  unfold applyRules.
  assert (E : prepareLogging this dc = Err TypeError).
  { unfold prepareLogging; cbv zeta. rewrite Hb. cbn [negb].
    rewrite (assign_in_throws _ _ _ _ Hno). reflexivity. }
  rewrite E. reflexivity.
Qed.

Lemma logging_without_block_throws_witness :
  let this :=
    sample_plugin (VObj [("logging", VObj [("bucket", VStr "logs")])])
                  "dev-api" "prod" in
  let dc := VObj [("Origins", VArr [VObj []])] in
  let resources := put_path sample_resources distributionConfigPath dc in
  get_path resources distributionConfigPath = Ok dc /\
  is_null (getConfig this "logging.bucket" VNull) = false /\
  no_block_at dc ["Logging"] = true /\
  prepareResources this resources = Err TypeError.
Proof.
  intros this dc resources.
  split; [reflexivity|]. split; [reflexivity|]. split; [reflexivity|].
  apply (logging_without_block_throws this resources dc); reflexivity.
Defined.

(** X10.  No first origin.  On a distribution config whose [Origins[0]] is
    missing (no [Origins], an empty list) or a primitive, and on which the
    logging rule passes, [prepareDomain] throws a [TypeError] at the
    assignment of [DomainName]. *)
Theorem no_first_origin_throws (this : plugin) (resources dc : value) :
  get_path resources distributionConfigPath = Ok dc ->
  is_object_at dc [] = true ->
  (is_null (getConfig this "logging.bucket" VNull) = false ->
   is_object_at dc ["Logging"] = true) ->
  no_block_at dc ["Origins"; "0"] = true ->
  prepareResources this resources = Err TypeError.
Proof.
  intros Hdc Hd Hlog Hno. unfold prepareResources. rewrite Hdc. cbn [bind].
  unfold applyRules.
  destruct (prepareLogging_returns this dc Hd Hlog) as [d1 H1].
  rewrite H1. cbn [bind].
  rewrite prepareDomain_throws; [reflexivity | |].
  - rewrite (rule_keeps this _ fields_Logging (or_introl eq_refl)
                        _ _ [] H1 eq_refl). assumption.
  - rewrite (no_block_at_get dc d1); [assumption|].
    exact (proj1 (prepareLogging_frames this _ _ H1)
                 ["Origins"; "0"] eq_refl).
Qed.

Lemma no_first_origin_throws_witness :
  let this := sample_plugin (VObj []) "dev-api" "prod" in
  let dc := VObj [("Origins", VArr [])] in
  let resources := put_path sample_resources distributionConfigPath dc in
  get_path resources distributionConfigPath = Ok dc /\
  is_object_at dc [] = true /\
  no_block_at dc ["Origins"; "0"] = true /\
  prepareResources this resources = Err TypeError.
Proof.
  intros this dc resources.
  split; [reflexivity|]. split; [reflexivity|]. split; [reflexivity|].
  apply (no_first_origin_throws this resources dc);
    [reflexivity | reflexivity | discriminate | reflexivity].
Defined.

(** X11.  [originCustomHeaders] that is no list.  When the setting is present
    and not an array (a map, a string, [null]), and the rules before
    Origins pass, [prepareOrigins] throws a [TypeError] at [.map]. *)
Theorem custom_headers_not_a_list_throws
        (this : plugin) (resources dc : value) :
  get_path resources distributionConfigPath = Ok dc ->
  is_object_at dc [] = true ->
  first_origin_is_object dc = true ->
  (is_null (getConfig this "logging.bucket" VNull) = false ->
   is_object_at dc ["Logging"] = true) ->
  isArray (getConfig this "originCustomHeaders" (VArr [])) = false ->
  prepareResources this resources = Err TypeError.
Proof.
  intros Hdc Hd Ho Hlog Ha. unfold prepareResources. rewrite Hdc. cbn [bind].
  rewrite applyRules_stages.
  destruct (before_origins_return this dc Hd Ho Hlog) as [d3 [E3 _]].
  rewrite E3. cbn [bind].
  rewrite (prepareOrigins_throws this d3 Ha). reflexivity.
Qed.

Lemma custom_headers_not_a_list_throws_witness :
  let this :=
    sample_plugin
      (VObj [("originCustomHeaders", VObj [("X-Api-Key", VStr "k")])])
      "dev-api" "prod" in
  get_path sample_resources distributionConfigPath
  = Ok sample_distributionConfig /\
  isArray (getConfig this "originCustomHeaders" (VArr [])) = false /\
  prepareResources this sample_resources = Err TypeError.
Proof.
  intros this. split; [reflexivity|]. split; [reflexivity|].
  apply (custom_headers_not_a_list_throws
           this sample_resources sample_distributionConfig);
    [reflexivity | reflexivity | reflexivity | discriminate | reflexivity].
Defined.

(** X12.  Certificate configured, no [ViewerCertificate] block.  On a template
    on which the first ten rules pass, when [certificate] is configured
    and the distribution config has no [ViewerCertificate] object,
    [prepareCertificate] throws a [TypeError]. *)
Theorem certificate_without_block_throws
        (this : plugin) (resources dc : value) :
  get_path resources distributionConfigPath = Ok dc ->
  is_object_at dc ["DefaultCacheBehavior"; "ForwardedValues"; "Cookies"]
  = true ->
  first_origin_is_object dc = true ->
  (is_null (getConfig this "logging.bucket" VNull) = false ->
   is_object_at dc ["Logging"] = true) ->
  inputs_fit this = true ->
  is_null (getConfig this "certificate" VNull) = false ->
  no_block_at dc ["ViewerCertificate"] = true ->
  prepareResources this resources = Err TypeError.
Proof.
  intros Hdc Hc Ho Hlog Hin Hcert Hno.
  unfold prepareResources. rewrite Hdc. cbn [bind].
  rewrite applyRules_to_certificate.
  destruct (reaches_certificate this dc Hc Ho Hlog Hin)
    as [d10 [E10 [_ Hsame]]].
  rewrite E10. cbn [bind].
  change (rules_from_certificate this) with
    [prepareCertificate this; prepareWaf this; prepareCompress this;
     prepareMinimumProtocolVersion this].
  cbn [run].
  assert (E : prepareCertificate this d10 = Err TypeError).
  { unfold prepareCertificate; cbv zeta. rewrite Hcert. cbn [negb].
    apply assign_in_throws. rewrite (no_block_at_get _ _ _ Hsame).
    assumption. }
  rewrite E. reflexivity.
Qed.

Lemma certificate_without_block_throws_witness :
  let this :=
    sample_plugin (VObj [("certificate", VStr "arn:aws:acm:cert")])
                  "dev-api" "prod" in
  let dc :=
    VObj [("Origins", VArr [VObj []]);
          ("DefaultCacheBehavior",
           VObj [("ForwardedValues", VObj [("Cookies", VObj [])])])] in
  let resources := put_path sample_resources distributionConfigPath dc in
  get_path resources distributionConfigPath = Ok dc /\
  is_null (getConfig this "certificate" VNull) = false /\
  no_block_at dc ["ViewerCertificate"] = true /\
  prepareResources this resources = Err TypeError.
Proof.
  intros this dc resources.
  split; [reflexivity|]. split; [reflexivity|]. split; [reflexivity|].
  apply (certificate_without_block_throws this resources dc);
    [reflexivity | reflexivity | reflexivity | discriminate
     | reflexivity | reflexivity | reflexivity].
Defined.

(** X13.  [minimumProtocolVersion] without [certificate].  On a template on
    which the rules pass, when [minimumProtocolVersion] is configured and
    [certificate] is not, the last rule throws a [TypeError]: it assigns
    into the [ViewerCertificate] block that [prepareCertificate]
    deleted. *)
Theorem protocol_version_without_certificate_throws
        (this : plugin) (resources dc : value) :
  get_path resources distributionConfigPath = Ok dc ->
  is_object_at dc ["DefaultCacheBehavior"; "ForwardedValues"; "Cookies"]
  = true ->
  first_origin_is_object dc = true ->
  (is_null (getConfig this "logging.bucket" VNull) = false ->
   is_object_at dc ["Logging"] = true) ->
  inputs_fit this = true ->
  is_null (getConfig this "certificate" VNull) = true ->
  truthy (getConfig this "minimumProtocolVersion" VUndef) = true ->
  prepareResources this resources = Err TypeError.
Proof.
  intros Hdc Hc Ho Hlog Hin Hcert Hmin.
  unfold prepareResources. rewrite Hdc. cbn [bind].
  rewrite applyRules_to_certificate.
  destruct (reaches_certificate this dc Hc Ho Hlog Hin)
    as [d10 [E10 [H10 _]]].
  rewrite E10. cbn [bind].
  change (rules_from_certificate this) with
    [prepareCertificate this; prepareWaf this; prepareCompress this;
     prepareMinimumProtocolVersion this].
  cbn [run].
  destruct (cookies_block_parents d10 H10) as [_ [_ Hobj]].
  assert (E11 : exists d11, prepareCertificate this d10 = Ok d11 /\
                            no_block_at d11 ["ViewerCertificate"] = true).
  { unfold prepareCertificate; cbv zeta. rewrite Hcert. cbn [negb].
    apply is_object_at_nil in Hobj. destruct Hobj as [ps ->].
    eexists. split; [reflexivity|].
    unfold no_block_at. cbn [get_path get_prop bind].
    rewrite lookup_remove, String.eqb_refl. reflexivity. }
  destruct E11 as [d11 [E11 Hno11]]. rewrite E11. cbn [bind].
  assert (H11 : is_object_at d11 ["DefaultCacheBehavior"; "ForwardedValues";
                                  "Cookies"] = true).
  { rewrite (rule_keeps this (prepareCertificate this) fields_Certificate)
      with (dc := d10); [assumption | simpl; tauto | assumption
                         | reflexivity]. }
  destruct (cookies_block_parents d11 H11) as [_ [_ Hobj11]].
  destruct (prepareWaf_returns this d11 Hobj11) as [d12 E12].
  rewrite E12. cbn [bind].
  assert (H12 : is_object_at d12 ["DefaultCacheBehavior"; "ForwardedValues";
                                  "Cookies"] = true).
  { rewrite (rule_keeps this (prepareWaf this) fields_Waf)
      with (dc := d11); [assumption | simpl; tauto | assumption
                         | reflexivity]. }
  destruct (cookies_block_parents d12 H12) as [_ [Hdcb _]].
  destruct (prepareCompress_returns this d12 Hdcb) as [d13 E13].
  rewrite E13. cbn [bind]. rewrite bind_ret.
  unfold prepareMinimumProtocolVersion; cbv zeta. rewrite Hmin.
  rewrite assign_in_throws; [reflexivity|].
  rewrite (no_block_at_get d12 d13);
    [| exact (proj1 (prepareCompress_frames this _ _ E13)
                    ["ViewerCertificate"] eq_refl)].
  rewrite (no_block_at_get d11 d12);
    [| exact (proj1 (prepareWaf_frames this _ _ E12)
                    ["ViewerCertificate"] eq_refl)].
  assumption.
Qed.

Lemma protocol_version_without_certificate_throws_witness :
  let this :=
    sample_plugin (VObj [("minimumProtocolVersion", VStr "TLSv1.2_2019")])
                  "qa-api" "qa" in
  get_path sample_resources distributionConfigPath
  = Ok sample_distributionConfig /\
  is_null (getConfig this "certificate" VNull) = true /\
  truthy (getConfig this "minimumProtocolVersion" VUndef) = true /\
  prepareResources this sample_resources = Err TypeError.
Proof.
  intros this.
  split; [reflexivity|]. split; [reflexivity|]. split; [reflexivity|].
  apply (protocol_version_without_certificate_throws
           this sample_resources sample_distributionConfig);
    [reflexivity | reflexivity | reflexivity | discriminate
     | reflexivity | reflexivity | reflexivity].
Defined.

Lemma pipeline_returns_witness :
  let this :=
    sample_plugin
      (VObj [("certificate", VStr "arn:aws:acm:cert");
             ("minimumProtocolVersion", VStr "TLSv1.2_2019");
             ("logging", VObj [("bucket", VStr "logs")])])
      "dev-api" "prod" in
  get_path sample_resources distributionConfigPath
  = Ok sample_distributionConfig /\
  template_fits this sample_distributionConfig = true /\
  inputs_fit this = true /\
  exists resources', prepareResources this sample_resources = Ok resources'.
Proof.
  intros this.
  split; [reflexivity|]. split; [reflexivity|]. split; [reflexivity|].
  apply (pipeline_returns this sample_resources sample_distributionConfig);
    [reflexivity | reflexivity | reflexivity | intros _; reflexivity].
Defined.

(* ===================================================================== *)
(** ** The conversion of the custom headers                               *)
(* ===================================================================== *)

Lemma entries_single (k : string) (v : value) :
  entries (VObj [(k, v)]) = [(k, v)].
Proof.
  unfold entries, named_props, is_index. cbn [indexed_props filter fst].
  destruct (index_of_key k); reflexivity.
Qed.

Lemma header_of_single (k : string) (v : value) :
  Lodash.zipObject ["HeaderName"; "HeaderValue"]
    (Lodash.head (Lodash.toPairs (VObj [(k, v)])))
  = VObj [("HeaderName", VStr k); ("HeaderValue", v)].
Proof.
  unfold Lodash.toPairs. rewrite entries_single. reflexivity.
Qed.

(** X7.  Custom headers.  When [originCustomHeaders] is a list of one-entry
    maps [{name: value}], the output's [Origins[0].OriginCustomHeaders]
    is the list of [{HeaderName: name, HeaderValue: value}], one per
    entry and in the order of the configuration. *)
Theorem custom_headers_converted
        (this : plugin) (resources resources' : value)
        (headers : list (string * value)) :
  prepareResources this resources = Ok resources' ->
  getConfig this "originCustomHeaders" (VArr [])
  = VArr (map (fun kv => VObj [kv]) headers) ->
  exists dc',
    get_path resources' distributionConfigPath = Ok dc' /\
    get_path dc' ["Origins"; "0"; "OriginCustomHeaders"]
    = Ok (VArr (map (fun kv => VObj [("HeaderName", VStr (fst kv));
                                     ("HeaderValue", snd kv)]) headers)).
Proof.
  intros H Hcfg.
  destruct (prepareResources_inv _ _ _ H) as [dc [dc' [Hdc [Hrules Hdc']]]].
  exists dc'. split; [assumption|].
  destruct (rule_at this dc dc' 3 _ _ Hrules eq_refl)
    as [a [b [HR [_ [_ [_ [Hafter _]]]]]]].
  rewrite (Hafter ["Origins"; "0"; "OriginCustomHeaders"] eq_refl).
  rewrite <- (prepareOrigins_headers _ _ _ HR).
  unfold customHeaders. rewrite Hcfg. cbn [array_map bind].
  rewrite !map_map. f_equal. f_equal.
  apply map_ext. intros [k v]. apply header_of_single.
Qed.

Lemma custom_headers_converted_witness :
  let this :=
    sample_plugin
      (VObj [("originCustomHeaders",
              VArr [VObj [("X-Api-Key", VStr "secret")];
                    VObj [("X-Origin", VStr "cdn")]])])
      "dev-api" "prod" in
  let out := returned (prepareResources this sample_resources) in
  prepareResources this sample_resources = Ok out /\
  exists dc',
    get_path out distributionConfigPath = Ok dc' /\
    get_path dc' ["Origins"; "0"; "OriginCustomHeaders"]
    = Ok (VArr [VObj [("HeaderName", VStr "X-Api-Key");
                      ("HeaderValue", VStr "secret")];
                VObj [("HeaderName", VStr "X-Origin");
                      ("HeaderValue", VStr "cdn")]]).
Proof.
  intros this out. split; [reflexivity|].
  apply (custom_headers_converted
           this sample_resources out
           [("X-Api-Key", VStr "secret"); ("X-Origin", VStr "cdn")]);
    reflexivity.
Defined.

(* ===================================================================== *)
(** ** The summary                                                        *)
(* ===================================================================== *)

Lemma find_first_skips (predicate : value -> result bool)
      (before : list value) (rest : list value) :
  Forall (fun x => predicate x = Ok false) before ->
  find_first predicate (before ++ rest)%list = find_first predicate rest.
Proof.
  induction 1 as [|x l Hx _ IH]; [reflexivity|].
  cbn [List.app find_first]. rewrite Hx. exact IH.
Qed.

Lemma find_plugin_skips (f : installed -> bool)
      (before : list installed) (rest : list installed) :
  Forall (fun p => f p = false) before ->
  List.find f (before ++ rest)%list = List.find f rest.
Proof.
  induction 1 as [|x l Hx _ IH]; [reflexivity|].
  cbn [List.app List.find]. rewrite Hx. exact IH.
Qed.

Lemma other_output_skipped (key : string) (output : value) :
  other_output key output = true ->
  (k <- get_prop output "OutputKey" ;; Ok (is_string key k)) = Ok false.
Proof.
  unfold other_output. destruct (get_prop output "OutputKey") as [k|];
    [|discriminate].
  cbn [bind]. destruct (is_string key k); [discriminate | reflexivity].
Qed.

(** X14.  The summary is printed.  When the first plugin named [AwsInfo] has
    gathered a list of outputs, [printSummary] looks at the first output
    with the key [ApiDistribution]: if its value is truthy it logs the
    title and one line with that value and the configured [domain] ("-"
    when none is configured), otherwise it logs nothing; plugins and
    outputs after the first match are not looked at. *)
Theorem printSummary_prints_domain
        (this : plugin) (before after : list installed) (awsInfo : installed)
        (outputs1 outputs2 : list value) (output outputValue : value) :
  Forall (fun p => constructor_name p <> "AwsInfo") before ->
  constructor_name awsInfo = "AwsInfo" ->
  truthy (gatheredData awsInfo) = true ->
  get_prop (gatheredData awsInfo) "outputs"
  = Ok (VArr (outputs1 ++ output :: outputs2)) ->
  Forall (fun o => other_output "ApiDistribution" o = true) outputs1 ->
  get_prop output "OutputKey" = Ok (VStr "ApiDistribution") ->
  get_prop output "OutputValue" = Ok outputValue ->
  printSummary this (before ++ awsInfo :: after)
  = Ok (if truthy outputValue then
          [yellow "CloudFront domain name";
           plain ("  " ++ toString outputValue ++ " (CNAME: "
                  ++ toString (getConfig this "domain" (VStr "-")) ++ ")")]
        else []).
Proof.
  intros Hbefore Hname Hdata Houtputs Hothers Hkey Hvalue.
  unfold printSummary.
  rewrite find_plugin_skips.
  2:{ eapply Forall_impl; [|exact Hbefore]. cbv beta. intros p Hp.
      apply String.eqb_neq. exact Hp. }
  cbn [List.find]. rewrite Hname, String.eqb_refl.
  rewrite Hdata. cbn [negb]. rewrite Houtputs. cbn [bind].
  unfold find. cbn [bind].
  rewrite find_first_skips.
  2:{ eapply Forall_impl; [|exact Hothers]. cbv beta. intros o Ho.
      apply other_output_skipped. exact Ho. }
  cbn [find_first]. rewrite Hkey. cbn [bind is_string].
  rewrite String.eqb_refl. cbn [bind].
  assert (Hobj : truthy output = true).
  { destruct output; try reflexivity; simpl in Hkey; discriminate. }
  rewrite Hobj. cbn [negb]. rewrite Hvalue. cbn [bind].
  destruct (truthy outputValue); reflexivity.
Qed.

Lemma printSummary_prints_domain_witness :
  let this :=
    sample_plugin
      (VObj [("domain", VArr [VStr "a.example.com"; VStr "b.example.com"])])
      "dev-api" "prod" in
  let endpoint :=
    VObj [("OutputKey", VStr "ServiceEndpoint");
          ("OutputValue", VStr "https://api.example.com/prod")] in
  let output :=
    VObj [("OutputKey", VStr "ApiDistribution");
          ("OutputValue", VStr "d111.cloudfront.net")] in
  let awsInfo :=
    {| constructor_name := "AwsInfo";
       gatheredData := VObj [("outputs", VArr [endpoint; output])] |} in
  let before := [{| constructor_name := "AwsDeploy";
                    gatheredData := VUndef |}] in
  Forall (fun p => constructor_name p <> "AwsInfo") before /\
  Forall (fun o => other_output "ApiDistribution" o = true) [endpoint] /\
  printSummary this (before ++ [awsInfo])
  = Ok [yellow "CloudFront domain name";
        plain "  d111.cloudfront.net (CNAME: a.example.com,b.example.com)"].
Proof.
  intros this endpoint output awsInfo before.
  assert (Hb : Forall (fun p => constructor_name p <> "AwsInfo") before)
    by (constructor; [discriminate | constructor]).
  assert (Ho : Forall (fun o => other_output "ApiDistribution" o = true)
                      [endpoint])
    by (constructor; [reflexivity | constructor]).
  split; [exact Hb|]. split; [exact Ho|].
  exact (printSummary_prints_domain
           this before [] awsInfo [endpoint] [] output
           (VStr "d111.cloudfront.net")
           Hb eq_refl eq_refl eq_refl Ho eq_refl eq_refl).
Defined.

(** X15.  No summary without gathered data.  When no plugin is named
    [AwsInfo], or the first one that is has no (truthy) [gatheredData],
    [printSummary] logs nothing and does not throw, whatever the plugins
    after it hold. *)
Theorem printSummary_silent_without_data
        (this : plugin) (before rest : list installed) :
  Forall (fun p => constructor_name p <> "AwsInfo") before ->
  match rest with
  | [] => True
  | awsInfo :: _ =>
      constructor_name awsInfo = "AwsInfo" /\
      truthy (gatheredData awsInfo) = false
  end ->
  printSummary this (before ++ rest) = Ok [].
Proof.
  intros Hbefore Hrest. unfold printSummary.
  rewrite find_plugin_skips.
  2:{ eapply Forall_impl; [|exact Hbefore]. cbv beta. intros p Hp.
      apply String.eqb_neq. exact Hp. }
  destruct rest as [|awsInfo after]; [reflexivity|].
  destruct Hrest as [Hname Hdata].
  cbn [List.find]. rewrite Hname, String.eqb_refl, Hdata. reflexivity.
Qed.

Lemma printSummary_silent_without_data_witness :
  let this := sample_plugin (VObj []) "dev-api" "prod" in
  let output :=
    VObj [("OutputKey", VStr "ApiDistribution");
          ("OutputValue", VStr "d111.cloudfront.net")] in
  let before := [{| constructor_name := "AwsDeploy";
                    gatheredData := VUndef |}] in
  let rest :=
    [{| constructor_name := "AwsInfo"; gatheredData := VUndef |};
     {| constructor_name := "AwsInfo";
        gatheredData := VObj [("outputs", VArr [output])] |}] in
  Forall (fun p => constructor_name p <> "AwsInfo") before /\
  printSummary this (before ++ rest) = Ok [].
Proof.
  intros this output before rest.
  assert (Hb : Forall (fun p => constructor_name p <> "AwsInfo") before)
    by (constructor; [discriminate | constructor]).
  split; [exact Hb|].
  exact (printSummary_silent_without_data
           this before rest Hb (conj eq_refl eq_refl)).
Defined.

(** X16.  No summary without the distribution's output.  When the first
    [AwsInfo] plugin has gathered data whose [outputs] are missing or are
    a list of outputs under other keys than [ApiDistribution],
    [printSummary] logs nothing and does not throw. *)
Theorem printSummary_silent_without_output
        (this : plugin) (before after : list installed) (awsInfo : installed)
        (outputs : value) :
  Forall (fun p => constructor_name p <> "AwsInfo") before ->
  constructor_name awsInfo = "AwsInfo" ->
  get_prop (gatheredData awsInfo) "outputs" = Ok outputs ->
  no_distribution_output outputs = true ->
  printSummary this (before ++ awsInfo :: after) = Ok [].
Proof.
  intros Hbefore Hname Houtputs Hnone. unfold printSummary.
  rewrite find_plugin_skips.
  2:{ eapply Forall_impl; [|exact Hbefore]. cbv beta. intros p Hp.
      apply String.eqb_neq. exact Hp. }
  cbn [List.find]. rewrite Hname, String.eqb_refl.
  destruct (negb (truthy (gatheredData awsInfo))); [reflexivity|].
  rewrite Houtputs. cbn [bind].
  destruct outputs as [| |b|n|s|es|ps]; try discriminate; try reflexivity.
  unfold find. cbn [bind]. cbn [no_distribution_output] in Hnone.
  rewrite forallb_forall in Hnone. apply Forall_forall in Hnone.
  rewrite <- (app_nil_r es), find_first_skips; [reflexivity|].
  eapply Forall_impl; [|exact Hnone]. cbv beta. intros o Ho.
  apply other_output_skipped. exact Ho.
Qed.

Lemma printSummary_silent_without_output_witness :
  let this := sample_plugin (VObj []) "dev-api" "prod" in
  let endpoint :=
    VObj [("OutputKey", VStr "ServiceEndpoint");
          ("OutputValue", VStr "https://api.example.com/prod")] in
  let awsInfo :=
    {| constructor_name := "AwsInfo";
       gatheredData := VObj [("outputs", VArr [endpoint])] |} in
  no_distribution_output (VArr [endpoint]) = true /\
  printSummary this [awsInfo] = Ok [].
Proof.
  intros this endpoint awsInfo. split; [reflexivity|].
  exact (printSummary_silent_without_output
           this [] [] awsInfo (VArr [endpoint])
           (Forall_nil _) eq_refl eq_refl eq_refl).
Defined.

(* ===================================================================== *)
(** ** The merge into the compiled template                               *)
(* ===================================================================== *)

Lemma distinct_NoDup (keys : list string) :
  distinct keys = true -> NoDup keys.
Proof.
  induction keys as [|k rest IH]; simpl; intros H; [constructor|].
  apply andb_prop in H. destruct H as [Hk Hrest].
  constructor; [|auto].
  intros Hin. apply negb_true_iff in Hk.
  assert (E : existsb (String.eqb k) rest = true).
  { apply existsb_exists. exists k. split; [assumption|].
    apply String.eqb_refl. }
  congruence.
Qed.

Lemma lookup_in (k : string) (v : value) (ps : list (string * value)) :
  lookup k ps = Some v -> In (k, v) ps.
Proof.
  induction ps as [|[k' v'] rest IH]; simpl; [discriminate|].
  destruct (String.eqb_spec k k') as [->|Hk].
  - intros [= ->]. left. reflexivity.
  - intros H. right. auto.
Qed.

Lemma distinct_keys_obj (ps : list (string * value)) :
  distinct_keys (VObj ps) = true ->
  NoDup (map fst ps) /\
  forall k v, lookup k ps = Some v -> distinct_keys v = true.
Proof.
  cbn [distinct_keys]. intros H. apply andb_prop in H.
  destruct H as [Hd Hall]. split; [apply distinct_NoDup; assumption|].
  intros k v Hl. rewrite forallb_forall in Hall.
  exact (Hall _ (lookup_in _ _ _ Hl)).
Qed.

Lemma upsert_fresh (k : string) (v : value) (ps : list (string * value)) :
  lookup k ps = None -> upsert k v ps = (ps ++ [(k, v)])%list.
Proof.
  induction ps as [|[k' v'] rest IH]; simpl; [reflexivity|].
  destruct (String.eqb k k'); [discriminate|].
  intros H. rewrite (IH H). reflexivity.
Qed.

Lemma lookup_app_none (k : string) (ps qs : list (string * value)) :
  lookup k ps = None -> lookup k (ps ++ qs)%list = lookup k qs.
Proof.
  induction ps as [|[k' v'] rest IH]; simpl; [reflexivity|].
  destruct (String.eqb k k'); [discriminate | exact IH].
Qed.

(** The loop over the properties of a source whose values merge into
    nothing as themselves, into a destination that has none of its keys:
    the properties are appended. *)
Lemma mergeProps_fresh (sps : list (string * value)) :
  Forall (fun kv => forall r, Lodash.mergeValue (snd kv) None = Ok r ->
                              r = snd kv) sps ->
  NoDup (map fst sps) ->
  forall ops mps,
    (forall k, In k (map fst sps) -> lookup k ops = None) ->
    Lodash.mergeProps sps ops = Ok mps ->
    mps = (ops ++ sps)%list.
Proof.
  induction 1 as [|[k sv] rest Hsv _ IH]; intros Hnd ops mps Hfresh H.
  - injection H as <-. rewrite app_nil_r. reflexivity.
  - rewrite mergeProps_cons in H. bind_inv H.
    inversion Hnd as [|x l Hnotin Hnd']; subst.
    assert (Hk : lookup k ops = None) by (apply Hfresh; left; reflexivity).
    rewrite Hk in Hstep. apply Hsv in Hstep. cbn [snd] in Hstep. subst r.
    rewrite (upsert_fresh _ _ _ Hk) in H.
    assert (Hfresh' : forall k', In k' (map fst rest) ->
                                 lookup k' (ops ++ [(k, sv)])%list = None).
    { intros k' Hin.
      rewrite (lookup_app_none _ _ _ (Hfresh k' (or_intror Hin))).
      simpl. destruct (String.eqb_spec k' k) as [->|]; [|reflexivity].
      contradiction. }
    rewrite (IH Hnd' _ _ Hfresh' H), <- app_assoc. reflexivity.
Qed.

Lemma mergeElems_fresh (ses : list value) :
  Forall (fun sv => forall r, Lodash.mergeValue sv None = Ok r -> r = sv)
         ses ->
  forall es, Lodash.mergeElems ses [] = Ok es -> es = ses.
Proof.
  induction 1 as [|sv rest Hsv _ IH]; intros es H.
  - injection H as <-. reflexivity.
  - change (Lodash.mergeElems (sv :: rest) []) with
      (newValue <- Lodash.mergeValue sv None ;;
       rest' <- Lodash.mergeElems rest [] ;;
       Ok (newValue :: rest')) in H.
    bind_inv H. bind_inv H. injection H as <-.
    rewrite (Hsv _ Hstep), (IH _ Hstep0). reflexivity.
Qed.

(** A value merged into a key that the destination does not have arrives
    as it is. *)
Lemma mergeValue_fresh (s : value) :
  distinct_keys s = true ->
  forall r, Lodash.mergeValue s None = Ok r -> r = s.
Proof.
  induction s as [| |b|n|str|es IH|ps IH] using value_ind;
    intros Hd r H; try (simpl in H; congruence).
  - rewrite mergeValue_arr in H. bind_inv H. injection H as <-.
    f_equal. apply mergeElems_fresh; [|assumption].
    cbn [distinct_keys] in Hd. rewrite forallb_forall in Hd.
    rewrite Forall_forall in IH |- *.
    intros x Hx. apply IH; auto.
  - rewrite mergeValue_obj in H.
    destruct (existsb (fun kv => is_index (fst kv)) ps); [discriminate|].
    cbn [bind] in H. bind_inv H. injection H as <-.
    cbn [distinct_keys] in Hd. apply andb_prop in Hd.
    destruct Hd as [Hkeys Hvals]. rewrite forallb_forall in Hvals.
    f_equal. apply (mergeProps_fresh ps) with (ops := []);
      [| apply distinct_NoDup; assumption | reflexivity | assumption].
    rewrite Forall_forall in IH |- *.
    intros x Hx. apply IH; auto.
Qed.

Lemma is_object_at_lookup (o : value) (k : string) (q : list string) :
  is_object_at o (k :: q) = true ->
  index_of_key k = None ->
  exists ps c, o = VObj ps /\ lookup k ps = Some c /\
               is_object_at c q = true.
Proof.
  intros H Hk. apply is_object_at_step in H. destruct H as [c [Hc Hobj]].
  destruct (get_prop_container _ _ _ Hc (is_object_container _ _ Hobj))
    as [[ps [-> Hl]] | [es [i [_ [_ [Hi _]]]]]]; [eauto | congruence].
Qed.

Lemma object_above (q : list string) (k1 k2 : string) (o v : value) :
  get_path o (q ++ [k1; k2])%list = Ok v ->
  String.eqb k1 "length" = false ->
  index_of_key k1 = None ->
  is_object_at o q = true.
Proof.
  intros H Hlen Hk. rewrite get_path_app in H. unfold is_object_at.
  destruct (get_path o q) as [c|]; [|discriminate].
  cbn [bind get_path] in H.
  destruct c; simpl in H; try discriminate; try reflexivity;
    rewrite Hlen, Hk in H; discriminate.
Qed.

(** X17.  The distribution arrives in the compiled template.  When the
    compiled template has no resource [ApiDistribution],
    [createDeploymentArtifacts] returns a template whose
    [Resources.ApiDistribution] is the resource that [prepareResources]
    produced, with the provider's tags as its [Tags] when there are
    any. *)
Theorem merged_template_holds_distribution
        (this : plugin) (resources merged : value)
        (template compiled : list (string * value)) :
  createDeploymentArtifacts this resources = Ok merged ->
  get_path (serverless this)
           ["service"; "provider"; "compiledCloudFormationTemplate"]
  = Ok (VObj template) ->
  lookup "Resources" template = Some (VObj compiled) ->
  lookup "ApiDistribution" compiled = None ->
  exists prepared tags tagged,
    prepareResources this resources = Ok prepared /\
    get_path (serverless this) ["service"; "provider"; "tags"] = Ok tags /\
    (if truthy tags then
       assign_in prepared ["Resources"; "ApiDistribution"; "Properties"]
                 "Tags" (tagList tags)
     else Ok prepared) = Ok tagged /\
    (truthy tags = true ->
     get_path tagged ["Resources"; "ApiDistribution"; "Properties"; "Tags"]
     = Ok (tagList tags)) /\
    get_path tagged distributionConfigPath
    = get_path prepared distributionConfigPath /\
    (distinct_keys tagged = true ->
     get_path merged ["Resources"; "ApiDistribution"]
     = get_path tagged ["Resources"; "ApiDistribution"]).
Proof.
  intros H Hbase Hres Hnone. unfold createDeploymentArtifacts in H.
  rewrite Hbase in H. cbn [bind] in H.
  bind_inv H. rename r into prepared, Hstep into Hprepared.
  bind_inv H. rename r into tags, Hstep into Htags.
  bind_inv H. rename r into tagged, Hstep into Htagged.
  exists prepared, tags, tagged.
  split; [assumption|]. split; [assumption|]. split; [assumption|].
  destruct (prepareResources_inv _ _ _ Hprepared)
    as [dc [dc' [_ [_ Hdc']]]].
  assert (Hobj : is_object_at prepared ["Resources"; "ApiDistribution"]
                 = true).
  { apply (object_above ["Resources"; "ApiDistribution"]
                        "Properties" "DistributionConfig" prepared dc');
      [exact Hdc' | reflexivity | reflexivity]. }
  assert (Hobj' : is_object_at tagged ["Resources"; "ApiDistribution"]
                  = true).
  { destruct (truthy tags).
    - rewrite (assign_in_keeps _ _ _ _ _ ["Resources"; "ApiDistribution"]
                               Htagged eq_refl). assumption.
    - injection Htagged as <-. assumption. }
  split; [|split].
  - intros Ht. rewrite Ht in Htagged.
    exact (assign_in_get _ _ _ _ _ Htagged).
  - destruct (truthy tags).
    + exact (assign_in_frame _ _ _ _ _ distributionConfigPath
                             Htagged eq_refl).
    + injection Htagged as <-. reflexivity.
  - intros Hd.
    destruct (is_object_at_lookup _ _ _ Hobj' eq_refl)
      as [tps [c [-> [Hl Hc]]]].
    destruct (is_object_at_lookup _ _ _ Hc eq_refl)
      as [trs [dist [-> [Hl' _]]]].
    destruct (distinct_keys_obj _ Hd) as [Hnd Hvals].
    destruct (distinct_keys_obj _ (Hvals _ _ Hl)) as [Hnd' Hvals'].
    unfold Lodash.merge in H. rewrite mergeValue_obj in H.
    destruct (existsb (fun kv => is_index (fst kv)) tps); [discriminate|].
    cbn [bind] in H. bind_inv H. injection H as <-.
    destruct (proj2 (mergeProps_lookup _ _ _ Hstep Hnd) _ _ Hl)
      as [m [Hm Hlm]].
    rewrite Hres, mergeValue_obj in Hm.
    destruct (existsb (fun kv => is_index (fst kv)) trs); [discriminate|].
    cbn [bind] in Hm. bind_inv Hm. injection Hm as <-.
    destruct (proj2 (mergeProps_lookup _ _ _ Hstep0 Hnd') _ _ Hl')
      as [m' [Hm' Hlm']].
    rewrite Hnone in Hm'.
    apply (mergeValue_fresh _ (Hvals' _ _ Hl')) in Hm'. subst m'.
    cbn [get_path get_prop bind]. rewrite Hlm, Hl. cbn [bind get_prop].
    rewrite Hlm', Hl'. reflexivity.
Qed.

Lemma merged_template_holds_distribution_witness :
  let compiled := [("Bucket", VObj [("Type", VStr "AWS::S3::Bucket")])] in
  let template := [("Resources", VObj compiled)] in
  let this :=
    {| serverless :=
         VObj [("service",
                VObj [("custom", VObj [("apiCloudFront", VObj [])]);
                      ("provider",
                       VObj [("compiledCloudFormationTemplate",
                              VObj template);
                             ("tags", VObj [("team", VStr "api")])])])];
       apiGatewayName := VStr "dev-api";
       options := VObj [("stage", VStr "prod")] |} in
  let merged := returned (createDeploymentArtifacts this sample_resources) in
  createDeploymentArtifacts this sample_resources = Ok merged /\
  exists prepared tags tagged,
    prepareResources this sample_resources = Ok prepared /\
    get_path (serverless this) ["service"; "provider"; "tags"] = Ok tags /\
    (if truthy tags then
       assign_in prepared ["Resources"; "ApiDistribution"; "Properties"]
                 "Tags" (tagList tags)
     else Ok prepared) = Ok tagged /\
    (truthy tags = true ->
     get_path tagged ["Resources"; "ApiDistribution"; "Properties"; "Tags"]
     = Ok (tagList tags)) /\
    get_path tagged distributionConfigPath
    = get_path prepared distributionConfigPath /\
    (distinct_keys tagged = true ->
     get_path merged ["Resources"; "ApiDistribution"]
     = get_path tagged ["Resources"; "ApiDistribution"]).
Proof.
  intros compiled template this merged. split; [reflexivity|].
  apply (merged_template_holds_distribution
           this sample_resources merged template compiled); reflexivity.
Defined.

(* ===================================================================== *)
(** ** The deep merge, at every depth                                     *)
(* ===================================================================== *)

Lemma deep_merged_obj (sps : list (string * value)) (held : option value)
      (m : value) :
  deep_merged (VObj sps) held m =
  match held with
  | Some (VArr _) => True
  | _ =>
      let ops := match held with Some (VObj ops) => ops | _ => [] end in
      exists mps,
        m = VObj mps /\
        (forall k, lookup k sps = None -> lookup k mps = lookup k ops) /\
        deep_merged_props mps ops sps
  end.
Proof. reflexivity. Qed.

Lemma deep_merged_arr (ses : list value) (held : option value) (m : value) :
  deep_merged (VArr ses) held m =
  match held with
  | Some (VObj _) => True
  | _ =>
      let oes := match held with Some (VArr oes) => oes | _ => [] end in
      exists es, m = VArr es /\ deep_merged_elems ses oes es
  end.
Proof. reflexivity. Qed.

Lemma in_lookup (k : string) (v : value) (ps : list (string * value)) :
  NoDup (map fst ps) -> In (k, v) ps -> lookup k ps = Some v.
Proof.
  induction ps as [|[k' v'] rest IH]; simpl; intros Hnd Hin; [contradiction|].
  inversion Hnd as [|x l Hnotin Hnd']; subst.
  destruct Hin as [[= -> ->] | Hin].
  - rewrite String.eqb_refl. reflexivity.
  - destruct (String.eqb_spec k k') as [->|Hne]; [|auto].
    exfalso. apply Hnotin. change k' with (fst (k', v)).
    apply in_map. assumption.
Qed.

Lemma deep_merged_props_in (mps ops l : list (string * value)) :
  (forall k x, In (k, x) l ->
               exists mk, lookup k mps = Some mk /\
                          deep_merged x (lookup k ops) mk) ->
  deep_merged_props mps ops l.
Proof.
  induction l as [|[k x] rest IH]; intros H; [exact I|].
  cbn [deep_merged_props]. split.
  - apply H. left. reflexivity.
  - apply IH. intros k' x' Hin. apply H. right. assumption.
Qed.

Lemma mergeElems_deep (ses : list value) :
  Forall (fun x => distinct_keys x = true ->
                   forall held m, Lodash.mergeValue x held = Ok m ->
                                  deep_merged x held m) ses ->
  forallb distinct_keys ses = true ->
  forall oes es, Lodash.mergeElems ses oes = Ok es ->
                 deep_merged_elems ses oes es.
Proof.
  induction 1 as [|x rest Hx _ IH]; intros Hd oes es H.
  - injection H as <-. reflexivity.
  - cbn [forallb] in Hd. apply andb_prop in Hd. destruct Hd as [Hdx Hdrest].
    destruct oes as [|ov oes'].
    + change (Lodash.mergeElems (x :: rest) []) with
        (newValue <- Lodash.mergeValue x None ;;
         rest' <- Lodash.mergeElems rest [] ;;
         Ok (newValue :: rest')) in H.
      bind_inv H. bind_inv H. injection H as <-.
      cbn [deep_merged_elems hd_error tl]. split.
      * exact (Hx Hdx _ _ Hstep).
      * exact (IH Hdrest _ _ Hstep0).
    + change (Lodash.mergeElems (x :: rest) (ov :: oes')) with
        (newValue <- Lodash.mergeValue x (Some ov) ;;
         rest' <- Lodash.mergeElems rest oes' ;;
         Ok (newValue :: rest')) in H.
      bind_inv H. bind_inv H. injection H as <-.
      cbn [deep_merged_elems hd_error tl]. split.
      * exact (Hx Hdx _ _ Hstep).
      * exact (IH Hdrest _ _ Hstep0).
Qed.

(** What [mergeValue] leaves is the deep merge, at every depth. *)
Lemma mergeValue_deep (sv : value) :
  distinct_keys sv = true ->
  forall held m, Lodash.mergeValue sv held = Ok m -> deep_merged sv held m.
Proof.
  induction sv as [| |b|n|str|es IH|ps IH] using value_ind;
    intros Hd held m H; try (simpl in H |- *; congruence).
  - rewrite mergeValue_arr in H. bind_inv H. injection H as <-.
    rewrite deep_merged_arr. cbn [distinct_keys] in Hd.
    destruct held as [[| |b|n|s|oes|ops]|]; try exact I;
      (eexists; split; [reflexivity|]);
      exact (mergeElems_deep es IH Hd _ _ Hstep).
  - rewrite mergeValue_obj in H.
    destruct (existsb (fun kv => is_index (fst kv)) ps); [discriminate|].
    cbn [bind] in H. bind_inv H. bind_inv H. injection H as <-.
    rewrite deep_merged_obj.
    destruct (distinct_keys_obj _ Hd) as [Hnd Hvals].
    assert (Hgoal : forall ops, Lodash.mergeProps ps ops = Ok r0 ->
              exists mps,
                VObj r0 = VObj mps /\
                (forall k, lookup k ps = None ->
                           lookup k mps = lookup k ops) /\
                deep_merged_props mps ops ps).
    { intros ops Hm. exists r0. split; [reflexivity|].
      destruct (mergeProps_lookup _ _ _ Hm Hnd) as [Hkeep Hmerge].
      split; [exact Hkeep|].
      apply deep_merged_props_in. intros k x Hin.
      pose proof (in_lookup _ _ _ Hnd Hin) as Hl.
      destruct (Hmerge _ _ Hl) as [mk [Hmk Hlk]].
      exists mk. split; [assumption|].
      rewrite Forall_forall in IH.
      exact (IH (k, x) Hin (Hvals _ _ Hl) _ _ Hmk). }
    destruct held as [[| |b|n|s|oes|ops]|]; cbn [bind] in Hstep;
      try discriminate; injection Hstep as <-; cbv zeta; apply Hgoal;
      assumption.
Qed.

Lemma mergeValue_over_scalar (sv : value) (held : option value) :
  container sv = true -> holds_no_container held = true ->
  Lodash.mergeValue sv held = Lodash.mergeValue sv None.
Proof.
  intros Hc Hh. destruct sv; try discriminate.
  - rewrite !mergeValue_arr.
    destruct held as [[| |b|n|s|oes|ops]|]; try discriminate; reflexivity.
  - rewrite !mergeValue_obj.
    destruct held as [[| |b|n|s|oes|ops]|]; try discriminate; reflexivity.
Qed.

(** C2 (amended).  The merge is lodash's deep merge.  A key that the
    source does not have keeps the target's value.  For a key of the
    source: a scalar source value ([null], boolean, number, string)
    overwrites what the target holds; an [undefined] one leaves it; a map
    is merged recursively into the map of the target; an array is merged
    into the array of the target index by index, so that the positions
    the source has receive the source's scalars and the elements of the
    target beyond the source's length stay; and where the target holds no
    map and no array at the key (nothing, or a scalar) the source's map
    or array is stored there as it is.  At every depth the value left at
    the key is the deep merge [deep_merged] of the source's value into
    what the target held. *)
Theorem merge_is_lodash_deep_merge
        (ops sps : list (string * value)) (merged : value) :
  Lodash.merge (VObj ops) (VObj sps) = Ok merged ->
  NoDup (map fst sps) ->
  exists mps,
    merged = VObj mps /\
    (forall k, lookup k sps = None -> lookup k mps = lookup k ops) /\
    (forall k sv,
        lookup k sps = Some sv ->
        exists m,
          lookup k mps = Some m /\
          (scalar sv = true -> m = sv) /\
          (sv = VUndef ->
           m = match lookup k ops with Some v => v | None => VUndef end) /\
          (forall so to,
              sv = VObj so -> lookup k ops = Some (VObj to) ->
              Lodash.merge (VObj to) (VObj so) = Ok m) /\
          (forall ses oes,
              sv = VArr ses -> lookup k ops = Some (VArr oes) ->
              exists es,
                m = VArr es /\
                List.length es = Nat.max (List.length ses) (List.length oes) /\
                (forall i, (List.length ses <= i)%nat ->
                           nth_error es i = nth_error oes i) /\
                (forall i x, nth_error ses i = Some x -> scalar x = true ->
                             nth_error es i = Some x)) /\
          (container sv = true ->
           holds_no_container (lookup k ops) = true ->
           distinct_keys sv = true ->
           m = sv) /\
          (distinct_keys sv = true -> deep_merged sv (lookup k ops) m)).
Proof.
  intros H Hnd.
  destruct (merge_at_each_key ops sps merged H Hnd)
    as [mps [-> [Hkeep Hkeys]]].
  exists mps. split; [reflexivity|]. split; [exact Hkeep|].
  intros k sv Hk. destruct (Hkeys k sv Hk) as [m [Hm [Hs [Hu [Ho Ha]]]]].
  exists m. repeat (split; [assumption|]).
  unfold Lodash.merge in H. rewrite mergeValue_obj in H.
  destruct (existsb (fun kv => is_index (fst kv)) sps); [discriminate|].
  cbn [bind] in H. bind_inv H. injection H as <-.
  destruct (proj2 (mergeProps_lookup _ _ _ Hstep Hnd) _ _ Hk)
    as [m' [Hm' Hl']].
  assert (m' = m) by congruence. subst m'.
  split.
  - intros Hc Hh Hd.
    rewrite (mergeValue_over_scalar _ _ Hc Hh) in Hm'.
    exact (mergeValue_fresh _ Hd _ Hm').
  - intros Hd. exact (mergeValue_deep _ Hd _ _ Hm').
Qed.

Lemma merge_is_lodash_deep_merge_witness :
  let ops := [("a", VArr [VNum 1; VNum 2; VNum 3]); ("b", VStr "kept");
              ("p", VStr "scalar")] in
  let sps := [("a", VArr [VNum 9]); ("c", VObj [("d", VNull)]);
              ("p", VObj [("n", VNum 1)])] in
  let merged := returned (Lodash.merge (VObj ops) (VObj sps)) in
  Lodash.merge (VObj ops) (VObj sps) = Ok merged /\
  merged = VObj [("a", VArr [VNum 9; VNum 2; VNum 3]); ("b", VStr "kept");
                 ("p", VObj [("n", VNum 1)]); ("c", VObj [("d", VNull)])] /\
  NoDup (map fst sps) /\
  get_prop merged "p" = Ok (VObj [("n", VNum 1)]) /\
  get_prop merged "c" = Ok (VObj [("d", VNull)]) /\
  get_prop merged "b" = Ok (VStr "kept").
Proof.
  intros ops sps merged.
  assert (Hnd : NoDup (map fst sps)).
  { simpl. repeat constructor; simpl; intuition discriminate. }
  destruct (merge_is_lodash_deep_merge ops sps merged eq_refl Hnd)
    as [mps [E [Hkeep Hkeys]]].
  destruct (Hkeys "p" _ eq_refl) as [mp [Hp [_ [_ [_ [_ [Hstored _]]]]]]].
  destruct (Hkeys "c" _ eq_refl) as [mc [Hc [_ [_ [_ [_ [Hstored' _]]]]]]].
  split; [reflexivity|]. split; [reflexivity|]. split; [exact Hnd|].
  rewrite E. cbn [get_prop].
  rewrite Hp, Hc, (Hkeep "b" eq_refl).
  rewrite (Hstored eq_refl eq_refl eq_refl).
  rewrite (Hstored' eq_refl eq_refl eq_refl).
  repeat split; reflexivity.
Defined.
